(** * ADSIM activity ETL (main.py): a shallow embedding and its properties

    The program is one Python module: [fetch_activities] reads one page of
    the CRM feed as NDJSON, [transform] turns the accumulated records into a
    pandas frame, [load_to_bigquery] appends the frame to the warehouse and
    [adsim_activity_etl] is the HTTP handler that drives the three over a
    90-day window cut into day batches.

    Python values are modelled as the code has them: a [str] is a sequence of
    code points, a parsed JSON document is a tree ([json]), exceptions are
    values of [exn] returned in [result], and the effects of the handler
    (HTTP requests, prints, warehouse loads) are appended to an explicit log.
    The library calls the module relies on ([json.loads], [str.strip],
    [str.split], [pandas.DataFrame], [pandas.json_normalize], [pandas.concat],
    [datetime.strftime]) are modelled after their CPython 3 / pandas 2
    behaviour, next to the function of main.py that uses them. *)

From Stdlib Require Import Ascii String.
From Stdlib Require Import List ZArith NArith Bool Lia Arith.
From Stdlib Require DecimalPos.
From Equations Require Import Equations.
Import ListNotations.

Set Warnings "-register-all".

(** ** Python strings *)

Module Str.

(** A code point, and a Python [str]. *)
Definition char := N.
Definition str := list char.

(** An ASCII literal of the source, as a [str]. *)
Definition lit (s : string) : str :=
  map N_of_ascii (list_ascii_of_string s).

Fixpoint eqb (a b : str) : bool :=
  match a, b with
  | [], [] => true
  | x :: a', y :: b' => N.eqb x y && eqb a' b'
  | _, _ => false
  end.

(** [str.isspace] on one code point: the table of
    [_PyUnicode_IsWhitespace], which [str.strip()] uses. *)
Definition is_space (c : char) : bool :=
  ((9 <=? c) && (c <=? 13)
   || (28 <=? c) && (c <=? 32)
   || (c =? 133) || (c =? 160) || (c =? 5760)
   || (8192 <=? c) && (c <=? 8202)
   || (c =? 8232) || (c =? 8233) || (c =? 8239) || (c =? 8287)
   || (c =? 12288))%N.

(** [s.lstrip()], [s.rstrip()] and [s.strip()] without argument. *)
Fixpoint lstrip (s : str) : str :=
  match s with
  | [] => []
  | c :: t => if is_space c then lstrip t else s
  end.

Fixpoint rstrip (s : str) : str :=
  match s with
  | [] => []
  | c :: t =>
      match rstrip t with
      | [] => if is_space c then [] else [c]
      | r => c :: r
      end
  end.

Definition strip (s : str) : str := lstrip (rstrip s).

(** [s.split(sep)] for a separator of one character: the pieces between
    the occurrences of [sep]; never the empty list. *)
Fixpoint split (sep : char) (s : str) : list str :=
  match s with
  | [] => [[]]
  | c :: t =>
      if N.eqb c sep then [] :: split sep t
      else match split sep t with
           | h :: r => (c :: h) :: r
           | [] => [[c]]
           end
  end.

(** A text made of whitespace only (the empty text included). *)
Definition blank (s : str) : bool := forallb is_space s.

(** The lines of [s.rstrip()] and of [s.lstrip()], computed from the lines
    of [s] ([split_rstrip] and [split_lstrip] below): the blank lines at that
    end go, and the first line that is not blank is stripped at that end. *)
Fixpoint rstrip_lines (lines : list str) : list str :=
  match lines with
  | [] => []
  | l :: ls => if forallb blank ls then [rstrip l] else l :: rstrip_lines ls
  end.

Fixpoint lstrip_lines (lines : list str) : list str :=
  match lines with
  | [] => [[]]
  | l :: ls => if blank l then lstrip_lines ls else lstrip l :: ls
  end.

(** Truth value of a [str] ([if line]): non-empty. *)
Definition truthy (s : str) : bool :=
  match s with [] => false | _ :: _ => true end.

(** [needle in hay]: [needle] occurs in [hay] as a contiguous run. *)
Fixpoint starts_with (p s : str) : bool :=
  match p, s with
  | [], _ => true
  | x :: p', y :: s' => N.eqb x y && starts_with p' s'
  | _ :: _, [] => false
  end.

Fixpoint contains (needle hay : str) : bool :=
  starts_with needle hay
  || match hay with
     | [] => false
     | _ :: t => contains needle t
     end.

Definition occurs_in (needle hay : str) : Prop :=
  exists pre post, hay = pre ++ needle ++ post.

(** [str(n)] for an [int]. *)
Fixpoint digits (d : Decimal.uint) : str :=
  match d with
  | Decimal.Nil => []
  | Decimal.D0 d => 48%N :: digits d
  | Decimal.D1 d => 49%N :: digits d
  | Decimal.D2 d => 50%N :: digits d
  | Decimal.D3 d => 51%N :: digits d
  | Decimal.D4 d => 52%N :: digits d
  | Decimal.D5 d => 53%N :: digits d
  | Decimal.D6 d => 54%N :: digits d
  | Decimal.D7 d => 55%N :: digits d
  | Decimal.D8 d => 56%N :: digits d
  | Decimal.D9 d => 57%N :: digits d
  end.

Definition of_N (n : N) : str := digits (N.to_uint n).

Definition of_Z (z : Z) : str :=
  match z with
  | Zneg p => 45%N :: of_N (Npos p)
  | _ => of_N (Z.to_N z)
  end.

(** [str(n).zfill(w)]-style padding used by [strftime]'s numeric fields. *)
Definition pad (w : nat) (s : str) : str :=
  repeat 48%N (w - length s) ++ s.

End Str.

Import Str.

(** ** Python values and JSON documents *)

Module Json.

(** The Python values of this program: what [json.loads] builds, and the
    dicts and strings the module itself makes.  A [float] keeps the text it
    was read from ([float(text)]): no claim depends on its binary value.  A
    [dict] keeps its keys in insertion order. *)
Inductive json : Type :=
| JNull
| JBool (b : bool)
| JInt (z : Z)
| JFloat (text : str)
| JStr (s : str)
| JArr (items : list json)
| JObj (members : list (str * json)).

(** [d.get(k)] and [d[k] = v] on an insertion-ordered dict. *)
Fixpoint dict_get {V : Type} (d : list (str * V)) (k : str) : option V :=
  match d with
  | [] => None
  | (k', v) :: d' => if Str.eqb k' k then Some v else dict_get d' k
  end.

Fixpoint dict_set {V : Type} (d : list (str * V)) (k : str) (v : V)
  : list (str * V) :=
  match d with
  | [] => [(k, v)]
  | (k', v') :: d' =>
      if Str.eqb k' k then (k', v) :: d' else (k', v') :: dict_set d' k v
  end.

(** [dict(pairs)]: the pairs are stored one after the other. *)
Definition dict_of_pairs {V : Type} (pairs : list (str * V))
  : list (str * V) :=
  fold_left (fun d kv => dict_set d (fst kv) (snd kv)) pairs [].

Definition keys {V : Type} (d : list (str * V)) : list str := map fst d.

(** *** The decoder ([json.decoder], [json.scanner])

    A scan either yields a value and the text left after it, or stops at a
    place of the document with the message of the [JSONDecodeError] to be
    raised there.  The place is kept as the text from there on. *)
Inductive scan (A : Type) : Type :=
| Scanned (a : A) (rest : str)
| Stop (msg : str) (at_ : str)
| TooDeep.
Arguments Scanned {A} a rest.
Arguments Stop {A} msg at_.
Arguments TooDeep {A}.

Definition is_ws (c : char) : bool :=
  ((c =? 32) || (c =? 9) || (c =? 10) || (c =? 13))%N.

(** [WHITESPACE.match(s, idx).end()] *)
Fixpoint skip_ws (s : str) : str :=
  match s with
  | c :: t => if is_ws c then skip_ws t else s
  | [] => []
  end.

Definition is_digit (c : char) : bool := ((48 <=? c) && (c <=? 57))%N.

Definition hex_value (c : char) : option N :=
  if ((48 <=? c) && (c <=? 57))%N then Some (c - 48)%N
  else if ((97 <=? c) && (c <=? 102))%N then Some (c - 87)%N
  else if ((65 <=? c) && (c <=? 70))%N then Some (c - 55)%N
  else None.

Definition hex4 (a b c d : char) : option N :=
  match hex_value a, hex_value b, hex_value c, hex_value d with
  | Some x, Some y, Some z, Some w =>
      Some (((x * 16 + y) * 16 + z) * 16 + w)%N
  | _, _, _, _ => None
  end.

(** The table [BACKSLASH] of one-letter escapes. *)
Definition backslash (c : char) : option char :=
  if (c =? 34)%N then Some 34%N
  else if (c =? 92)%N then Some 92%N
  else if (c =? 47)%N then Some 47%N
  else if (c =? 98)%N then Some 8%N
  else if (c =? 102)%N then Some 12%N
  else if (c =? 110)%N then Some 10%N
  else if (c =? 114)%N then Some 13%N
  else if (c =? 116)%N then Some 9%N
  else None.

Definition is_high_surrogate (u : N) : bool :=
  ((55296 <=? u) && (u <=? 56319))%N.
Definition is_low_surrogate (u : N) : bool :=
  ((56320 <=? u) && (u <=? 57343))%N.
Definition join_surrogates (u u2 : N) : N :=
  (65536 + (N.lor (N.shiftl (u - 55296) 10) (u2 - 56320)))%N.

Definition unterminated : str := lit "Unterminated string starting at".
Definition invalid_control : str := lit "Invalid control character at".
Definition invalid_escape : str := lit "Invalid \escape".
Definition invalid_uXXXX : str := lit "Invalid \uXXXX escape".
Definition expecting_value : str := lit "Expecting value".
Definition expecting_name : str :=
  lit "Expecting property name enclosed in double quotes".
Definition expecting_colon : str := lit "Expecting ':' delimiter".
Definition expecting_comma : str := lit "Expecting ',' delimiter".
Definition extra_data : str := lit "Extra data".
Definition unexpected_bom : str :=
  lit "Unexpected UTF-8 BOM (decode using utf-8-sig)".

Definition cons_char (c : char) (r : scan str) : scan str :=
  match r with
  | Scanned s rest => Scanned (c :: s) rest
  | Stop msg at_ => Stop msg at_
  | TooDeep => TooDeep
  end.

(** [scanstring(s, end, strict=True)]: [s] is the text after the opening
    quote and [begin] the text from that quote on. *)
Fixpoint scanstring (begin s : str) : scan str :=
  match s with
  | [] => Stop unterminated begin
  | c :: t =>
      if (c =? 34)%N then Scanned [] t
      else if (c =? 92)%N then
        match t with
        | [] => Stop unterminated begin
        | e :: t1 =>
            if (e =? 117)%N then
              match t1 with
              | a :: b :: c1 :: d :: ((_ :: _) as t2) =>
                  match hex4 a b c1 d with
                  | None => Stop invalid_uXXXX t
                  | Some u =>
                      match t2 with
                      | b2 :: ((u2 :: a2 :: b3 :: c2 :: d2 :: ((_ :: _) as t3))
                               as from_u) =>
                          if is_high_surrogate u && (b2 =? 92)%N
                             && (u2 =? 117)%N
                          then
                            match hex4 a2 b3 c2 d2 with
                            | None => Stop invalid_uXXXX from_u
                            | Some v =>
                                if is_low_surrogate v
                                then cons_char (join_surrogates u v)
                                       (scanstring begin t3)
                                else cons_char u (scanstring begin t2)
                            end
                          else cons_char u (scanstring begin t2)
                      | _ => cons_char u (scanstring begin t2)
                      end
                  end
              | _ => Stop invalid_uXXXX t
              end
            else
              match backslash e with
              | Some x => cons_char x (scanstring begin t1)
              | None => Stop invalid_escape s
              end
        end
      else if (c <=? 31)%N then Stop invalid_control s
      else cons_char c (scanstring begin t)
  end.

(** One round of the loop of [scanstring], on its own: the closing quote
    is reached, or a character is appended and the scan goes on, or the scan
    stops.  [scanstring_step] below relates the two. *)
Inductive string_round : Type :=
| Closed (rest : str)
| Appended (c : char) (rest : str)
| Failed (msg : str) (at_ : str)
| Open.

Definition string_step (s : str) : string_round :=
  match s with
  | [] => Open
  | c :: t =>
      if (c =? 34)%N then Closed t
      else if (c =? 92)%N then
        match t with
        | [] => Open
        | e :: t1 =>
            if (e =? 117)%N then
              match t1 with
              | a :: b :: c1 :: d :: ((_ :: _) as t2) =>
                  match hex4 a b c1 d with
                  | None => Failed invalid_uXXXX t
                  | Some u =>
                      match t2 with
                      | b2 :: ((u2 :: a2 :: b3 :: c2 :: d2 :: ((_ :: _) as t3))
                               as from_u) =>
                          if is_high_surrogate u && (b2 =? 92)%N
                             && (u2 =? 117)%N
                          then
                            match hex4 a2 b3 c2 d2 with
                            | None => Failed invalid_uXXXX from_u
                            | Some v =>
                                if is_low_surrogate v
                                then Appended (join_surrogates u v) t3
                                else Appended u t2
                            end
                          else Appended u t2
                      | _ => Appended u t2
                      end
                  end
              | _ => Failed invalid_uXXXX t
              end
            else
              match backslash e with
              | Some x => Appended x t1
              | None => Failed invalid_escape s
              end
        end
      else if (c <=? 31)%N then Failed invalid_control s
      else Appended c t
  end.

(** The text [w] put back after what a scan left. *)
Definition rest_app {A : Type} (w : str) (r : scan A) : scan A :=
  match r with
  | Scanned a rest => Scanned a (rest ++ w)
  | Stop msg at_ => Stop msg (at_ ++ w)
  | TooDeep => TooDeep
  end.

(** [NUMBER_RE] over ASCII digits, as the scanner matches it: an optional
    minus sign and an integer part (group 1), an optional fraction (group 2)
    and an optional exponent (group 3).  [span_digits] is a run of digits. *)
Fixpoint span_digits (s : str) : str * str :=
  match s with
  | c :: t =>
      if is_digit c then let (d, r) := span_digits t in (c :: d, r)
      else ([], s)
  | [] => ([], [])
  end.

(** Group 1 without its sign: a lone 0, or a digit 1-9 and more digits. *)
Definition match_integer (s : str) : option (str * str) :=
  match s with
  | c :: t =>
      if (c =? 48)%N then Some ([c], t)
      else if is_digit c then
        let (d, r) := span_digits t in Some (c :: d, r)
      else None
  | [] => None
  end.

(** Group 2: a dot and at least one digit; the empty text when it does
    not match. *)
Definition match_frac (s : str) : str * str :=
  match s with
  | dot :: c :: t =>
      if (dot =? 46)%N && is_digit c then
        let (d, r) := span_digits t in (dot :: c :: d, r)
      else ([], s)
  | _ => ([], s)
  end.

(** Group 3: e or E, an optional sign, at least one digit. *)
Definition match_exp (s : str) : str * str :=
  match s with
  | e :: t =>
      if (e =? 101)%N || (e =? 69)%N then
        match t with
        | c :: t1 =>
            if (c =? 45)%N || (c =? 43)%N then
              match t1 with
              | c1 :: t2 =>
                  if is_digit c1 then
                    let (d, r) := span_digits t2 in (e :: c :: c1 :: d, r)
                  else ([], s)
              | [] => ([], s)
              end
            else if is_digit c then
              let (d, r) := span_digits t1 in (e :: c :: d, r)
            else ([], s)
        | [] => ([], s)
        end
      else ([], s)
  | [] => ([], s)
  end.

(** [int(text)] for a run of ASCII digits.  (The limit of the interpreter
    on the length of such a run, 4300 digits by default, beyond which [int]
    raises a [ValueError], is not modelled.) *)
Definition int_of_digits (d : str) : Z :=
  fold_left (fun acc c => (acc * 10 + (Z.of_N c - 48))%Z) d 0%Z.

(** The optional minus sign of group 1. *)
Definition match_sign (s : str) : bool * str :=
  match s with
  | c :: t => if (c =? 45)%N then (true, t) else (false, s)
  | [] => (false, s)
  end.

(** [match_number(string, idx)] followed by [parse_int] or [parse_float]. *)
Definition match_number (s : str) : option (json * str) :=
  let (neg, s1) := match_sign s in
  match match_integer s1 with
  | None => None
  | Some (integer, r1) =>
      let (frac, r2) := match_frac r1 in
      let (exp, r3) := match_exp r2 in
      let sign := if neg then [45%N] else [] in
      match frac, exp with
      | [], [] =>
          Some (JInt (if neg then - int_of_digits integer
                      else int_of_digits integer)%Z, r3)
      | _, _ => Some (JFloat (sign ++ integer ++ frac ++ exp), r3)
      end
  end.

(** [string[idx:idx + len(word)] == word], and the text after the word. *)
Fixpoint after_word (word s : str) : option str :=
  match word, s with
  | [], _ => Some s
  | x :: word', y :: s' => if (x =? y)%N then after_word word' s' else None
  | _ :: _, [] => None
  end.

Definition cons_item {A : Type} (a : A) (r : scan (list A)) : scan (list A) :=
  match r with
  | Scanned l rest => Scanned (a :: l) rest
  | Stop msg at_ => Stop msg at_
  | TooDeep => TooDeep
  end.

(** The branches of [_scan_once] that read a value of one token after the
    string, object and array branches: the literals, then a number, then the
    constants. *)
Definition scan_atom (s : str) : scan json :=
  match after_word (lit "null") s, after_word (lit "true") s,
        after_word (lit "false") s with
  | Some rest, _, _ => Scanned JNull rest
  | _, Some rest, _ => Scanned (JBool true) rest
  | _, _, Some rest => Scanned (JBool false) rest
  | None, None, None =>
      match match_number s with
      | Some (v, rest) => Scanned v rest
      | None =>
          match after_word (lit "NaN") s, after_word (lit "Infinity") s,
                after_word (lit "-Infinity") s with
          | Some rest, _, _ => Scanned (JFloat (lit "NaN")) rest
          | _, Some rest, _ => Scanned (JFloat (lit "Infinity")) rest
          | _, _, Some rest => Scanned (JFloat (lit "-Infinity")) rest
          | None, None, None => Stop expecting_value s
          end
      end
  end.

Definition scan_map {A B : Type} (f : A -> B) (r : scan A) : scan B :=
  match r with
  | Scanned a rest => Scanned (f a) rest
  | Stop msg at_ => Stop msg at_
  | TooDeep => TooDeep
  end.

(** [_scan_once], [JSONArray] and [JSONObject].  The three call each other;
    [fuel] bounds the calls still allowed ([json_loads] gives enough of it
    for any document, see [scan_once_fuel]). *)
Fixpoint scan_once (fuel : nat) (s : str) {struct fuel} : scan json :=
  match fuel with
  | O => TooDeep
  | S fuel =>
      match s with
      | [] => Stop expecting_value s
      | c :: t =>
          if (c =? 34)%N then scan_map JStr (scanstring s t)
          else if (c =? 123)%N then
            match skip_ws t with
            | (c1 :: t1) as s1 =>
                if (c1 =? 125)%N then Scanned (JObj []) t1
                else if (c1 =? 34)%N then
                  scan_map (fun pairs => JObj (dict_of_pairs pairs))
                           (object_items fuel s1 t1)
                else Stop expecting_name s1
            | [] => Stop expecting_name []
            end
          else if (c =? 91)%N then
            match skip_ws t with
            | (c1 :: t1) as s1 =>
                if (c1 =? 93)%N then Scanned (JArr []) t1
                else scan_map JArr (array_items fuel s1)
            | [] => Stop expecting_value []
            end
          else scan_atom s
      end
  end

with array_items (fuel : nat) (s : str) {struct fuel} : scan (list json) :=
  match fuel with
  | O => TooDeep
  | S fuel =>
      match scan_once fuel s with
      | Scanned v r =>
          match skip_ws r with
          | (c :: t) as r1 =>
              if (c =? 93)%N then Scanned [v] t
              else if (c =? 44)%N then
                cons_item v (array_items fuel (skip_ws t))
              else Stop expecting_comma r1
          | [] => Stop expecting_comma []
          end
      | Stop msg at_ => Stop msg at_
      | TooDeep => TooDeep
      end
  end

with object_items (fuel : nat) (begin s : str) {struct fuel}
  : scan (list (str * json)) :=
  match fuel with
  | O => TooDeep
  | S fuel =>
      match scanstring begin s with
      | Scanned key r =>
          match skip_ws r with
          | (c :: t) as r1 =>
              if (c =? 58)%N then
                match scan_once fuel (skip_ws t) with
                | Scanned v r2 =>
                    match skip_ws r2 with
                    | (c2 :: t2) as r3 =>
                        if (c2 =? 125)%N then Scanned [(key, v)] t2
                        else if (c2 =? 44)%N then
                          match skip_ws t2 with
                          | (c3 :: t3) as r4 =>
                              if (c3 =? 34)%N then
                                cons_item (key, v) (object_items fuel r4 t3)
                              else Stop expecting_name r4
                          | [] => Stop expecting_name []
                          end
                        else Stop expecting_comma r3
                    | [] => Stop expecting_comma []
                    end
                | Stop msg at_ => Stop msg at_
                | TooDeep => TooDeep
                end
              else Stop expecting_colon r1
          | [] => Stop expecting_colon []
          end
      | Stop msg at_ => Stop msg at_
      | TooDeep => TooDeep
      end
  end.

(** The exceptions this program can see.  [JSONDecodeError] is a subclass
    of [ValueError]; [RecursionError] and the warehouse's errors are not. *)
Inductive exn : Type :=
| ValueError (arg : json)
| JSONDecodeError (msg doc : str) (pos : nat)
| RecursionError
| LoadError (what : str).

Inductive result (A : Type) : Type :=
| Ok (a : A)
| Raise (e : exn).
Arguments Ok {A} a.
Arguments Raise {A} e.

(** [JSONDecoder.decode(s)]: a value between optional whitespace, and
    nothing else.  The recursion limit of the interpreter is not part of
    this model: on a document nested deeper than the limit allows CPython
    raises [RecursionError], where the scan below always has the fuel it
    needs.  What the handler does with an exception is therefore stated
    for any exception a fetch raises, by its class. *)
Definition decode (s : str) : result json :=
  let pos (at_ : str) := (length s - length at_)%nat in
  match scan_once (2 * length s + 2) (skip_ws s) with
  | Scanned v rest =>
      match skip_ws rest with
      | [] => Ok v
      | (_ :: _) as r => Raise (JSONDecodeError extra_data s (pos r))
      end
  | Stop msg at_ => Raise (JSONDecodeError msg s (pos at_))
  | TooDeep => Raise RecursionError
  end.

(** [json.loads(s)] for a [str]: the BOM check, then [decode]. *)
Definition json_loads (s : str) : result json :=
  if starts_with [65279%N] s
  then Raise (JSONDecodeError unexpected_bom s 0)
  else decode s.

(** [JSONDecodeError.__init__]: the text that becomes [args[0]]. *)
Definition count_nl (s : str) : nat :=
  length (filter (fun c => (c =? 10)%N) s).

Fixpoint after_last_nl (s : str) : str :=
  match s with
  | [] => []
  | c :: t =>
      if existsb (fun c => (c =? 10)%N) s then after_last_nl t else s
  end.

Definition errmsg (msg doc : str) (pos : nat) : str :=
  let before := firstn pos doc in
  let lineno := S (count_nl before) in
  let colno := S (length (after_last_nl before)) in
  msg ++ lit ": line " ++ of_N (N.of_nat lineno)
      ++ lit " column " ++ of_N (N.of_nat colno)
      ++ lit " (char " ++ of_N (N.of_nat pos) ++ lit ")".

(** [e.args[0]] of a caught [ValueError]. *)
Definition args0 (e : exn) : json :=
  match e with
  | ValueError arg => arg
  | JSONDecodeError msg doc pos => JStr (errmsg msg doc pos)
  | RecursionError => JNull
  | LoadError what => JStr what
  end.

(** [except ValueError] catches the class and its subclasses. *)
Definition is_ValueError (e : exn) : bool :=
  match e with
  | ValueError _ | JSONDecodeError _ _ _ => true
  | RecursionError | LoadError _ => false
  end.

End Json.

Import Json.

(** ** Lines of an NDJSON body *)

(** A line of an NDJSON body: empty, or a JSON document. *)
Definition json_line (line : str) : Prop :=
  line = [] \/ exists v, json_loads line = Ok v.

(** A line [json.loads] rejects however the whitespace around it is cut,
    and that is not whitespace only. *)
Definition malformed (line : str) : Prop :=
  blank line = false /\ forall v, json_loads (strip line) <> Ok v.

(** A line the list comprehension hands to [json.loads] (it is not empty)
    and that [json.loads] does not accept. *)
Definition rejected (line : str) : Prop :=
  truthy line = true /\ forall v, json_loads line <> Ok v.

(** A body with CRLF line ends: each document followed by [\r\n]. *)
Definition crlf_body (docs : list str) : str :=
  concat (map (fun d => d ++ [13; 10]%N) docs).

(** ** Naive datetimes ([datetime.datetime]) *)

Module Clock.

#[local] Open Scope Z_scope.

(** A naive [datetime] as the number of microseconds since
    0001-01-01T00:00:00, and a [timedelta] as a number of microseconds.
    Comparison and [datetime + timedelta] are then those of [Z].  (The clock
    of the handler is far from [datetime.min] and [datetime.max], so the
    [OverflowError] of out-of-range arithmetic does not arise.) *)
Definition datetime := Z.
Definition timedelta := Z.

Definition microseconds_per_day : Z := 86400000000.

(** [timedelta(days=n)] *)
Definition timedelta_days (n : Z) : timedelta := n * microseconds_per_day.

Definition days_in_month (month : Z) : Z :=
  nth (Z.to_nat month) [-1; 31; 28; 31; 30; 31; 30; 31; 31; 30; 31; 30; 31] 0.

Definition days_before_month (month : Z) : Z :=
  nth (Z.to_nat month)
      [-1; 0; 31; 59; 90; 120; 151; 181; 212; 243; 273; 304; 334] 0.

(** [datetime._ord2ymd]: the proleptic Gregorian date of an ordinal,
    the ordinal of 0001-01-01 being 1. *)
Definition ord2ymd (ordinal : Z) : Z * Z * Z :=
  let n := ordinal - 1 in
  let n400 := n / 146097 in
  let n := n mod 146097 in
  let n100 := n / 36524 in
  let n := n mod 36524 in
  let n4 := n / 1461 in
  let n := n mod 1461 in
  let n1 := n / 365 in
  let n := n mod 365 in
  let year := n400 * 400 + 1 + n100 * 100 + n4 * 4 + n1 in
  if (n1 =? 4) || (n100 =? 4) then (year - 1, 12, 31)
  else
    let leapyear := (n1 =? 3) && (negb (n4 =? 24) || (n100 =? 3)) in
    let month := Z.shiftr (n + 50) 5 in
    let preceding :=
      days_before_month month
      + (if (2 <? month) && leapyear then 1 else 0) in
    if n <? preceding then
      let month := month - 1 in
      let preceding :=
        preceding
        - (days_in_month month
           + (if (month =? 2) && leapyear then 1 else 0)) in
      (year, month, n - preceding + 1)
    else (year, month, n - preceding + 1).

Definition field (width : nat) (v : Z) : str := pad width (of_Z v).

(** [t.strftime("%Y-%m-%dT%H:%M:%S.%f")] (for years of four digits). *)
Definition strftime (t : datetime) : str :=
  let day := t / microseconds_per_day in
  let us := t mod microseconds_per_day in
  let '(year, month, dom) := ord2ymd (day + 1) in
  let second := us / 1000000 in
  field 4 year ++ lit "-" ++ field 2 month ++ lit "-" ++ field 2 dom
    ++ lit "T" ++ field 2 (second / 3600)
    ++ lit ":" ++ field 2 ((second / 60) mod 60)
    ++ lit ":" ++ field 2 (second mod 60)
    ++ lit "." ++ field 6 (us mod 1000000).

(** [s[:-3]] *)
Definition drop_last3 (s : str) : str := firstn (length s - 3)%nat s.

(** [t.strftime("%Y-%m-%dT%H:%M:%S.%f")[:-3] + "Z"] *)
Definition iso_millis (t : datetime) : str :=
  drop_last3 (strftime t) ++ lit "Z".

(** The three decimal digits of a number below 1000. *)
Definition three_digits (b : N) : str :=
  [48 + b / 100; 48 + (b / 10) mod 10; 48 + b mod 10]%N.

End Clock.

Import Clock.

(** ** The fragment of pandas the module uses *)

Module Pandas.

(** One cell of a frame: missing ([NaN]), a Python object as read from the
    feed, or what [to_datetime] made of it.  Dtype inference (an integer
    column with a missing cell turning to float64, say) is not modelled: a
    cell keeps the value it was built from. *)
Inductive cell : Type :=
| NaN
| Obj (v : json)
| Timestamp (t : datetime)
| NaT.

(** A frame: its row labels and its columns in order, each with one cell
    per row.  Labels are integers; every frame of this program carries a
    [RangeIndex]. *)
Record DataFrame : Type := {
  index : list nat;
  columns : list (str * list cell)
}.

(** [pd.DataFrame()] *)
Definition empty_frame : DataFrame := {| index := []; columns := [] |}.

(** [len(df)] *)
Definition len (df : DataFrame) : nat := length (index df).

(** [df.empty]: some axis has length 0. *)
Definition empty (df : DataFrame) : bool :=
  match index df, columns df with
  | _ :: _, _ :: _ => false
  | _, _ => true
  end.

Definition column_names (df : DataFrame) : list str := map fst (columns df).

(** [col in df.columns] *)
Definition has_column (df : DataFrame) (col : str) : bool :=
  existsb (Str.eqb col) (column_names df).

(** [df[col]] for a label carried by one column: its cells. *)
Definition get_column (df : DataFrame) (col : str) : list cell :=
  match dict_get (columns df) col with
  | Some cells => cells
  | None => []
  end.

(** [df[col] = series] for an existing column and a series on the same
    index: the cells are replaced in place. *)
Definition set_column (df : DataFrame) (col : str) (cells : list cell)
  : DataFrame :=
  {| index := index df;
     columns := map (fun c => if Str.eqb (fst c) col then (fst c, cells) else c)
                    (columns df) |}.

(** [df.drop(columns=[col])] *)
Definition drop (df : DataFrame) (col : str) : DataFrame :=
  {| index := index df;
     columns := filter (fun c => negb (Str.eqb (fst c) col)) (columns df) |}.

(** The keys of a list of dicts, each once, in the order they are first
    seen: the columns of [DataFrame(list_of_dicts)]. *)
Definition add_key (seen : list str) (k : str) : list str :=
  if existsb (Str.eqb k) seen then seen else seen ++ [k].

Definition union_keys (rows : list (list (str * json))) : list str :=
  fold_left (fun seen row => fold_left add_key (keys row) seen) rows [].

Definition cell_of (row : list (str * json)) (k : str) : cell :=
  match dict_get row k with
  | Some v => Obj v
  | None => NaN
  end.

(** [DataFrame(rows, index=idx)] for a list of dicts. *)
Definition frame_of_dicts (idx : list nat) (rows : list (list (str * json)))
  : DataFrame :=
  {| index := idx;
     columns := map (fun k => (k, map (fun row => cell_of row k) rows))
                    (union_keys rows) |}.

Fixpoint as_dicts (records : list json) : option (list (list (str * json))) :=
  match records with
  | [] => Some []
  | JObj d :: rest =>
      match as_dicts rest with
      | Some ds => Some (d :: ds)
      | None => None
      end
  | _ :: _ => None
  end.

(** [pd.DataFrame(records)] for a list of the feed's records, on
    [RangeIndex(len(records))].  Records that are not mappings are outside
    this model ([None]). *)
Definition DataFrame_of_records (records : list json) : option DataFrame :=
  match as_dicts records with
  | Some rows => Some (frame_of_dicts (seq 0 (length rows)) rows)
  | None => None
  end.

(** [_normalise_json]: the assignments [normalized_dict[key] = value] it
    performs, in order.  [new_key] is the key of a member below
    [key_string], the separator being a dot. *)
Definition new_key (key_string key : str) : str :=
  match key_string with
  | [] => key
  | _ :: _ => key_string ++ lit "." ++ key
  end.

Fixpoint assignments (key_string : str) (data : json) : list (str * json) :=
  match data with
  | JObj d =>
      (fix members (d : list (str * json)) : list (str * json) :=
         match d with
         | [] => []
         | (k, v) :: d' => assignments (new_key key_string k) v ++ members d'
         end) d
  | _ => [(key_string, data)]
  end.

Definition is_dict (v : json) : bool :=
  match v with JObj _ => true | _ => false end.

(** [_normalise_json_ordered]: the members that are not dicts first, then
    the flattened ones ([{**top_dict_, **nested_dict_}]). *)
Definition normalise_json_ordered (data : list (str * json))
  : list (str * json) :=
  let top_dict := filter (fun kv => negb (is_dict (snd kv))) data in
  let nested_dict :=
    dict_of_pairs
      (assignments [] (JObj (filter (fun kv => is_dict (snd kv)) data))) in
  fold_left (fun d kv => dict_set d (fst kv) (snd kv)) nested_dict top_dict.

(** [_simple_json_normalize] on one element of the series: a dict is
    flattened, anything that is neither a dict nor a list gives the empty
    dict.  A list is outside this model ([None]). *)
Definition normalize_cell (c : cell) : option (list (str * json)) :=
  match c with
  | Obj (JObj d) => Some (normalise_json_ordered d)
  | Obj (JArr _) => None
  | _ => Some []
  end.

Fixpoint normalize_cells (cells : list cell)
  : option (list (list (str * json))) :=
  match cells with
  | [] => Some []
  | c :: rest =>
      match normalize_cell c, normalize_cells rest with
      | Some d, Some ds => Some (d :: ds)
      | _, _ => None
      end
  end.

(** [pd.json_normalize(series)]: one row per element, on the index of the
    series. *)
Definition json_normalize (idx : list nat) (series : list cell)
  : option DataFrame :=
  match normalize_cells series with
  | Some rows => Some (frame_of_dicts idx rows)
  | None => None
  end.

(** [df.columns = [f"{col}_{subcol}" for subcol in df.columns]] *)
Definition prefix_columns (col : str) (df : DataFrame) : DataFrame :=
  {| index := index df;
     columns := map (fun c => (col ++ lit "_" ++ fst c, snd c)) (columns df) |}.

(** [pd.concat([a, b], axis=1)]: the rows are matched by label.  The result
    is on the union of the two indexes; a frame has a missing cell on the
    labels it does not carry.  (Both operands of this program carry the
    same [RangeIndex], which is then also the index of the result.) *)
Fixpoint position (label : nat) (idx : list nat) : option nat :=
  match idx with
  | [] => None
  | l :: rest =>
      if Nat.eqb l label then Some 0%nat
      else option_map S (position label rest)
  end.

Definition at_label (idx : list nat) (cells : list cell) (label : nat) : cell :=
  match position label idx with
  | Some p => nth p cells NaN
  | None => NaN
  end.

Definition reindex (df : DataFrame) (idx : list nat)
  : list (str * list cell) :=
  map (fun c => (fst c, map (at_label (index df) (snd c)) idx)) (columns df).

Definition union_index (a b : list nat) : list nat :=
  a ++ filter (fun l => negb (existsb (Nat.eqb l) a)) b.

Definition concat_columns (a b : DataFrame) : DataFrame :=
  let idx := union_index (index a) (index b) in
  {| index := idx; columns := reindex a idx ++ reindex b idx |}.

End Pandas.

Import Pandas.

(** ** main.py *)

(** An outbound [requests.get] and what comes back. *)
Record Request : Type := {
  req_url : str;
  req_headers : list (str * str);
  req_params : list (str * json)
}.

Record Response : Type := {
  status_code : Z;
  url : str;
  text : str
}.

(** What an invocation does to the outside, in order: the requests sent,
    the lines printed, and the load jobs run.  [Transform] records that the
    handler called [transform] (which has no effect of its own), so that
    which stages ran can be read off the log. *)
Inductive event : Type :=
| Get (request : Request)
| Print (line : str)
| Transform (records : list json)
| LoadJob (df : DataFrame) (table_id : str).

(** What the caller of the handler gets: a reply with its JSON payload and
    status, an exception the handler does not catch, or a run that leaves
    the modelled fragment of pandas. *)
Inductive outcome : Type :=
| Reply (payload : json) (status : Z)
| Uncaught (e : exn)
| Unmodelled.

Definition date_cols : list str :=
  [lit "startDate"; lit "endDate"; lit "doneDate"].

Definition nested_cols : list str :=
  [lit "type"; lit "organization"; lit "person"; lit "user"; lit "company"].

Definition default_table_id : str :=
  lit "databaseparanaiba.adsim_dataset.activity".

Definition batch_size_days : Z := 1.

(** The top level of the module: the token is read from the environment
    ([os.environ.get("ADSIM_BEARER")]), and the import fails with a
    [ValueError] when the variable is unset or empty. *)
Definition token_not_found : str :=
  lit "Vari" ++ [225%N] ++ lit "vel de ambiente ADSIM_BEARER n" ++ [227%N]
    ++ lit "o encontrada!".

Definition import_module (environ : list (str * str)) : result str :=
  match dict_get environ (lit "ADSIM_BEARER") with
  | Some token =>
      if truthy token then Ok token
      else Raise (ValueError (JStr token_not_found))
  | None => Raise (ValueError (JStr token_not_found))
  end.

(** ** Sample runs

    Concrete environments and inputs, used after the properties to run the
    module. *)

Definition sample_token : str := lit "secret".

(** 2024-01-01T00:00:00 *)
Definition sample_now : datetime := 63839664000000000%Z.

Definition sample_to_datetime (series : list cell) (c : cell) : cell := NaT.

Definition sample_warehouse (df : DataFrame) (table_id : str) : result Z :=
  Ok (Z.of_nat (len df)).

(** A literal in which the apostrophe stands for the double quote. *)
Definition quoted (s : string) : str :=
  map (fun c => if (c =? 39)%N then 34%N else c) (lit s).

Definition sample_body : str :=
  quoted "{'id': 1, 'organization': {'id': 7, 'name': 'Acme'}}"
    ++ [10; 10]%N
    ++ quoted " {'id': 2, 'type': null} " ++ [10]%N.

Definition respond (status : Z) (body : str) (r : Request) : Response :=
  {| status_code := status; url := req_url r; text := body |}.

(** An API that answers every request alike. *)
Definition api_ok : Request -> Response := respond 200 sample_body.
Definition api_forbidden : Request -> Response := respond 403 (lit "Forbidden").
Definition api_garbled : Request -> Response := respond 200 (lit "@").
Definition api_blank : Request -> Response := respond 200 [10; 32; 9; 10]%N.

(** An API that answers the batch starting on 2023-10-05 (the third of the
    sample run) with [bad], and the others with the sample body. *)
Definition api_third (bad : Request -> Response) (r : Request) : Response :=
  match dict_get (req_params r) (lit "start") with
  | Some (JStr s) =>
      if Str.eqb s (lit "2023-10-05T00:00:00.000Z") then bad r else api_ok r
  | _ => api_ok r
  end.

Definition acme : json :=
  JObj [(lit "id", JInt 7); (lit "name", JStr (lit "Acme"))].

Definition sample_rows : list (list (str * json)) :=
  [ [(lit "id", JInt 1); (lit "organization", acme)];
    [(lit "id", JInt 2); (lit "subject", JStr (lit "call"))];
    [(lit "id", JInt 3);
     (lit "organization", JObj [(lit "id", JInt 9)]);
     (lit "startDate", JStr (lit "2024-01-01"))] ].

Definition sample_records : list json := map JObj sample_rows.

(** Further inputs of the sample runs: an environment; a body behind a
    byte order mark; a body with CRLF line ends, and one with an empty line
    in the middle of it, which is a lone carriage return once the body is
    split on newlines. *)
Definition sample_environ : list (str * str) :=
  [(lit "HOME", lit "/root"); (lit "ADSIM_BEARER", sample_token)].

Definition sample_docs : list str :=
  [quoted "{'id': 1}"; quoted "{'id': 2, 'type': null}"].

Definition api_bom : Request -> Response :=
  respond 200 (65279%N :: quoted "{'id': 1}").

Definition api_crlf : Request -> Response :=
  respond 200 (crlf_body sample_docs).

Definition api_gap : Request -> Response :=
  respond 200 (quoted "{'id': 1}" ++ [13; 10; 13; 10]%N
                 ++ quoted "{'id': 2}" ++ [13; 10]%N).

(** A body whose second line starts with U+001C (a file separator):
    whitespace for [str.strip], but not for the decoder. *)
Definition separator_body : str :=
  quoted "{'id': 1}" ++ [10; 28]%N ++ quoted "{'id': 2}" ++ [10]%N
    ++ quoted "{'id': 3}".

Definition api_separator : Request -> Response := respond 200 separator_body.

(** An API that has something for the batch starting on 2023-10-05 only
    (the third of the sample run), and the batches of such a run. *)
Definition api_third_only (answer : Request -> Response) (r : Request)
  : Response :=
  match dict_get (req_params r) (lit "start") with
  | Some (JStr s) =>
      if Str.eqb s (lit "2023-10-05T00:00:00.000Z") then answer r
      else api_blank r
  | _ => api_blank r
  end.

Definition third_only (batch : list json) : list (list json) :=
  map (fun k => if Nat.eqb k 2 then batch else []) (seq 0 90).

(** The records of the sample body and the frame they make. *)
Definition sample_batch_rows : list (list (str * json)) :=
  [ [(lit "id", JInt 1); (lit "organization", acme)];
    [(lit "id", JInt 2); (lit "type", JNull)] ].

Definition sample_batch : list json := map JObj sample_batch_rows.

Definition sample_frame : DataFrame :=
  {| index := [0; 1];
     columns :=
       [(lit "id", [Obj (JInt 1); Obj (JInt 2)]);
        (lit "organization_id", [Obj (JInt 7); NaN]);
        (lit "organization_name", [Obj (JStr (lit "Acme")); NaN])] |}.

(** Records in which [type] is a string or null, and records that have
    nothing else. *)
Definition typed_rows : list (list (str * json)) :=
  [ [(lit "id", JInt 1); (lit "type", JStr (lit "call"))];
    [(lit "id", JInt 2); (lit "type", JNull); (lit "organization", acme)] ].

Definition typed_records : list json := map JObj typed_rows.

Definition call_rows : list (list (str * json)) :=
  [ [(lit "type", JStr (lit "call"))];
    [(lit "user", JInt 7); (lit "type", JNull)] ].

Definition call_batch : list json := map JObj call_rows.

Definition api_calls : Request -> Response :=
  respond 200 (quoted "{'type': 'call'}" ++ [10%N]
                 ++ quoted "{'user': 7, 'type': null}").

(** A warehouse that refuses every load. *)
Definition warehouse_down (df : DataFrame) (table_id : str) : result Z :=
  Raise (ValueError (JStr (lit "schema mismatch"))).

Section Program.

(** The bearer token read from the environment at import time. *)
Variable ADSIM_BEARER : str.

(** The CRM API as this invocation sees it: the response [requests.get]
    returns.  (A call that raises instead of returning, on a connection
    error or a timeout, is not modelled.) *)
Variable requests_get : Request -> Response.

(** [pd.to_datetime(series, errors="coerce")], element by element: what
    becomes of a cell, given the series it stands in. *)
Variable to_datetime : list cell -> cell -> cell.

(** The warehouse: [client.load_table_from_dataframe(df, table_id)]
    followed by [job.result()]; the rows the finished job reports
    ([job.output_rows]), or the error it raises. *)
Variable load_table_from_dataframe : DataFrame -> str -> result Z.

Definition activity_request (start_iso end_iso : str) (limit : Z) : Request :=
  {| req_url := lit "https://api.adsim.co/crm-r/api/v2/activity";
     req_headers :=
       [(lit "accept", lit "application/x-ndjson");
        (lit "Authorization", lit "Bearer " ++ ADSIM_BEARER)];
     req_params :=
       [(lit "start", JStr start_iso);
        (lit "end", JStr end_iso);
        (lit "ignoreDeleted", JStr (lit "true"));
        (lit "limit", JInt limit)] |}.

(** The dict given to [ValueError] on a status other than 200. *)
Definition error_payload (response : Response) : json :=
  JObj [(lit "status", JStr (lit "error"));
        (lit "message",
          JStr (of_Z (status_code response)
                  ++ lit " Client Error for URL: " ++ url response));
        (lit "response", JStr (text response))].

(** [[json.loads(line) for line in lines if line]]: the first line that
    does not parse raises, and no list is built. *)
Fixpoint loads_lines (lines : list str) : result (list json) :=
  match lines with
  | [] => Ok []
  | line :: rest =>
      if truthy line then
        match json_loads line with
        | Ok record =>
            match loads_lines rest with
            | Ok records => Ok (record :: records)
            | Raise e => Raise e
            end
        | Raise e => Raise e
        end
      else loads_lines rest
  end.

Definition fetch_activities (start_iso end_iso : str) (limit : Z)
  (log : list event) : result (list json) * list event :=
  let request := activity_request start_iso end_iso limit in
  let response := requests_get request in
  let log := log ++ [Get request] in
  if negb (status_code response =? 200)%Z then
    (Raise (ValueError (error_payload response)), log)
  else
    (loads_lines (split 10%N (strip (text response))), log).

(** The first loop of [transform]: [df[col] = pd.to_datetime(df[col], ...)]
    for a date column that is there. *)
Definition convert_date (df : DataFrame) (col : str) : DataFrame :=
  if has_column df col then
    let series := get_column df col in
    set_column df col (map (to_datetime series) series)
  else df.

(** The body of the second loop: a nested column that is there is replaced
    by the columns of its normalised cells. *)
Definition expand (df : DataFrame) (col : str) : option DataFrame :=
  if has_column df col then
    match json_normalize (index df) (get_column df col) with
    | Some nested_df =>
        Some (concat_columns (drop df col) (prefix_columns col nested_df))
    | None => None
    end
  else Some df.

Definition expand_all (cols : list str) (df : DataFrame) : option DataFrame :=
  fold_left
    (fun acc col => match acc with Some df => expand df col | None => None end)
    cols (Some df).

Definition transform (records : list json) : option DataFrame :=
  match records with
  | [] => Some empty_frame
  | _ :: _ =>
      match DataFrame_of_records records with
      | Some df => expand_all nested_cols (fold_left convert_date date_cols df)
      | None => None
      end
  end.

Definition no_data : str := lit "Sem dados para carregar".

Definition load_to_bigquery (df : DataFrame) (table_id : str)
  (log : list event) : result str * list event :=
  if empty df then (Ok no_data, log)
  else
    let log := log ++ [LoadJob df table_id] in
    match load_table_from_dataframe df table_id with
    | Ok output_rows =>
        (Ok (lit "Carregado " ++ of_Z output_rows
               ++ lit " linhas na tabela " ++ table_id), log)
    | Raise e => (Raise e, log)
    end.

(** The line printed after a batch. *)
Definition batch_line (start_iso end_iso : str) (n : nat) : str :=
  lit "Batch " ++ start_iso ++ [32; 8594; 32]%N ++ end_iso ++ lit ": "
    ++ of_N (N.of_nat n) ++ lit " registros".

(** The batches the [while] loop still has to run from [current_start]:
    the days left up to [end_date], a started day counting as one. *)
Definition batches_left (end_date current_start : datetime) : nat :=
  Z.to_nat ((end_date - current_start + microseconds_per_day - 1)
              / microseconds_per_day).

(** The [while] loop of the handler.  It ends with the records of all the
    batches, or with the reply of the [except] branch. *)
Equations? batch_loop (end_date current_start : datetime)
  (all_records : list json) (log : list event)
  : (outcome + list json) * list event
  by wf (batches_left end_date current_start) lt :=
  batch_loop end_date current_start all_records log
    with Z_lt_dec current_start end_date := {
    | right _ => (inr all_records, log)
    | left _
        with fetch_activities
               (iso_millis current_start)
               (iso_millis
                  (Z.min (current_start + timedelta_days batch_size_days)
                         end_date))
               100 log := {
        | (Ok batch_records, log1) =>
            batch_loop end_date
              (Z.min (current_start + timedelta_days batch_size_days) end_date)
              (all_records ++ batch_records)
              (log1 ++ [Print (batch_line
                          (iso_millis current_start)
                          (iso_millis
                             (Z.min (current_start
                                     + timedelta_days batch_size_days)
                                    end_date))
                          (length batch_records))])
        | (Raise e, log1) =>
            if is_ValueError e then (inl (Reply (args0 e) 500), log1)
            else (inl (Uncaught e), log1) } }.
Proof.
  unfold batches_left, timedelta_days, batch_size_days, microseconds_per_day.
  apply Z2Nat.inj_lt; try (apply Z.div_pos; lia).
  apply Z.div_lt_upper_bound; [lia |].
  pose proof (Z.mul_div_le (end_date - current_start + 86400000000 - 1)
                86400000000 ltac:(lia)).
  pose proof (Z.mod_pos_bound (end_date - current_start + 86400000000 - 1)
                86400000000 ltac:(lia)).
  pose proof (Z.div_mod (end_date - current_start + 86400000000 - 1)
                86400000000 ltac:(lia)).
  lia.
Qed.

Definition adsim_activity_etl (now : datetime) (log : list event)
  : outcome * list event :=
  let end_date := now in
  let start_date := (end_date - timedelta_days 90)%Z in
  match batch_loop end_date start_date [] log with
  | (inl reply, log) => (reply, log)
  | (inr all_records, log) =>
      let log := log ++ [Transform all_records] in
      match transform all_records with
      | None => (Unmodelled, log)
      | Some df =>
          match load_to_bigquery df default_table_id log with
          | (Ok load_result, log) =>
              (Reply (JObj [(lit "status", JStr (lit "success"));
                            (lit "records_loaded", JInt (Z.of_nat (len df)));
                            (lit "message", JStr load_result)]) 200, log)
          | (Raise e, log) => (Uncaught e, log)
          end
      end
  end.

(** *** Definitions the statements below use *)

(** What [fetch_activities] returns; its only effect is one request. *)
Definition fetch_result (start_iso end_iso : str) (limit : Z)
  : result (list json) :=
  fst (fetch_activities start_iso end_iso limit []).

(** The [k]-th day of the 90-day window that ends at [now], as the pair of
    its bounds, and the 90 of them in order. *)
Definition window (now : datetime) (k : nat) : datetime * datetime :=
  ((now - timedelta_days 90 + timedelta_days (Z.of_nat k))%Z,
   (now - timedelta_days 90 + timedelta_days (Z.of_nat (S k)))%Z).

Definition windows (now : datetime) : list (datetime * datetime) :=
  map (window now) (seq 0 90).

(** The request the handler sends for a window, and the fetch of a window. *)
Definition window_request (w : datetime * datetime) : Request :=
  activity_request (iso_millis (fst w)) (iso_millis (snd w)) 100.

Definition fetch_window (w : datetime * datetime) : result (list json) :=
  fetch_result (iso_millis (fst w)) (iso_millis (snd w)) 100.

(** The fetch of a window returns. *)
Definition fetched (w : datetime * datetime) : Prop :=
  exists batch_records, fetch_window w = Ok batch_records.

(** A member of a payload that is a dict. *)
Definition field (payload : json) (k : str) : option json :=
  match payload with
  | JObj d => dict_get d k
  | _ => None
  end.

(** The payload of a fetch error as the module builds it: a message with
    the status code and the URL in it, and the raw body beside. *)
Definition shows_http_error (payload : json) (status : Z) (url_ body : str)
  : Prop :=
  exists message,
    field payload (lit "message") = Some (JStr message)
    /\ occurs_in (of_Z status) message
    /\ occurs_in url_ message
    /\ field payload (lit "response") = Some (JStr body).

(** The texts of a payload (its strings and its keys), and a text that
    occurs somewhere in one of them. *)
Fixpoint strings_of (v : json) : list str :=
  match v with
  | JStr s => [s]
  | JArr items =>
      (fix each (l : list json) : list str :=
         match l with
         | [] => []
         | x :: l' => strings_of x ++ each l'
         end) items
  | JObj d =>
      (fix each (l : list (str * json)) : list str :=
         match l with
         | [] => []
         | (k, x) :: l' => k :: strings_of x ++ each l'
         end) d
  | _ => []
  end.

Definition mentions (payload : json) (s : str) : Prop :=
  exists t, In t (strings_of payload) /\ occurs_in s t.

(** A frame on [RangeIndex(n)] whose columns all have [n] cells. *)
Definition range_frame (n : nat) (df : DataFrame) : Prop :=
  index df = seq 0 n
  /\ Forall (fun c => length (snd c) = n) (columns df).

(** What [json_normalize] makes of the member [f] of a record: its
    flattened members when it is a mapping, nothing otherwise (also when
    the record has no member [f]). *)
Definition normalised (f : str) (row : list (str * json))
  : list (str * json) :=
  match dict_get row f with
  | Some (JObj d) => normalise_json_ordered d
  | _ => []
  end.

(** The cell of the expanded column [f_sub] that the record [row] alone
    accounts for, and the expanded columns of [f] over all the records. *)
Definition expanded_cell (f sub : str) (row : list (str * json)) : cell :=
  cell_of (normalised f row) sub.

Definition expanded_columns (f : str) (rows : list (list (str * json)))
  : list (str * list cell) :=
  map (fun sub => (f ++ lit "_" ++ sub, map (expanded_cell f sub) rows))
      (union_keys (map (normalised f) rows)).

(** The records this model of pandas covers: mappings, none of which has a
    list under a nested-object field. *)
Definition flat_rows (rows : list (list (str * json))) : Prop :=
  Forall (fun row => forall f l,
              In f nested_cols -> dict_get row f <> Some (JArr l)) rows.

Definition tabular (records : list json) (rows : list (list (str * json)))
  : Prop :=
  as_dicts records = Some rows /\ flat_rows rows.

(** The frame after the rounds of the second loop of [transform] for the
    fields [done], [base] being the columns before the loop: the columns of
    [base] but those fields, then the expanded columns of each of them. *)
Definition expanded_so_far (rows : list (list (str * json)))
  (base : list (str * list cell)) (done : list str) (df : DataFrame) : Prop :=
  range_frame (length rows) df
  /\ columns df
     = filter (fun c => negb (existsb (Str.eqb (fst c)) done)) base
         ++ flat_map (fun f => expanded_columns f rows) done.

Definition has_underscore (s : str) : bool := existsb (N.eqb 95) s.

(** The requests of a log, in order. *)
Definition requests_of (log : list event) : list Request :=
  flat_map (fun ev => match ev with Get r => [r] | _ => [] end) log.

Definition is_stage_call (ev : event) : bool :=
  match ev with
  | Transform _ | LoadJob _ _ => true
  | Get _ | Print _ => false
  end.

(** The loop, as a walk over a list of windows. *)
Fixpoint run_batches (ws : list (datetime * datetime))
  (all_records : list json) (log : list event)
  : (outcome + list json) * list event :=
  match ws with
  | [] => (inr all_records, log)
  | w :: ws' =>
      match fetch_activities (iso_millis (fst w)) (iso_millis (snd w)) 100 log
      with
      | (Ok batch_records, log1) =>
          run_batches ws' (all_records ++ batch_records)
            (log1 ++ [Print (batch_line (iso_millis (fst w))
                               (iso_millis (snd w)) (length batch_records))])
      | (Raise e, log1) =>
          if is_ValueError e then (inl (Reply (args0 e) 500), log1)
          else (inl (Uncaught e), log1)
      end
  end.

(** The days from [current_start] on, [n] of them. *)
Definition days_from (current_start : datetime) (n : nat)
  : list (datetime * datetime) :=
  map (fun k => ((current_start + timedelta_days (Z.of_nat k))%Z,
                 (current_start + timedelta_days (Z.of_nat (S k)))%Z))
      (seq 0 n).

(** *** Definitions the further properties use *)

(** The events of a batch that was fetched (its request, then the line
    printed for it), those of a run of batches, and the payload of the
    handler's last line. *)
Definition batch_events (w : datetime * datetime) (batch_records : list json)
  : list event :=
  [Get (window_request w);
   Print (batch_line (iso_millis (fst w)) (iso_millis (snd w))
            (length batch_records))].

Definition loop_events (ws : list (datetime * datetime))
  (batches : list (list json)) : list event :=
  flat_map (fun wb => batch_events (fst wb) (snd wb)) (combine ws batches).

Definition success_payload (records_loaded : nat) (message : str) : json :=
  JObj [(lit "status", JStr (lit "success"));
        (lit "records_loaded", JInt (Z.of_nat records_loaded));
        (lit "message", JStr message)].

(** The column of the key [k] as [DataFrame(records)] has it, and as it is
    after the first loop of [transform]. *)
Definition raw_column (rows : list (list (str * json))) (k : str)
  : list cell :=
  map (fun row => cell_of row k) rows.

Definition dated_column (rows : list (list (str * json))) (k : str)
  : list cell :=
  if existsb (Str.eqb k) date_cols
  then map (to_datetime (raw_column rows k)) (raw_column rows k)
  else raw_column rows k.

(** The keys of the records that are not nested-object fields, and the
    labels of the columns a nested-object field expands to. *)
Definition kept_keys (rows : list (list (str * json))) : list str :=
  filter (fun k => negb (existsb (Str.eqb k) nested_cols)) (union_keys rows).

Definition expanded_labels (f : str) (rows : list (list (str * json)))
  : list str :=
  map (fun sub => f ++ lit "_" ++ sub) (union_keys (map (normalised f) rows)).

(** A value that is neither a mapping nor a list. *)
Definition is_scalar (v : json) : bool :=
  match v with
  | JObj _ | JArr _ => false
  | _ => true
  end.

(** A cell that holds a mapping. *)
Definition holds_dict (c : cell) : bool :=
  match c with
  | Obj v => is_dict v
  | _ => false
  end.

(** * Properties *)

(** ** Python strings *)

Lemma eqb_eq a : forall b, Str.eqb a b = true <-> a = b.
Proof.
  induction a as [| x a IH]; intros [| y b]; cbn; try (split; congruence).
  rewrite andb_true_iff, N.eqb_eq, IH. split.
  - intros [-> ->]. reflexivity.
  - intros [= -> ->]. auto.
Qed.

Lemma eqb_refl a : Str.eqb a a = true.
Proof. apply eqb_eq. reflexivity. Qed.

Lemma eqb_neq a b : Str.eqb a b = false <-> a <> b.
Proof.
  rewrite <- eqb_eq. destruct (Str.eqb a b); split; congruence.
Qed.

Lemma is_space_cases c :
  is_space c = true ->
  In c [9; 10; 11; 12; 13; 28; 29; 30; 31; 32; 133; 160; 5760; 8192; 8193;
        8194; 8195; 8196; 8197; 8198; 8199; 8200; 8201; 8202; 8232; 8233;
        8239; 8287; 12288]%N.
Proof.
  unfold is_space.
  rewrite !orb_true_iff, !andb_true_iff, !N.leb_le, !N.eqb_eq.
  cbn [In]. lia.
Qed.

(** A property of characters that holds of each whitespace character. *)
Lemma is_space_ind (P : char -> Prop) :
  Forall P [9; 10; 11; 12; 13; 28; 29; 30; 31; 32; 133; 160; 5760; 8192; 8193;
        8194; 8195; 8196; 8197; 8198; 8199; 8200; 8201; 8202; 8232; 8233;
        8239; 8287; 12288]%N ->
  forall c, is_space c = true -> P c.
Proof.
  intros HP c Hc. rewrite Forall_forall in HP. apply HP, is_space_cases, Hc.
Qed.

Ltac spaces := apply is_space_ind; repeat constructor.

Lemma blank_cons x v :
  blank (x :: v) = true -> is_space x = true /\ blank v = true.
Proof. cbn [blank forallb]. apply andb_true_iff. Qed.

Lemma blank_cons_intro x v :
  is_space x = true -> blank v = true -> blank (x :: v) = true.
Proof. intros Hx Hv. cbn [blank forallb]. rewrite Hx. exact Hv. Qed.

Lemma is_ws_space : forall c, is_ws c = true -> is_space c = true.
Proof.
  intros c. unfold is_ws.
  rewrite !orb_true_iff, !N.eqb_eq. intros [[[-> | ->] | ->] | ->]; reflexivity.
Qed.

(** ** Stripping a text and its lines *)

Lemma rstrip_nil s : rstrip s = [] <-> blank s = true.
Proof.
  induction s as [| c t IH]; cbn [rstrip blank forallb]; [tauto |].
  fold (blank t). destruct (rstrip t) as [| x r].
  - destruct (is_space c); cbn [andb]; [tauto | split; discriminate].
  - split; [discriminate |]. rewrite andb_true_iff. intros [_ H].
    apply IH in H. discriminate.
Qed.

Lemma rstrip_cons c t :
  rstrip (c :: t) = if blank (c :: t) then []
                    else if blank t then [c] else c :: rstrip t.
Proof.
  cbn [rstrip blank forallb]. fold (blank t).
  pose proof (rstrip_nil t) as H.
  destruct (rstrip t) as [| x r], (blank t), (is_space c); cbn [andb];
    try reflexivity; intuition discriminate.
Qed.

Lemma lstrip_blank s : blank s = true -> lstrip s = [].
Proof.
  induction s as [| c t IH]; [reflexivity |]. intros H.
  apply blank_cons in H as [Hc Ht]. cbn [lstrip]. rewrite Hc. auto.
Qed.

Lemma blank_app a b : blank (a ++ b) = blank a && blank b.
Proof. apply forallb_app. Qed.

Lemma rstrip_split s : exists w, blank w = true /\ s = rstrip s ++ w.
Proof.
  induction s as [| c t (w & Hw & IH)]; [exists []; auto |].
  rewrite rstrip_cons. destruct (blank (c :: t)) eqn:E.
  - exists (c :: t). auto.
  - destruct (blank t) eqn:Et.
    + exists t. auto.
    + exists w. split; [exact Hw |]. cbn [app]. congruence.
Qed.

Lemma lstrip_split s : exists w, blank w = true /\ s = w ++ lstrip s.
Proof.
  induction s as [| c t (w & Hw & IH)]; [exists []; auto |].
  cbn [lstrip]. destruct (is_space c) eqn:Ec.
  - exists (c :: w). split; [apply blank_cons_intro; assumption |].
    cbn [app]. congruence.
  - exists []. auto.
Qed.

Lemma blank_rstrip s : blank (rstrip s) = blank s.
Proof.
  destruct (rstrip_split s) as (w & Hw & E).
  rewrite E at 2. rewrite blank_app, Hw, andb_true_r. reflexivity.
Qed.

Lemma blank_lstrip s : blank (lstrip s) = blank s.
Proof.
  destruct (lstrip_split s) as (w & Hw & E).
  rewrite E at 2. rewrite blank_app, Hw. reflexivity.
Qed.

Lemma rstrip_idem s : rstrip (rstrip s) = rstrip s.
Proof.
  induction s as [| c t IH]; [reflexivity |].
  rewrite rstrip_cons. destruct (blank (c :: t)) eqn:E; [reflexivity |].
  destruct (blank t) eqn:Et.
  - cbn [blank forallb andb] in E. fold (blank t) in E. rewrite Et in E.
    rewrite andb_true_r in E. cbn. rewrite E. reflexivity.
  - rewrite rstrip_cons, IH.
    cbn [blank forallb] in *. fold (blank t) (blank (rstrip t)) in *.
    rewrite blank_rstrip, Et, andb_false_r. reflexivity.
Qed.

Lemma strip_comm s : lstrip (rstrip s) = rstrip (lstrip s).
Proof.
  induction s as [| c t IH]; [reflexivity |].
  rewrite rstrip_cons. cbn [lstrip blank forallb]. fold (blank t).
  destruct (is_space c) eqn:Ec; cbn [andb].
  - destruct (blank t) eqn:Et.
    + rewrite (lstrip_blank t Et). reflexivity.
    + cbn [lstrip]. rewrite Ec. exact IH.
  - rewrite rstrip_cons. cbn [blank forallb]. fold (blank t). rewrite Ec.
    cbn [andb]. destruct (blank t); cbn [lstrip]; rewrite Ec; reflexivity.
Qed.

Lemma lstrip_idem s : lstrip (lstrip s) = lstrip s.
Proof.
  induction s as [| c t IH]; [reflexivity |].
  cbn [lstrip]. destruct (is_space c) eqn:Ec; [exact IH |].
  cbn [lstrip]. rewrite Ec. reflexivity.
Qed.

Lemma strip_rstrip s : strip (rstrip s) = strip s.
Proof. unfold strip. rewrite rstrip_idem. reflexivity. Qed.

Lemma strip_lstrip s : strip (lstrip s) = strip s.
Proof. unfold strip. rewrite <- strip_comm, lstrip_idem. reflexivity. Qed.

Lemma blank_strip s : blank (strip s) = blank s.
Proof. unfold strip. rewrite blank_lstrip, blank_rstrip. reflexivity. Qed.

Lemma split_not_nil sep s : split sep s <> [].
Proof.
  destruct s as [| c t]; cbn [split]; [discriminate |].
  destruct (c =? sep)%N; [discriminate |].
  destruct (split sep t); discriminate.
Qed.

Lemma split_cons sep c t :
  split sep (c :: t)
  = if (c =? sep)%N then [] :: split sep t
    else (c :: hd [] (split sep t)) :: tl (split sep t).
Proof.
  cbn [split]. destruct (c =? sep)%N; [reflexivity |].
  pose proof (split_not_nil sep t).
  destruct (split sep t); [contradiction | reflexivity].
Qed.

(** The lines of a text are blank exactly when the text is. *)
Lemma blank_lines s : forallb blank (split 10%N s) = blank s.
Proof.
  induction s as [| c t IH]; [reflexivity |].
  rewrite split_cons. cbn [blank forallb] in *. fold (blank t) in *.
  destruct (c =? 10)%N eqn:Ec.
  - apply N.eqb_eq in Ec. subst c. cbn [forallb]. exact IH.
  - pose proof (split_not_nil 10%N t).
    destruct (split 10%N t) as [| h r]; [contradiction |].
    cbn [hd tl forallb] in *. fold (blank h) in *.
    rewrite <- IH. rewrite !andb_assoc. reflexivity.
Qed.

(** The lines of [s.rstrip()] and of [s.lstrip()], from the lines of
    [s]. *)
Lemma split_rstrip s : split 10%N (rstrip s) = rstrip_lines (split 10%N s).
Proof.
  induction s as [| c t IH]; [reflexivity |].
  rewrite rstrip_cons, (split_cons 10%N c t).
  pose proof (blank_lines t) as Hl. pose proof (split_not_nil 10%N t) as Hn.
  destruct (split 10%N t) as [| h r] eqn:Et; [contradiction |].
  cbn [hd tl]. cbn [blank forallb] in *. fold (blank t) (blank h) in *.
  destruct (c =? 10)%N eqn:Ec.
  - apply N.eqb_eq in Ec. subst c. cbn [is_space andb rstrip_lines].
    change (is_space 10%N) with true. cbn [andb].
    cbn [forallb]. fold (blank h). rewrite Hl.
    destruct (blank t) eqn:Eb; [reflexivity |].
    rewrite split_cons. cbn [N.eqb Pos.eqb]. rewrite IH. reflexivity.
  - cbn [rstrip_lines]. destruct (is_space c) eqn:Esp; cbn [andb].
    + destruct (blank t) eqn:Eb.
      * apply andb_true_iff in Hl as [Hh Hr]. rewrite Hr.
        rewrite rstrip_cons. cbn [blank forallb]. fold (blank h).
        rewrite Esp, Hh. reflexivity.
      * rewrite split_cons, Ec, IH. cbn [rstrip_lines].
        destruct (forallb blank r) eqn:Er.
        -- cbn [hd tl]. rewrite andb_true_r in Hl.
           rewrite rstrip_cons. cbn [blank forallb]. fold (blank h).
           rewrite Esp, Hl. reflexivity.
        -- reflexivity.
    + destruct (blank t) eqn:Eb.
      * apply andb_true_iff in Hl as [Hh Hr]. rewrite Hr.
        rewrite rstrip_cons. cbn [blank forallb]. fold (blank h).
        rewrite Esp, Hh. cbn [andb split]. rewrite Ec. reflexivity.
      * rewrite split_cons, Ec, IH. cbn [rstrip_lines].
        destruct (forallb blank r) eqn:Er.
        -- cbn [hd tl]. rewrite andb_true_r in Hl.
           rewrite rstrip_cons. cbn [blank forallb]. fold (blank h).
           rewrite Esp, Hl. reflexivity.
        -- reflexivity.
Qed.

Lemma split_lstrip s : split 10%N (lstrip s) = lstrip_lines (split 10%N s).
Proof.
  induction s as [| c t IH]; [reflexivity |].
  cbn [lstrip]. rewrite (split_cons 10%N c t).
  pose proof (split_not_nil 10%N t) as Hn.
  destruct (split 10%N t) as [| h r] eqn:Et; [contradiction |].
  cbn [hd tl]. destruct (c =? 10)%N eqn:Ec.
  - apply N.eqb_eq in Ec. subst c. exact IH.
  - cbn [lstrip_lines blank forallb lstrip]. fold (blank h).
    destruct (is_space c) eqn:Esp; cbn [andb].
    + rewrite IH. reflexivity.
    + rewrite split_cons, Ec, Et. reflexivity.
Qed.

(** ** The decoder *)

(** Case analysis on the first [match] or [if] of a hypothesis. *)
Ltac break_match H :=
  match type of H with
  | context [match ?x with _ => _ end] =>
      lazymatch x with
      | context [match _ with _ => _ end] => fail
      | _ => idtac
      end;
      tryif is_var x then destruct x else destruct x eqn:?
  end.

Lemma skip_ws_length s : length (skip_ws s) <= length s.
Proof.
  induction s as [| c t IH]; cbn; [lia |].
  destruct (is_ws c); cbn; lia.
Qed.

Lemma cons_char_scanned c r x rest :
  cons_char c r = Scanned x rest ->
  exists x', x = c :: x' /\ r = Scanned x' rest.
Proof.
  destruct r; cbn; intros [= <- <-] || discriminate. eauto.
Qed.

Lemma cons_item_scanned {A} (a : A) r l rest :
  cons_item a r = Scanned l rest ->
  exists l', l = a :: l' /\ r = Scanned l' rest.
Proof.
  destruct r; cbn; intros [= <- <-] || discriminate. eauto.
Qed.

Lemma scan_map_scanned {A B} (f : A -> B) r b rest :
  scan_map f r = Scanned b rest ->
  exists a, b = f a /\ r = Scanned a rest.
Proof.
  destruct r; cbn; intros [= <- <-] || discriminate. eauto.
Qed.

Lemma scanstring_shorter n : forall s, length s <= n ->
  forall begin x r, scanstring begin s = Scanned x r -> length r < length s.
Proof.
  induction n as [| n IH]; intros s Hn begin x r H.
  - destruct s; [discriminate | cbn in Hn; lia].
  - destruct s as [| c t]; [discriminate |]. cbn [scanstring] in H.
    repeat (first [discriminate | break_match H]);
      try (apply cons_char_scanned in H as (x' & -> & H); apply IH in H);
      try (injection H as <- <-);
      cbn [length] in *; lia.
Qed.

Lemma scanstring_length begin s x r :
  scanstring begin s = Scanned x r -> length r < length s.
Proof. apply (@scanstring_shorter (length s)). lia. Qed.

Lemma span_digits_length s d r :
  span_digits s = (d, r) -> length r <= length s.
Proof.
  revert d r. induction s as [| c t IH]; cbn; intros d r H.
  - injection H as <- <-. cbn. lia.
  - destruct (is_digit c).
    + destruct (span_digits t) as [d' r'] eqn:E. injection H as <- <-.
      specialize (IH _ _ eq_refl). lia.
    + injection H as <- <-. cbn. lia.
Qed.

Lemma match_integer_length s d r :
  match_integer s = Some (d, r) -> length r < length s.
Proof.
  destruct s as [| c t]; cbn; [discriminate |].
  destruct (c =? 48)%N.
  - intros [= <- <-]. lia.
  - destruct (is_digit c); [| discriminate].
    destruct (span_digits t) as [d' r'] eqn:E. intros [= <- <-].
    apply span_digits_length in E. lia.
Qed.

Lemma match_frac_length s d r :
  match_frac s = (d, r) -> length r <= length s.
Proof.
  unfold match_frac. intros H.
  repeat (first [discriminate | break_match H]);
    try match goal with
      | E : span_digits _ = _ |- _ => apply span_digits_length in E
      end;
    injection H as <- <-; cbn [length] in *; lia.
Qed.

Lemma match_exp_length s d r :
  match_exp s = (d, r) -> length r <= length s.
Proof.
  unfold match_exp. intros H.
  repeat (first [discriminate | break_match H]);
    try match goal with
      | E : span_digits _ = _ |- _ => apply span_digits_length in E
      end;
    injection H as <- <-; cbn [length] in *; lia.
Qed.

Lemma match_number_length s v r :
  match_number s = Some (v, r) -> length r < length s.
Proof.
  unfold match_number. intros H.
  destruct (match_sign s) as [neg s1] eqn:E.
  assert (length s1 <= length s).
  { unfold match_sign in E. destruct s as [| c t]; [injection E as <- <-; lia |].
    destruct (c =? 45)%N; injection E as <- <-; cbn; lia. }
  destruct (match_integer s1) as [[integer r1] |] eqn:E1; [| discriminate].
  apply match_integer_length in E1.
  destruct (match_frac r1) as [frac r2] eqn:E2.
  apply match_frac_length in E2.
  destruct (match_exp r2) as [exp r3] eqn:E3.
  apply match_exp_length in E3.
  destruct frac, exp; injection H as <- <-; lia.
Qed.

Lemma after_word_length word : forall s r,
  after_word word s = Some r -> length s = length word + length r.
Proof.
  induction word as [| x word IH]; intros [| y s] r; cbn;
    try discriminate; try (intros [= <-]; reflexivity).
  destruct (x =? y)%N; [| discriminate]. intros H. apply IH in H. lia.
Qed.

Lemma scan_atom_length s v r :
  scan_atom s = Scanned v r -> length r < length s.
Proof.
  unfold scan_atom. intros H.
  repeat (first [discriminate | break_match H]);
    injection H as <- <-;
    repeat match goal with
      | E : after_word _ _ = Some _ |- _ =>
          apply after_word_length in E; cbn in E
      | E : match_number _ = Some _ |- _ => apply match_number_length in E
      end; lia.
Qed.

Ltac note_skip_ws :=
  repeat match goal with
    | H : context [skip_ws ?t] |- _ =>
        lazymatch goal with
        | _ : length (skip_ws t) <= length t |- _ => fail
        | _ => pose proof (skip_ws_length t)
        end
    end.

Lemma scan_shorter fuel :
  (forall s v r, scan_once fuel s = Scanned v r -> length r < length s)
  /\ (forall s l r, array_items fuel s = Scanned l r -> length r < length s)
  /\ (forall begin s l r,
         object_items fuel begin s = Scanned l r -> length r < length s).
Proof.
  induction fuel as [| fuel (IHonce & IHarr & IHobj)].
  - repeat split; intros; discriminate.
  - repeat split.
    + intros s v r H. cbn [scan_once] in H.
      destruct s as [| c t]; [discriminate |].
      repeat (first [discriminate | break_match H]); note_skip_ws;
        try (apply scan_map_scanned in H as (? & -> & H));
        try (injection H as <- <-);
        try apply scanstring_length in H;
        try apply scan_atom_length in H;
        try apply IHarr in H; try apply IHobj in H;
        repeat match goal with
          | E : skip_ws ?t = _, L : length (skip_ws ?t) <= _ |- _ =>
              rewrite E in L
          end;
        cbn [length] in *; lia.
    + intros s l r H. cbn [array_items] in H.
      destruct (scan_once fuel s) as [v r0 | |] eqn:E; try discriminate.
      apply IHonce in E.
      repeat (first [discriminate | break_match H]); note_skip_ws;
        try (apply cons_item_scanned in H as (? & -> & H); apply IHarr in H);
        try (injection H as <- <-);
        repeat match goal with
          | E : skip_ws ?t = _, L : length (skip_ws ?t) <= _ |- _ =>
              rewrite E in L
          end;
        cbn [length] in *; lia.
    + intros begin s l r H. cbn [object_items] in H.
      destruct (scanstring begin s) as [key r0 | |] eqn:E; try discriminate.
      apply scanstring_length in E.
      destruct (skip_ws r0) as [| c t] eqn:E0; [discriminate |].
      destruct (c =? 58)%N; [| discriminate].
      destruct (scan_once fuel (skip_ws t)) as [v r2 | |] eqn:E1;
        try discriminate.
      apply IHonce in E1.
      repeat (first [discriminate | break_match H]); note_skip_ws;
        try (apply cons_item_scanned in H as (? & -> & H); apply IHobj in H);
        try (injection H as <- <-);
        pose proof (skip_ws_length r0); pose proof (skip_ws_length t);
        repeat match goal with
          | E : skip_ws ?t = _, L : length (skip_ws ?t) <= _ |- _ =>
              rewrite E in L
          end;
        cbn [length] in *; lia.
Qed.

Lemma scan_once_S fuel s :
  scan_once (S fuel) s =
  match s with
  | [] => Stop expecting_value s
  | c :: t =>
      if (c =? 34)%N then scan_map JStr (scanstring s t)
      else if (c =? 123)%N then
        match skip_ws t with
        | (c1 :: t1) as s1 =>
            if (c1 =? 125)%N then Scanned (JObj []) t1
            else if (c1 =? 34)%N then
              scan_map (fun pairs => JObj (dict_of_pairs pairs))
                       (object_items fuel s1 t1)
            else Stop expecting_name s1
        | [] => Stop expecting_name []
        end
      else if (c =? 91)%N then
        match skip_ws t with
        | (c1 :: t1) as s1 =>
            if (c1 =? 93)%N then Scanned (JArr []) t1
            else scan_map JArr (array_items fuel s1)
        | [] => Stop expecting_value []
        end
      else scan_atom s
  end.
Proof. reflexivity. Qed.

Lemma array_items_S fuel s :
  array_items (S fuel) s =
  match scan_once fuel s with
  | Scanned v r =>
      match skip_ws r with
      | (c :: t) as r1 =>
          if (c =? 93)%N then Scanned [v] t
          else if (c =? 44)%N then cons_item v (array_items fuel (skip_ws t))
          else Stop expecting_comma r1
      | [] => Stop expecting_comma []
      end
  | Stop msg at_ => Stop msg at_
  | TooDeep => TooDeep
  end.
Proof. reflexivity. Qed.

Lemma object_items_S fuel begin s :
  object_items (S fuel) begin s =
  match scanstring begin s with
  | Scanned key r =>
      match skip_ws r with
      | (c :: t) as r1 =>
          if (c =? 58)%N then
            match scan_once fuel (skip_ws t) with
            | Scanned v r2 =>
                match skip_ws r2 with
                | (c2 :: t2) as r3 =>
                    if (c2 =? 125)%N then Scanned [(key, v)] t2
                    else if (c2 =? 44)%N then
                      match skip_ws t2 with
                      | (c3 :: t3) as r4 =>
                          if (c3 =? 34)%N then
                            cons_item (key, v) (object_items fuel r4 t3)
                          else Stop expecting_name r4
                      | [] => Stop expecting_name []
                      end
                    else Stop expecting_comma r3
                | [] => Stop expecting_comma []
                end
            | Stop msg at_ => Stop msg at_
            | TooDeep => TooDeep
            end
          else Stop expecting_colon r1
      | [] => Stop expecting_colon []
      end
  | Stop msg at_ => Stop msg at_
  | TooDeep => TooDeep
  end.
Proof. reflexivity. Qed.

Lemma cons_char_deep c r : cons_char c r = TooDeep -> r = TooDeep.
Proof. destruct r; cbn; congruence. Qed.

Lemma cons_item_deep {A} (a : A) r : cons_item a r = TooDeep -> r = TooDeep.
Proof. destruct r; cbn; congruence. Qed.

Lemma scan_map_deep {A B} (f : A -> B) r : scan_map f r = TooDeep -> r = TooDeep.
Proof. destruct r; cbn; congruence. Qed.

Lemma scanstring_deep n : forall s, length s <= n ->
  forall begin, scanstring begin s = TooDeep -> False.
Proof.
  induction n as [| n IH]; intros s Hn begin H.
  - destruct s; [discriminate | cbn in Hn; lia].
  - destruct s as [| c t]; [discriminate |]. cbn [scanstring] in H.
    repeat (first [discriminate | break_match H]);
      apply cons_char_deep, IH in H; trivial; cbn [length] in *; lia.
Qed.

Lemma scanstring_not_deep begin s : scanstring begin s <> TooDeep.
Proof. intros H. apply (@scanstring_deep (length s)) in H; trivial. Qed.

Lemma scan_atom_not_deep s : scan_atom s <> TooDeep.
Proof.
  unfold scan_atom. intros H.
  repeat (first [discriminate | break_match H]).
Qed.

Ltac use_skip_ws :=
  note_skip_ws;
  repeat match goal with
    | E : skip_ws ?t = _, L : length (skip_ws ?t) <= _ |- _ => rewrite E in L
    end.

(** [2 * length s + 2] calls are enough for any document. *)
Lemma scan_fuel fuel :
  (forall s, 2 * length s < fuel -> scan_once fuel s = TooDeep -> False)
  /\ (forall s, 2 * length s + 1 < fuel ->
                array_items fuel s = TooDeep -> False)
  /\ (forall begin s, 2 * length s + 1 < fuel ->
                      object_items fuel begin s = TooDeep -> False).
Proof.
  induction fuel as [| fuel (IHonce & IHarr & IHobj)].
  - repeat split; intros; lia.
  - repeat split.
    + intros s Hs H. rewrite scan_once_S in H.
      destruct s as [| c t]; [discriminate |].
      repeat (first [discriminate | break_match H]); use_skip_ws;
        try (apply scan_map_deep in H);
        try (apply scanstring_not_deep in H; contradiction);
        try (apply scan_atom_not_deep in H; contradiction);
        try (apply IHarr in H; trivial); try (apply IHobj in H; trivial);
        cbn [length] in *; lia.
    + intros s Hs H. rewrite array_items_S in H.
      destruct (scan_once fuel s) as [v r0 | |] eqn:E; try discriminate.
      * apply (proj1 (scan_shorter fuel)) in E.
        destruct (skip_ws r0) as [| c t] eqn:E0; [discriminate |].
        destruct (c =? 93)%N; [discriminate |].
        destruct (c =? 44)%N; [| discriminate].
        apply cons_item_deep, IHarr in H; trivial.
        pose proof (skip_ws_length r0) as L0. rewrite E0 in L0.
        pose proof (skip_ws_length t). cbn [length] in *. lia.
      * apply IHonce in E; trivial. lia.
    + intros begin s Hs H. rewrite object_items_S in H.
      destruct (scanstring begin s) as [key r0 | |] eqn:E; try discriminate.
      * apply scanstring_length in E.
        destruct (skip_ws r0) as [| c t] eqn:E0; [discriminate |].
        destruct (c =? 58)%N; [| discriminate].
        pose proof (skip_ws_length r0) as L0. rewrite E0 in L0.
        pose proof (skip_ws_length t) as L1.
        destruct (scan_once fuel (skip_ws t)) as [v r2 | |] eqn:E1;
          try discriminate.
        -- apply (proj1 (scan_shorter fuel)) in E1.
           destruct (skip_ws r2) as [| c2 t2] eqn:E2; [discriminate |].
           destruct (c2 =? 125)%N; [discriminate |].
           destruct (c2 =? 44)%N; [| discriminate].
           destruct (skip_ws t2) as [| c3 t3] eqn:E3; [discriminate |].
           destruct (c3 =? 34)%N; [| discriminate].
           apply cons_item_deep, IHobj in H; trivial.
           pose proof (skip_ws_length r2) as L2. rewrite E2 in L2.
           pose proof (skip_ws_length t2) as L3. rewrite E3 in L3.
           cbn [length] in *. lia.
        -- apply IHonce in E1; trivial. cbn [length] in *. lia.
      * apply scanstring_not_deep in E. contradiction.
Qed.

(** More fuel does not change the result of a scan that had enough. *)
Lemma scan_more_fuel fuel :
  (forall s, scan_once fuel s <> TooDeep ->
             scan_once (S fuel) s = scan_once fuel s)
  /\ (forall s, array_items fuel s <> TooDeep ->
                array_items (S fuel) s = array_items fuel s)
  /\ (forall begin s, object_items fuel begin s <> TooDeep ->
                      object_items (S fuel) begin s
                      = object_items fuel begin s).
Proof.
  induction fuel as [| fuel (IHonce & IHarr & IHobj)].
  - repeat split; intros; cbn in *; congruence.
  - repeat split.
    + intros s H. rewrite (scan_once_S (S fuel)). rewrite scan_once_S in H |- *.
      destruct s as [| c t]; [reflexivity |].
      destruct (c =? 34)%N; [reflexivity |].
      destruct (c =? 123)%N.
      * destruct (skip_ws t) as [| c1 t1]; [reflexivity |].
        destruct (c1 =? 125)%N; [reflexivity |].
        destruct (c1 =? 34)%N; [| reflexivity].
        cbv zeta in H |- *. rewrite IHobj; [reflexivity |].
        intros E. rewrite E in H. apply H. reflexivity.
      * destruct (c =? 91)%N; [| reflexivity].
        destruct (skip_ws t) as [| c1 t1]; [reflexivity |].
        destruct (c1 =? 93)%N; [reflexivity |].
        cbv zeta in H |- *. rewrite IHarr; [reflexivity |].
        intros E. rewrite E in H. apply H. reflexivity.
    + intros s H. rewrite (array_items_S (S fuel)).
      rewrite array_items_S in H |- *.
      rewrite IHonce by (intros E; rewrite E in H; apply H; reflexivity).
      destruct (scan_once fuel s) as [v r | |]; try reflexivity.
      destruct (skip_ws r) as [| c t]; [reflexivity |].
      destruct (c =? 93)%N; [reflexivity |].
      destruct (c =? 44)%N; [| reflexivity].
      cbv zeta in H |- *. rewrite IHarr; [reflexivity |].
      intros E. rewrite E in H. apply H. reflexivity.
    + intros begin s H. rewrite (object_items_S (S fuel)).
      rewrite object_items_S in H |- *.
      destruct (scanstring begin s) as [key r | |]; try reflexivity.
      destruct (skip_ws r) as [| c t]; [reflexivity |].
      destruct (c =? 58)%N; [| reflexivity].
      rewrite IHonce by (intros E; rewrite E in H; apply H; reflexivity).
      destruct (scan_once fuel (skip_ws t)) as [v r2 | |]; try reflexivity.
      destruct (skip_ws r2) as [| c2 t2]; [reflexivity |].
      destruct (c2 =? 125)%N; [reflexivity |].
      destruct (c2 =? 44)%N; [| reflexivity].
      destruct (skip_ws t2) as [| c3 t3]; [reflexivity |].
      destruct (c3 =? 34)%N; [| reflexivity].
      cbv zeta in H |- *. rewrite IHobj; [reflexivity |].
      intros E. rewrite E in H. apply H. reflexivity.
Qed.

Lemma scan_once_fuel_le fuel fuel' s :
  fuel <= fuel' -> scan_once fuel s <> TooDeep ->
  scan_once fuel' s = scan_once fuel s.
Proof.
  induction 1 as [| m Hle IH]; intros H; [reflexivity |].
  rewrite (proj1 (scan_more_fuel m)); rewrite IH; trivial.
Qed.

(** [json_loads] gives the scanner all the fuel it needs. *)
Lemma scan_once_fuel s fuel :
  2 * length s < fuel -> scan_once fuel s <> TooDeep.
Proof. intros H E. exact (proj1 (scan_fuel fuel) s H E). Qed.

Lemma json_loads_error s e :
  json_loads s = Raise e -> exists msg pos, e = JSONDecodeError msg s pos.
Proof.
  unfold json_loads, decode. intros H.
  destruct (starts_with _ s); [injection H as <-; eauto |].
  assert (F : scan_once (2 * length s + 2) (skip_ws s) <> TooDeep).
  { apply scan_once_fuel. pose proof (skip_ws_length s). lia. }
  destruct (scan_once _ _) as [v r | msg at_ |]; [| | contradiction].
  - destruct (skip_ws r); [discriminate |]. injection H as <-. eauto.
  - injection H as <-. eauto.
Qed.

(** A decoder's error is about the text [json.loads] was given, at a place
    of that text. *)
Lemma json_loads_raise s msg doc pos :
  json_loads s = Raise (JSONDecodeError msg doc pos) ->
  doc = s /\ pos <= length s.
Proof.
  unfold json_loads, decode. intros H.
  destruct (starts_with _ s).
  { injection H as <- <- <-. split; [reflexivity | lia]. }
  destruct (scan_once _ _) as [v r | m at_ |]; [| | discriminate].
  - destruct (skip_ws r); [discriminate |].
    injection H as <- <- <-. split; [reflexivity | lia].
  - injection H as <- <- <-. split; [reflexivity | lia].
Qed.

(** *** Whitespace after a document *)

Ltac break_goal :=
  match goal with
  | |- context [match ?x with _ => _ end] =>
      lazymatch x with
      | context [match _ with _ => _ end] => fail
      | _ => idtac
      end;
      tryif is_var x then destruct x else destruct x eqn:?
  end.

Lemma scanstring_step begin s :
  scanstring begin s =
  match string_step s with
  | Closed rest => Scanned [] rest
  | Appended c rest => cons_char c (scanstring begin rest)
  | Failed msg at_ => Stop msg at_
  | Open => Stop unterminated begin
  end.
Proof.
  destruct s as [| c t]; [reflexivity |].
  unfold string_step. cbn [scanstring].
  repeat break_goal; reflexivity.
Qed.

Lemma string_step_length s c rest :
  string_step s = Appended c rest -> length rest < length s.
Proof.
  unfold string_step. intros H.
  repeat (first [discriminate | break_match H]);
    injection H as <- <-; cbn [length]; lia.
Qed.

Lemma space_not_34 : forall c, is_space c = true -> (c =? 34)%N = false.
Proof. spaces. Qed.
Lemma space_not_92 : forall c, is_space c = true -> (c =? 92)%N = false.
Proof. spaces. Qed.
Lemma space_not_117 : forall c, is_space c = true -> (c =? 117)%N = false.
Proof. spaces. Qed.
Lemma space_backslash : forall c, is_space c = true -> backslash c = None.
Proof. spaces. Qed.
Lemma space_hex : forall c, is_space c = true -> hex_value c = None.
Proof. spaces. Qed.

Lemma hex4_space a b c d :
  is_space a = true \/ is_space b = true \/ is_space c = true
  \/ is_space d = true ->
  hex4 a b c d = None.
Proof.
  unfold hex4. intros [H | [H | [H | H]]]; rewrite (space_hex _ H);
    repeat break_goal; reflexivity.
Qed.

Ltac split_blank H :=
  apply blank_cons in H;
  let Hx := fresh "Hx" in destruct H as [Hx H].

Ltac space_facts :=
  repeat match goal with
    | Hx : is_space ?x = true |- context [(?x =? 34)%N] =>
        rewrite (space_not_34 _ Hx)
    | Hx : is_space ?x = true |- context [(?x =? 92)%N] =>
        rewrite (space_not_92 _ Hx)
    | Hx : is_space ?x = true |- context [(?x =? 117)%N] =>
        rewrite (space_not_117 _ Hx)
    | Hx : is_space ?x = true |- context [backslash ?x] =>
        rewrite (space_backslash _ Hx)
    | Hx : is_space ?x = true |- context [hex4 ?x ?b ?c ?d] =>
        rewrite (@hex4_space x b c d) by auto
    | Hx : is_space ?x = true |- context [hex4 ?a ?x ?c ?d] =>
        rewrite (@hex4_space a x c d) by auto
    | Hx : is_space ?x = true |- context [hex4 ?a ?b ?x ?d] =>
        rewrite (@hex4_space a b x d) by auto
    | Hx : is_space ?x = true |- context [hex4 ?a ?b ?c ?x] =>
        rewrite (@hex4_space a b c x) by auto
    | |- context [andb _ false] => rewrite andb_false_r
    end.

Ltac blank_now :=
  repeat (apply blank_cons_intro; [assumption |]);
  first [assumption | reflexivity].

(** One round of [scanstring] on a text followed by whitespace [w]: the
    round ended in the text itself, or it went on into [w]. *)
Lemma string_step_app w : blank w = true -> forall s,
  match string_step (s ++ w) with
  | Closed rest' => exists rest, rest' = rest ++ w /\ string_step s = Closed rest
  | Appended c rest' =>
      (exists rest, rest' = rest ++ w /\ string_step s = Appended c rest)
      \/ blank rest' = true
  | Failed _ _ | Open => True
  end.
Proof.
  intros Hw s. unfold string_step.
  repeat first
    [ exact I
    | progress cbn [app]
    | progress space_facts
    | match goal with
      | |- context [match ?l ++ w with _ => _ end] => is_var l; destruct l
      end
    | match goal with
      | Hb : blank ?v = true |- context [match ?v with _ => _ end] =>
          destruct v; [| split_blank Hb]
      end
    | match goal with
      | |- context [if ?c then _ else _] =>
          lazymatch c with
          | context [match _ with _ => _ end] => fail
          | _ => destruct c eqn:?
          end
      | |- context [match hex4 ?a ?b ?c ?d with _ => _ end] =>
          destruct (hex4 a b c d) eqn:?
      | |- context [match backslash ?e with _ => _ end] =>
          destruct (backslash e) eqn:?
      end
    | solve [eexists; split; [| reflexivity]; reflexivity]
    | solve [left; eexists; split; [| reflexivity]; reflexivity]
    | solve [right; blank_now] ].
Qed.

Lemma scanstring_blank w : blank w = true ->
  forall begin x r, scanstring begin w = Scanned x r -> False.
Proof.
  induction w as [| c w IH]; intros Hw begin x r H; [discriminate |].
  split_blank Hw. cbn [scanstring] in H.
  rewrite (space_not_34 _ Hx), (space_not_92 _ Hx) in H.
  destruct (c <=? 31)%N; [discriminate |].
  apply cons_char_scanned in H as (x' & _ & H). eauto.
Qed.

(** A string that [scanstring] reads to its closing quote in a text followed
    by whitespace is closed in the text itself. *)
Lemma scanstring_app_le w : blank w = true ->
  forall n s, length s <= n ->
  forall begin begin' x r',
    scanstring begin (s ++ w) = Scanned x r' ->
    exists r, r' = r ++ w /\ scanstring begin' s = Scanned x r.
Proof.
  intros Hw n. induction n as [| n IH]; intros s Hn begin begin' x r' H;
    rewrite scanstring_step in H;
    pose proof (@string_step_app w Hw s) as Hstep;
    destruct (string_step (s ++ w)) as [rest' | c rest' | |];
    try discriminate.
  - destruct Hstep as (rest & -> & Hs). injection H as <- <-.
    exists rest. rewrite scanstring_step, Hs. auto.
  - destruct Hstep as [(rest & -> & Hs) | Hb].
    + apply string_step_length in Hs. lia.
    + apply cons_char_scanned in H as (x' & _ & H).
      destruct (@scanstring_blank _ Hb _ _ _ H).
  - destruct Hstep as (rest & -> & Hs). injection H as <- <-.
    exists rest. rewrite scanstring_step, Hs. auto.
  - destruct Hstep as [(rest & -> & Hs) | Hb].
    + apply cons_char_scanned in H as (x' & -> & H).
      apply (IH rest) with (begin' := begin') in H as (r & -> & H).
      * exists r. rewrite scanstring_step, Hs, H. auto.
      * apply string_step_length in Hs. lia.
    + apply cons_char_scanned in H as (x' & _ & H).
      destruct (@scanstring_blank _ Hb _ _ _ H).
Qed.

Lemma scanstring_app w begin begin' s x r' :
  blank w = true ->
  scanstring begin (s ++ w) = Scanned x r' ->
  exists r, r' = r ++ w /\ scanstring begin' s = Scanned x r.
Proof. intros Hw. apply (@scanstring_app_le w Hw (length s)). lia. Qed.

Lemma space_not_digit : forall c, is_space c = true -> is_digit c = false.
Proof. spaces. Qed.

Lemma space_not_char (k : N) :
  is_space k = false -> forall c, is_space c = true -> (c =? k)%N = false.
Proof.
  intros Hk c Hc. apply N.eqb_neq. intros ->. congruence.
Qed.

Lemma after_word_app w word : blank w = true ->
  forallb (fun c => negb (is_space c)) word = true ->
  forall s,
    after_word word (s ++ w) = option_map (fun r => r ++ w) (after_word word s).
Proof.
  intros Hw. induction word as [| x word IH]; intros Hword s; [reflexivity |].
  cbn [forallb] in Hword. apply andb_true_iff in Hword as [Hx Hword].
  apply negb_true_iff in Hx.
  destruct s as [| y s]; cbn [app after_word].
  - destruct w as [| y w]; [reflexivity |]. split_blank Hw.
    rewrite N.eqb_sym, (@space_not_char _ Hx _ Hx0). reflexivity.
  - destruct (x =? y)%N; [apply IH, Hword | reflexivity].
Qed.

Lemma span_digits_app w : blank w = true -> forall s,
  span_digits (s ++ w) = (fst (span_digits s), snd (span_digits s) ++ w).
Proof.
  intros Hw. induction s as [| c s IH]; cbn [app span_digits].
  - destruct w as [| x w]; [reflexivity |]. split_blank Hw.
    cbn [span_digits]. rewrite (space_not_digit _ Hx). reflexivity.
  - destruct (is_digit c); [| reflexivity].
    rewrite IH. destruct (span_digits s). reflexivity.
Qed.

Lemma match_sign_app w : blank w = true -> forall s,
  match_sign (s ++ w) = (fst (match_sign s), snd (match_sign s) ++ w).
Proof.
  intros Hw [| c s]; cbn [app match_sign].
  - destruct w as [| x w]; [reflexivity |]. split_blank Hw.
    cbn [match_sign]. rewrite (@space_not_char 45 eq_refl _ Hx). reflexivity.
  - destruct (c =? 45)%N; reflexivity.
Qed.

Lemma match_integer_app w : blank w = true -> forall s,
  match_integer (s ++ w)
  = option_map (fun dr => (fst dr, snd dr ++ w)) (match_integer s).
Proof.
  intros Hw [| c s]; cbn [app match_integer].
  - destruct w as [| x w]; [reflexivity |]. split_blank Hw.
    cbn [match_integer].
    rewrite (@space_not_char 48 eq_refl _ Hx), (space_not_digit _ Hx).
    reflexivity.
  - destruct (c =? 48)%N; [reflexivity |].
    destruct (is_digit c); [| reflexivity].
    rewrite (@span_digits_app w Hw). destruct (span_digits s). reflexivity.
Qed.

Lemma match_frac_app w : blank w = true -> forall s,
  match_frac (s ++ w) = (fst (match_frac s), snd (match_frac s) ++ w).
Proof.
  intros Hw [| dot [| c s]]; cbn [app match_frac].
  - destruct w as [| x [| y w]]; try reflexivity.
    split_blank Hw. cbn [match_frac].
    rewrite (@space_not_char 46 eq_refl _ Hx). reflexivity.
  - destruct w as [| x w]; [reflexivity |]. split_blank Hw.
    rewrite (space_not_digit _ Hx), andb_false_r. reflexivity.
  - destruct ((dot =? 46)%N && is_digit c); [| reflexivity].
    rewrite (@span_digits_app w Hw). destruct (span_digits s). reflexivity.
Qed.

Lemma match_exp_app w : blank w = true -> forall s,
  match_exp (s ++ w) = (fst (match_exp s), snd (match_exp s) ++ w).
Proof.
  intros Hw s. unfold match_exp.
  repeat first
    [ reflexivity
    | progress cbn [app fst snd]
    | match goal with
      | Hx : is_space ?x = true |- context [(?x =? ?k)%N] =>
          rewrite (@space_not_char k eq_refl x Hx)
      | Hx : is_space ?x = true |- context [is_digit ?x] =>
          rewrite (space_not_digit _ Hx)
      | |- context [span_digits (?l ++ w)] => rewrite (@span_digits_app w Hw l)
      | |- context [match ?l ++ w with _ => _ end] => is_var l; destruct l
      | Hb : blank ?v = true |- context [match ?v with _ => _ end] =>
          destruct v; [| split_blank Hb]
      | |- context [if ?c then _ else _] =>
          lazymatch c with
          | context [match _ with _ => _ end] => fail
          | _ => destruct c eqn:?
          end
      | |- context [span_digits ?l] => destruct (span_digits l)
      end ].
Qed.

Lemma match_number_app w : blank w = true -> forall s,
  match_number (s ++ w)
  = option_map (fun vr => (fst vr, snd vr ++ w)) (match_number s).
Proof.
  intros Hw s. unfold match_number.
  rewrite (@match_sign_app w Hw). destruct (match_sign s) as [neg s1].
  cbn [fst snd]. rewrite (@match_integer_app w Hw).
  destruct (match_integer s1) as [[integer r1] |]; [| reflexivity].
  cbn [option_map fst snd]. rewrite (@match_frac_app w Hw).
  destruct (match_frac r1) as [frac r2]. cbn [fst snd].
  rewrite (@match_exp_app w Hw). destruct (match_exp r2) as [exp r3].
  cbn [fst snd]. destruct frac, exp; reflexivity.
Qed.

Lemma scan_atom_app w : blank w = true -> forall s,
  scan_atom (s ++ w) = rest_app w (scan_atom s).
Proof.
  intros Hw s. unfold scan_atom.
  rewrite !(@after_word_app w _ Hw) by reflexivity.
  rewrite (@match_number_app w Hw).
  repeat match goal with
    | |- context [after_word ?x s] => destruct (after_word x s)
    end;
    destruct (match_number s) as [[v r] |]; reflexivity.
Qed.

Lemma skip_ws_app t w :
  skip_ws (t ++ w)
  = match skip_ws t with
    | [] => skip_ws w
    | c :: r => (c :: r) ++ w
    end.
Proof.
  induction t as [| c t IH]; cbn [app skip_ws].
  - destruct (skip_ws w); reflexivity.
  - destruct (is_ws c); [exact IH | reflexivity].
Qed.

Lemma blank_skip_ws w : blank w = true -> blank (skip_ws w) = true.
Proof.
  induction w as [| c w IH]; intros Hw; [reflexivity |].
  cbn [skip_ws]. destruct (is_ws c); [| exact Hw].
  apply blank_cons in Hw. apply IH, Hw.
Qed.

(** What is left of the whitespace [w] once the scanner has skipped into
    it: nothing, or a text that starts with a whitespace character that is
    not JSON whitespace. *)
Lemma skip_ws_blank w :
  blank w = true ->
  skip_ws w = [] \/ exists x w', skip_ws w = x :: w' /\ is_space x = true
                                 /\ blank w' = true.
Proof.
  intros Hw. apply blank_skip_ws in Hw.
  destruct (skip_ws w) as [| x w']; [left; reflexivity | right].
  apply blank_cons in Hw. exists x, w'. tauto.
Qed.

Lemma scan_once_blank fuel w v r :
  blank w = true -> scan_once fuel w = Scanned v r -> False.
Proof.
  intros Hw H. destruct fuel as [| fuel]; [discriminate |].
  rewrite scan_once_S in H. destruct w as [| c t]; [discriminate |].
  pose proof Hw as Hc. apply blank_cons in Hc as [Hc _].
  rewrite (@space_not_char 34 eq_refl _ Hc),
    (@space_not_char 123 eq_refl _ Hc), (@space_not_char 91 eq_refl _ Hc) in H.
  change (c :: t) with ([] ++ c :: t) in H.
  rewrite (scan_atom_app (c :: t) Hw []) in H. discriminate.
Qed.

Lemma array_items_blank fuel w l r :
  blank w = true -> array_items fuel w = Scanned l r -> False.
Proof.
  intros Hw H. destruct fuel as [| fuel]; [discriminate |].
  rewrite array_items_S in H.
  destruct (scan_once fuel w) as [v r0 | |] eqn:E; try discriminate.
  exact (scan_once_blank _ _ _ _ Hw E).
Qed.

Ltac space_chars H :=
  repeat match type of H with
    | context [(?x =? ?k)%N] =>
        match goal with
        | Hx : is_space x = true |- _ =>
            rewrite (@space_not_char k eq_refl x Hx) in H
        end
    end.

(** A value the scanner reads in a text followed by whitespace is read in
    the text itself, and the whitespace is left untouched. *)
Lemma scan_app w : blank w = true -> forall fuel,
  (forall s v r',
      scan_once fuel (s ++ w) = Scanned v r' ->
      exists r, r' = r ++ w /\ scan_once fuel s = Scanned v r)
  /\ (forall s l r',
         array_items fuel (s ++ w) = Scanned l r' ->
         exists r, r' = r ++ w /\ array_items fuel s = Scanned l r)
  /\ (forall begin begin' s l r',
         object_items fuel begin (s ++ w) = Scanned l r' ->
         exists r, r' = r ++ w /\ object_items fuel begin' s = Scanned l r).
Proof.
  intros Hw. induction fuel as [| fuel (IHonce & IHarr & IHobj)].
  - repeat split; intros; discriminate.
  - repeat split.
    + intros s v r' H. destruct s as [| c t].
      { destruct (scan_once_blank _ _ _ _ Hw H). }
      cbn [app] in H. rewrite scan_once_S in H |- *.
      destruct (c =? 34)%N.
      { apply scan_map_scanned in H as (x & -> & H).
        apply (scanstring_app w _ (c :: t) _ _ _ Hw) in H as (r & -> & H).
        exists r. rewrite H. auto. }
      destruct (c =? 123)%N.
      { rewrite skip_ws_app in H.
        destruct (skip_ws t) as [| c1 t1].
        - destruct (skip_ws_blank w Hw) as [E | (x & w' & E & Hx & _)];
            rewrite E in H; [discriminate |].
          space_chars H. discriminate.
        - cbn [app] in H. cbv zeta in H |- *.
          destruct (c1 =? 125)%N.
          { injection H as <- <-. eauto. }
          destruct (c1 =? 34)%N; [| discriminate].
          apply scan_map_scanned in H as (pairs & -> & H).
          apply IHobj with (begin' := c1 :: t1) in H as (r & -> & H).
          exists r. rewrite H. auto. }
      destruct (c =? 91)%N.
      { rewrite skip_ws_app in H.
        destruct (skip_ws t) as [| c1 t1].
        - destruct (skip_ws_blank w Hw) as [E | (x & w' & E & Hx & Hw')];
            rewrite E in H; [discriminate |].
          cbv zeta in H. space_chars H.
          apply scan_map_scanned in H as (items & _ & H).
          rewrite <- E in H.
          destruct (array_items_blank _ _ _ _ (blank_skip_ws _ Hw) H).
        - cbn [app] in H. cbv zeta in H |- *.
          destruct (c1 =? 93)%N.
          { injection H as <- <-. eauto. }
          apply scan_map_scanned in H as (items & -> & H).
          change (c1 :: t1 ++ w) with ((c1 :: t1) ++ w) in H.
          apply IHarr in H as (r & -> & H).
          exists r. rewrite H. auto. }
      change (c :: t ++ w) with ((c :: t) ++ w) in H.
      rewrite (@scan_atom_app w Hw) in H.
      destruct (scan_atom (c :: t)) as [v0 r0 | |]; try discriminate.
      injection H as <- <-. eauto.
    + intros s l r' H. rewrite array_items_S in H |- *.
      destruct (scan_once fuel (s ++ w)) as [v r0' | |] eqn:E;
        try discriminate.
      apply IHonce in E as (r0 & -> & E). rewrite E.
      rewrite skip_ws_app in H.
      destruct (skip_ws r0) as [| c t].
      * destruct (skip_ws_blank w Hw) as [E' | (x & w' & E' & Hx & _)];
          rewrite E' in H; [discriminate |].
        space_chars H. discriminate.
      * cbn [app] in H. cbv zeta in H |- *.
        destruct (c =? 93)%N.
        { injection H as <- <-. eauto. }
        destruct (c =? 44)%N; [| discriminate].
        apply cons_item_scanned in H as (l' & -> & H).
        rewrite skip_ws_app in H.
        destruct (skip_ws t) as [| c' t'].
        -- destruct (array_items_blank _ _ _ _ (blank_skip_ws _ Hw) H).
        -- apply IHarr in H as (r & -> & H).
           exists r. rewrite H. auto.
    + intros begin begin' s l r' H. rewrite object_items_S in H |- *.
      destruct (scanstring begin (s ++ w)) as [key r0' | |] eqn:E;
        try discriminate.
      apply (scanstring_app w _ begin' _ _ _ Hw) in E as (r0 & -> & E).
      rewrite E. rewrite skip_ws_app in H.
      destruct (skip_ws r0) as [| c t].
      { destruct (skip_ws_blank w Hw) as [E' | (x & w' & E' & Hx & _)];
          rewrite E' in H; [discriminate |].
        space_chars H. discriminate. }
      cbn [app] in H. cbv zeta in H |- *.
      destruct (c =? 58)%N; [| discriminate].
      rewrite skip_ws_app in H.
      destruct (skip_ws t) as [| c' t'].
      { destruct (scan_once fuel (skip_ws w)) as [v r2 | |] eqn:E';
          try discriminate.
        destruct (scan_once_blank _ _ _ _ (blank_skip_ws _ Hw) E'). }
      destruct (scan_once fuel ((c' :: t') ++ w)) as [v r2' | |] eqn:E1;
        try discriminate.
      apply IHonce in E1 as (r2 & -> & E1). rewrite E1.
      rewrite skip_ws_app in H.
      destruct (skip_ws r2) as [| c2 t2].
      { destruct (skip_ws_blank w Hw) as [E' | (x & w' & E' & Hx & _)];
          rewrite E' in H; [discriminate |].
        space_chars H. discriminate. }
      cbn [app] in H. cbv zeta in H |- *.
      destruct (c2 =? 125)%N.
      { injection H as <- <-. eauto. }
      destruct (c2 =? 44)%N; [| discriminate].
      rewrite skip_ws_app in H.
      destruct (skip_ws t2) as [| c3 t3].
      { destruct (skip_ws_blank w Hw) as [E' | (x & w' & E' & Hx & _)];
          rewrite E' in H; [discriminate |].
        space_chars H. discriminate. }
      cbn [app] in H. cbv zeta in H |- *.
      destruct (c3 =? 34)%N; [| discriminate].
      apply cons_item_scanned in H as (l' & -> & H).
      apply IHobj with (begin' := c3 :: t3) in H as (r & -> & H).
      exists r. rewrite H. auto.
Qed.

(** *** Whitespace around a document *)

Lemma after_word_space_head k word x t :
  is_space k = false -> is_space x = true ->
  after_word (k :: word) (x :: t) = None.
Proof.
  intros Hk Hx. cbn [after_word].
  rewrite N.eqb_sym, (space_not_char k Hk x Hx). reflexivity.
Qed.

Lemma scan_atom_space_head x t :
  is_space x = true -> scan_atom (x :: t) = Stop expecting_value (x :: t).
Proof.
  intros Hx. unfold scan_atom, match_number, match_sign, match_integer.
  cbn [lit list_ascii_of_string map].
  rewrite !after_word_space_head by (trivial; reflexivity).
  rewrite (space_not_char 45 eq_refl x Hx), (space_not_char 48 eq_refl x Hx),
    (space_not_digit x Hx).
  reflexivity.
Qed.

Lemma scan_once_space_head fuel x t v r :
  is_space x = true -> scan_once fuel (x :: t) = Scanned v r -> False.
Proof.
  intros Hx H. destruct fuel as [| fuel]; [discriminate |].
  rewrite scan_once_S in H.
  rewrite (space_not_char 34 eq_refl x Hx), (space_not_char 123 eq_refl x Hx),
    (space_not_char 91 eq_refl x Hx), (scan_atom_space_head x t Hx) in H.
  discriminate.
Qed.

Lemma json_loads_nil v : json_loads [] <> Ok v.
Proof. discriminate. Qed.

(** The scan of [decode], with any fuel that is enough. *)
Lemma scan_once_any_fuel fuel s :
  2 * length s < fuel ->
  scan_once fuel (skip_ws s) = scan_once (2 * length s + 2) (skip_ws s).
Proof.
  intros Hf. pose proof (skip_ws_length s) as L.
  destruct (Nat.le_ge_cases fuel (2 * length s + 2)) as [Hle | Hge].
  - symmetry. apply scan_once_fuel_le; [exact Hle |].
    apply scan_once_fuel. lia.
  - apply scan_once_fuel_le; [exact Hge |].
    apply scan_once_fuel. lia.
Qed.

Lemma decode_ok s v :
  decode s = Ok v <->
  exists r, scan_once (2 * length s + 2) (skip_ws s) = Scanned v r
            /\ skip_ws r = [].
Proof.
  unfold decode. destruct (scan_once _ _) as [v0 r0 | |]; split.
  - destruct (skip_ws r0) eqn:E; [| discriminate].
    intros [= <-]. eauto.
  - intros (r & [= <- <-] & E). rewrite E. reflexivity.
  - discriminate.
  - intros (r & H & _). discriminate.
  - discriminate.
  - intros (r & H & _). discriminate.
Qed.

Lemma json_loads_ok s v :
  json_loads s = Ok v <-> starts_with [65279%N] s = false /\ decode s = Ok v.
Proof.
  unfold json_loads. destruct (starts_with _ s); split;
    try discriminate; try tauto.
  intros [H _]. discriminate.
Qed.

(** [json.loads] accepts a document behind one whitespace character only if
    it accepts the document itself, with the same value. *)
Lemma json_loads_space_head x s v :
  is_space x = true -> json_loads (x :: s) = Ok v -> json_loads s = Ok v.
Proof.
  intros Hx H. apply json_loads_ok in H as [_ H].
  apply decode_ok in H as (r & H & Hr).
  cbn [skip_ws] in H. destruct (is_ws x).
  - rewrite (scan_once_any_fuel (2 * length (x :: s) + 2) s) in H
      by (cbn [length]; lia).
    apply json_loads_ok. split.
    + destruct s as [| c t]; [reflexivity |].
      cbn [starts_with]. destruct (65279 =? c)%N eqn:Ec; [| reflexivity].
      apply N.eqb_eq in Ec. subst c. cbn [skip_ws is_ws] in H.
      cbn in H. discriminate.
    + apply decode_ok. eauto.
  - destruct (scan_once_space_head _ x s v r Hx H).
Qed.

Lemma json_loads_lead w : blank w = true -> forall s v,
  json_loads (w ++ s) = Ok v -> json_loads s = Ok v.
Proof.
  induction w as [| x w IH]; intros Hw s v H; [exact H |].
  apply blank_cons in Hw as [Hx Hw].
  apply IH; [exact Hw |].
  apply (json_loads_space_head x); assumption.
Qed.

Lemma starts_with_app p s w :
  starts_with p s = true -> starts_with p (s ++ w) = true.
Proof.
  revert s. induction p as [| x p IH]; intros [| y s]; cbn; auto;
    try discriminate.
  rewrite !andb_true_iff. intros [-> H]. auto.
Qed.

(** [json.loads] accepts a document followed by whitespace only if it
    accepts the document itself, with the same value. *)
Lemma json_loads_trail w : blank w = true -> forall s v,
  json_loads (s ++ w) = Ok v -> json_loads s = Ok v.
Proof.
  intros Hw s v H. apply json_loads_ok in H as [Hbom H].
  apply decode_ok in H as (r' & H & Hr').
  apply json_loads_ok. split.
  { destruct (starts_with [65279%N] s) eqn:E; [| reflexivity].
    apply starts_with_app with (w := w) in E. congruence. }
  rewrite skip_ws_app in H.
  destruct (skip_ws s) as [| c t] eqn:Es.
  - destruct (scan_once_blank _ _ _ _ (blank_skip_ws _ Hw) H).
  - apply (proj1 (scan_app w Hw _)) in H as (r & -> & H).
    rewrite <- Es in H.
    rewrite (scan_once_any_fuel (2 * length (s ++ w) + 2) s) in H
      by (rewrite length_app; lia).
    apply decode_ok. exists r. split; [exact H |].
    rewrite skip_ws_app in Hr'.
    destruct (skip_ws r); [reflexivity | discriminate].
Qed.

Lemma json_loads_blank w v : blank w = true -> json_loads w <> Ok v.
Proof.
  intros Hw H. rewrite <- (app_nil_l w) in H.
  apply (json_loads_trail w Hw) in H. discriminate.
Qed.

(** ** NDJSON bodies *)

Lemma loads_lines_ok lines records :
  loads_lines lines = Ok records <->
  map json_loads (filter truthy lines) = map Ok records.
Proof.
  revert records. induction lines as [| l ls IH]; intros records;
    cbn [loads_lines filter map].
  - destruct records; cbn; split; congruence.
  - destruct (truthy l); [| apply IH].
    cbn [map]. destruct (json_loads l) as [v | e].
    + destruct (loads_lines ls) as [vs | e].
      * split.
        -- intros [= <-]. cbn [map]. f_equal. apply IH. reflexivity.
        -- destruct records as [| v' vs']; [discriminate |].
           cbn [map]. intros [= <- H]. apply IH in H. congruence.
      * split; [discriminate |].
        destruct records as [| v' vs']; [discriminate |].
        cbn [map]. intros [= _ H]. apply IH in H. discriminate.
    + split; [discriminate |].
      destruct records; discriminate.
Qed.

Lemma json_line_blank l : json_line l -> blank l = true -> l = [].
Proof.
  intros [-> | (v & H)] Hb; [reflexivity |].
  destruct (json_loads_blank l v Hb H).
Qed.

Lemma json_lines_blank ls :
  Forall json_line ls -> forallb blank ls = true -> filter truthy ls = [].
Proof.
  induction 1 as [| l ls Hl _ IH]; [reflexivity |].
  cbn [forallb filter]. rewrite andb_true_iff. intros [Hb Hbs].
  rewrite (json_line_blank l Hl Hb). cbn [truthy]. auto.
Qed.

Lemma truthy_ok l v : json_loads l = Ok v -> truthy l = true.
Proof. destruct l; [discriminate | reflexivity]. Qed.

Lemma json_line_rstrip l :
  json_line l ->
  json_line (rstrip l)
  /\ map json_loads (filter truthy [rstrip l])
     = map json_loads (filter truthy [l]).
Proof.
  intros [-> | (v & H)]; [split; [left |]; reflexivity |].
  destruct (rstrip_split l) as (w & Hw & E).
  assert (H' : json_loads (rstrip l) = Ok v).
  { apply (json_loads_trail w Hw). rewrite <- E. exact H. }
  split; [right; eauto |].
  cbn [filter]. rewrite (truthy_ok _ _ H), (truthy_ok _ _ H').
  cbn [map]. congruence.
Qed.

Lemma json_line_lstrip l :
  json_line l ->
  json_line (lstrip l)
  /\ map json_loads (filter truthy [lstrip l])
     = map json_loads (filter truthy [l]).
Proof.
  intros [-> | (v & H)]; [split; [left |]; reflexivity |].
  destruct (lstrip_split l) as (w & Hw & E).
  assert (H' : json_loads (lstrip l) = Ok v).
  { apply (json_loads_lead w Hw). rewrite <- E. exact H. }
  split; [right; eauto |].
  cbn [filter]. rewrite (truthy_ok _ _ H), (truthy_ok _ _ H').
  cbn [map]. congruence.
Qed.

Lemma filter_cons_app {A} (f : A -> bool) x l :
  filter f (x :: l) = filter f [x] ++ filter f l.
Proof. cbn [filter]. destruct (f x); reflexivity. Qed.

Lemma json_lines_rstrip ls :
  Forall json_line ls ->
  Forall json_line (rstrip_lines ls)
  /\ map json_loads (filter truthy (rstrip_lines ls))
     = map json_loads (filter truthy ls).
Proof.
  induction 1 as [| l ls Hl Hls [IH1 IH2]]; [split; [constructor | reflexivity] |].
  cbn [rstrip_lines]. destruct (forallb blank ls) eqn:Eb.
  - destruct (json_line_rstrip l Hl) as [H1 H2]. split; [auto |].
    rewrite (filter_cons_app truthy l ls), (json_lines_blank ls Hls Eb).
    rewrite app_nil_r. exact H2.
  - split; [auto |].
    rewrite (filter_cons_app truthy l (rstrip_lines ls)),
      (filter_cons_app truthy l ls), !map_app, IH2. reflexivity.
Qed.

Lemma json_lines_lstrip ls :
  Forall json_line ls ->
  Forall json_line (lstrip_lines ls)
  /\ map json_loads (filter truthy (lstrip_lines ls))
     = map json_loads (filter truthy ls).
Proof.
  induction 1 as [| l ls Hl Hls [IH1 IH2]].
  - split; [repeat constructor |]; reflexivity.
  - cbn [lstrip_lines]. destruct (blank l) eqn:Eb.
    + rewrite (json_line_blank l Hl Eb). cbn [filter truthy]. auto.
    + destruct (json_line_lstrip l Hl) as [H1 H2]. split; [auto |].
      rewrite (filter_cons_app truthy (lstrip l) ls),
        (filter_cons_app truthy l ls), !map_app, H2. reflexivity.
Qed.

(** Stripping an NDJSON body neither adds nor loses a document. *)
Lemma json_lines_strip body :
  Forall json_line (split 10%N body) ->
  map json_loads (filter truthy (split 10%N (strip body)))
  = map json_loads (filter truthy (split 10%N body)).
Proof.
  intros H. unfold strip. rewrite split_lstrip, split_rstrip.
  destruct (json_lines_rstrip _ H) as [H1 H2].
  destruct (json_lines_lstrip _ H1) as [_ H3].
  congruence.
Qed.

(** *** Malformed lines *)

Lemma json_loads_strip l v : json_loads l = Ok v -> json_loads (strip l) = Ok v.
Proof.
  intros H. unfold strip.
  destruct (rstrip_split l) as (w & Hw & E).
  destruct (lstrip_split (rstrip l)) as (w' & Hw' & E').
  apply (json_loads_lead w' Hw'). rewrite <- E'.
  apply (json_loads_trail w Hw). rewrite <- E. exact H.
Qed.

Lemma malformed_rejected l :
  malformed l -> truthy l = true /\ forall v, json_loads l <> Ok v.
Proof.
  intros [Hb Hr]. split.
  - destruct l; [discriminate | reflexivity].
  - intros v H. exact (Hr v (json_loads_strip l v H)).
Qed.

Lemma malformed_rstrip l : malformed l -> malformed (rstrip l).
Proof.
  intros [Hb Hr]. split.
  - rewrite blank_rstrip. exact Hb.
  - rewrite strip_rstrip. exact Hr.
Qed.

Lemma malformed_lstrip l : malformed l -> malformed (lstrip l).
Proof.
  intros [Hb Hr]. split.
  - rewrite blank_lstrip. exact Hb.
  - rewrite strip_lstrip. exact Hr.
Qed.

Lemma malformed_rstrip_lines ls :
  Exists malformed ls -> Exists malformed (rstrip_lines ls).
Proof.
  induction ls as [| l ls IH]; intros H; [inversion H |].
  cbn [rstrip_lines]. destruct (forallb blank ls) eqn:Eb.
  - apply Exists_cons in H as [H | H].
    + constructor. apply malformed_rstrip, H.
    + apply Exists_exists in H as (x & Hx & [Hb _]).
      rewrite forallb_forall in Eb. rewrite (Eb x Hx) in Hb. discriminate.
  - apply Exists_cons in H as [H | H]; [left; exact H | right; auto].
Qed.

Lemma malformed_lstrip_lines ls :
  Exists malformed ls -> Exists malformed (lstrip_lines ls).
Proof.
  induction ls as [| l ls IH]; intros H; [inversion H |].
  cbn [lstrip_lines]. destruct (blank l) eqn:Eb.
  - apply Exists_cons in H as [[Hb _] | H]; [congruence | auto].
  - apply Exists_cons in H as [H | H].
    + left. apply malformed_lstrip, H.
    + right. exact H.
Qed.

(** A malformed line of the body is still there, malformed, once the body
    is stripped. *)
Lemma malformed_strip body :
  Exists malformed (split 10%N body) ->
  Exists malformed (split 10%N (strip body)).
Proof.
  intros H. unfold strip. rewrite split_lstrip, split_rstrip.
  apply malformed_lstrip_lines, malformed_rstrip_lines, H.
Qed.

(** The list comprehension raises at the first line [json.loads] rejects:
    the error is the decoder's, about one of the lines. *)
Lemma loads_lines_raises lines :
  Exists (fun l => truthy l = true /\ forall v, json_loads l <> Ok v) lines ->
  exists msg doc pos,
    loads_lines lines = Raise (JSONDecodeError msg doc pos)
    /\ In doc lines
    /\ json_loads doc = Raise (JSONDecodeError msg doc pos).
Proof.
  induction lines as [| l ls IH]; intros H; [inversion H |].
  cbn [loads_lines].
  destruct (truthy l) eqn:Et.
  - destruct (json_loads l) as [v | e] eqn:El.
    + apply Exists_cons in H as [[_ H] | H]; [destruct (H v El) |].
      destruct (IH H) as (msg & doc & pos & -> & Hin & Hd).
      exists msg, doc, pos. cbn [In]. auto.
    + destruct (json_loads_error l e El) as (msg & pos & ->).
      exists msg, l, pos. cbn [In]. auto.
  - apply Exists_cons in H as [[H _] | H]; [congruence |].
    destruct (IH H) as (msg & doc & pos & -> & Hin & Hd).
    exists msg, doc, pos. cbn [In]. auto.
Qed.

(** ** The handler's loop *)

Lemma fetch_activities_log start_iso end_iso limit log :
  fetch_activities start_iso end_iso limit log
  = (fetch_result start_iso end_iso limit,
     log ++ [Get (activity_request start_iso end_iso limit)]).
Proof.
  unfold fetch_result, fetch_activities.
  destruct (negb _); reflexivity.
Qed.

Lemma days_from_S current_start n :
  days_from current_start (S n)
  = (current_start, (current_start + timedelta_days 1)%Z)
      :: days_from (current_start + timedelta_days 1)%Z n.
Proof.
  unfold days_from. cbn [seq map]. f_equal.
  - f_equal; unfold timedelta_days; cbn; lia.
  - rewrite <- seq_shift, map_map. apply map_ext. intros k.
    unfold timedelta_days. f_equal; lia.
Qed.

(** The [while] loop runs the day batches in order: when [n] whole days
    separate [current_start] from [end_date], it is [run_batches] over
    these [n] days. *)
Lemma batch_loop_days n : forall end_date current_start all_records log,
  (end_date - current_start = timedelta_days (Z.of_nat n))%Z ->
  batch_loop end_date current_start all_records log
  = run_batches (days_from current_start n) all_records log.
Proof.
  induction n as [| n IH]; intros end_date current_start all_records log Hn.
  - rewrite batch_loop_equation_1.
    destruct (Z_lt_dec current_start end_date) as [Hlt | Hge].
    + unfold timedelta_days in Hn. cbn in Hn. lia.
    + reflexivity.
  - rewrite batch_loop_equation_1, days_from_S.
    assert (Hmin : Z.min (current_start + timedelta_days batch_size_days)
                     end_date
                   = (current_start + timedelta_days 1)%Z).
    { unfold batch_size_days, timedelta_days, microseconds_per_day in *.
      lia. }
    destruct (Z_lt_dec current_start end_date) as [Hlt | Hge].
    + cbn [batch_loop_unfold_clause_1 run_batches fst snd].
      rewrite Hmin, !fetch_activities_log.
      destruct (fetch_result _ _ _) as [batch_records | e].
      * rewrite batch_loop_clause_1_clause_2_equation_1, Hmin.
        apply IH. unfold timedelta_days, microseconds_per_day in *. lia.
      * rewrite batch_loop_clause_1_clause_2_equation_2. reflexivity.
    + unfold timedelta_days, microseconds_per_day in Hn. lia.
Qed.

(** ** Fetching a batch *)

Lemma starts_with_spec p : forall s,
  starts_with p s = true <-> exists post, s = p ++ post.
Proof.
  induction p as [| x p IH]; intros s; cbn [starts_with].
  - split; [intros _; exists s; reflexivity | reflexivity].
  - destruct s as [| y s].
    + split; [discriminate | intros (post & H); discriminate].
    + rewrite andb_true_iff, N.eqb_eq, IH. split.
      * intros [-> (post & ->)]. exists post. reflexivity.
      * intros (post & [= -> ->]). split; [reflexivity | exists post; reflexivity].
Qed.

Lemma contains_spec needle : forall hay,
  contains needle hay = true <-> occurs_in needle hay.
Proof.
  unfold occurs_in.
  induction hay as [| c hay IH]; cbn [contains]; rewrite orb_true_iff.
  - rewrite starts_with_spec. split.
    + intros [(post & H) | H]; [exists [], post; exact H | discriminate].
    + intros (pre & post & H). left.
      destruct pre; [eauto | discriminate].
  - rewrite starts_with_spec, IH. split.
    + intros [(post & H) | (pre & post & H)].
      * exists [], post. exact H.
      * exists (c :: pre), post. cbn [app]. congruence.
    + intros ([| x pre] & post & H).
      * left. eauto.
      * right. injection H as -> H. eauto.
Qed.

Lemma strings_of_member d k t :
  dict_get d k = Some (JStr t) -> In t (strings_of (JObj d)).
Proof.
  cbn [strings_of]. induction d as [| [k' x] d IH];
    cbn [dict_get]; [discriminate |].
  destruct (Str.eqb k' k).
  - intros [= ->]. cbn [strings_of app In]. auto.
  - intros H. right. apply in_or_app. right. apply IH, H.
Qed.

Lemma mentions_shown payload status url_ body :
  shows_http_error payload status url_ body ->
  mentions payload (of_Z status) /\ mentions payload url_
  /\ mentions payload body.
Proof.
  intros (message & Hm & Hs & Hu & Hb).
  destruct payload as [| | | | | | d]; try discriminate. cbn [field] in *.
  apply strings_of_member in Hm, Hb.
  repeat split.
  - exists message. auto.
  - exists message. auto.
  - exists body. split; [exact Hb |]. exists [], []. rewrite app_nil_r.
    reflexivity.
Qed.

Lemma strip_blank s : blank s = true -> strip s = [].
Proof.
  intros H. unfold strip. apply rstrip_nil in H. rewrite H. reflexivity.
Qed.

Lemma fetch_result_eq start_iso end_iso limit :
  fetch_result start_iso end_iso limit
  = let response :=
      requests_get (activity_request start_iso end_iso limit) in
    if negb (status_code response =? 200)%Z
    then Raise (ValueError (error_payload response))
    else loads_lines (split 10%N (strip (text response))).
Proof.
  unfold fetch_result, fetch_activities. cbv zeta.
  destruct (negb _); reflexivity.
Qed.

Lemma error_payload_shows response :
  shows_http_error (error_payload response) (status_code response)
    (url response) (text response).
Proof.
  exists (of_Z (status_code response)
            ++ lit " Client Error for URL: " ++ url response).
  repeat split.
  - exists [], (lit " Client Error for URL: " ++ url response). reflexivity.
  - exists (of_Z (status_code response) ++ lit " Client Error for URL: "), [].
    rewrite app_nil_r, <- app_assoc. reflexivity.
Qed.

Lemma loads_lines_error lines e :
  loads_lines lines = Raise e ->
  exists msg doc pos, e = JSONDecodeError msg doc pos.
Proof.
  induction lines as [| l ls IH]; cbn [loads_lines]; [discriminate |].
  destruct (truthy l); [| exact IH].
  destruct (json_loads l) as [v | e'] eqn:El.
  - destruct (loads_lines ls) as [vs | e'']; [discriminate |].
    intros [= <-]. apply IH. reflexivity.
  - intros [= <-]. destruct (json_loads_error l e' El) as (msg & pos & ->).
    eauto.
Qed.

Lemma map_Ok_Forall2 {A} (f : A -> result json) l records :
  map f l = map Ok records <-> Forall2 (fun x v => f x = Ok v) l records.
Proof.
  revert records. induction l as [| x l IH]; intros [| v records];
    cbn [map]; split; intros H; try discriminate; try (inversion H; fail).
  - constructor.
  - reflexivity.
  - injection H as H1 H2. constructor; [exact H1 | apply IH, H2].
  - inversion H; subst. f_equal; [assumption | apply IH; assumption].
Qed.

(** C5.  On a 200 response whose body is NDJSON (each line is empty or a
    JSON document), [fetch_activities] returns one record per non-empty line
    of the body: the value [json.loads] gives for that line, in the order of
    the lines. *)
Theorem fetch_ndjson_records start_iso end_iso limit log :
  let response := requests_get (activity_request start_iso end_iso limit) in
  status_code response = 200%Z ->
  Forall json_line (split 10%N (text response)) ->
  exists records,
    fst (fetch_activities start_iso end_iso limit log) = Ok records
    /\ Forall2 (fun line record => json_loads line = Ok record)
         (filter truthy (split 10%N (text response))) records.
Proof.
  intros response Hstatus Hbody.
  rewrite fetch_activities_log, fetch_result_eq. cbn [fst]. cbv zeta.
  fold response. rewrite Hstatus. cbn [Z.eqb Pos.eqb negb].
  pose proof (json_lines_strip (text response) Hbody) as Hstrip.
  assert (Hok : exists records,
             map json_loads (filter truthy (split 10%N (text response)))
             = map Ok records).
  { clear Hstrip. induction Hbody as [| l ls Hl _ (records & IH)].
    - exists []. reflexivity.
    - cbn [filter]. destruct Hl as [-> | (v & Hv)].
      + cbn [truthy]. eauto.
      + rewrite (truthy_ok l v Hv). exists (v :: records).
        cbn [map]. congruence. }
  destruct Hok as (records & Hrecords). exists records. split.
  - apply loads_lines_ok. congruence.
  - apply map_Ok_Forall2. exact Hrecords.
Qed.

(** C6.  On a status other than 200, [fetch_activities] raises a
    [ValueError] and returns no records; the dict it carries has the status
    code and the URL of the response in its message and the raw body as
    its [response] member.  On a 200 response it raises no [ValueError]
    carrying a dict (it raises at most the decoder's error). *)
Theorem fetch_error_payload start_iso end_iso limit log :
  let response := requests_get (activity_request start_iso end_iso limit) in
  (status_code response <> 200%Z ->
   fst (fetch_activities start_iso end_iso limit log)
   = Raise (ValueError (error_payload response))
   /\ shows_http_error (error_payload response) (status_code response)
        (url response) (text response))
  /\ (status_code response = 200%Z ->
      forall payload,
        fst (fetch_activities start_iso end_iso limit log)
        <> Raise (ValueError payload)).
Proof.
  intros response. rewrite fetch_activities_log, fetch_result_eq.
  cbn [fst]. cbv zeta. fold response. split.
  - intros Hstatus. apply Z.eqb_neq in Hstatus. rewrite Hstatus.
    split; [reflexivity | apply error_payload_shows].
  - intros Hstatus payload. rewrite Hstatus. cbn [Z.eqb Pos.eqb negb].
    intros H. apply loads_lines_error in H as (msg & doc & pos & H).
    discriminate.
Qed.

(** C10.  On a 200 response whose body is empty or whitespace only,
    [fetch_activities] returns the empty list of records; no parse error is
    raised. *)
Theorem fetch_blank_body start_iso end_iso limit log :
  let response := requests_get (activity_request start_iso end_iso limit) in
  status_code response = 200%Z ->
  blank (text response) = true ->
  fst (fetch_activities start_iso end_iso limit log) = Ok [].
Proof.
  intros response Hstatus Hblank.
  rewrite fetch_activities_log, fetch_result_eq. cbn [fst]. cbv zeta.
  fold response. rewrite Hstatus, (strip_blank _ Hblank). reflexivity.
Qed.

(** The list comprehension stops at the first line [json.loads] does not
    accept, with the error [json.loads] raises on that line; the lines
    before it are empty or were decoded. *)
Lemma loads_lines_first lines :
  Exists rejected lines ->
  exists pre doc post e,
    lines = pre ++ doc :: post
    /\ Forall json_line pre
    /\ rejected doc
    /\ json_loads doc = Raise e
    /\ loads_lines lines = Raise e.
Proof.
  induction lines as [| l ls IH]; intros H; [inversion H |].
  cbn [loads_lines]. destruct (truthy l) eqn:Et.
  - destruct (json_loads l) as [v | e] eqn:El.
    + apply Exists_cons in H as [[_ H] | H]; [destruct (H v El) |].
      destruct (IH H) as (pre & doc & post & e & -> & Hpre & Hdoc & He & ->).
      exists (l :: pre), doc, post, e. split; [reflexivity |].
      split; [constructor; [right; exists v; exact El | exact Hpre] |].
      auto.
    + exists [], l, ls, e. split; [reflexivity |]. split; [constructor |].
      split; [| auto]. split; [exact Et |].
      intros v Hv. rewrite El in Hv. discriminate.
  - apply Exists_cons in H as [[H _] | H]; [congruence |].
    destruct (IH H) as (pre & doc & post & e & -> & Hpre & Hdoc & He & ->).
    exists (l :: pre), doc, post, e. split; [reflexivity |].
    split; [constructor; [left; destruct l; [reflexivity | discriminate]
                         | exact Hpre] |].
    auto.
Qed.

(** A 200 response with a rejected line in its stripped body: the fetch
    raises what [json.loads] raises on the first such line, and returns no
    records. *)
Lemma fetch_rejected start_iso end_iso limit :
  let response := requests_get (activity_request start_iso end_iso limit) in
  status_code response = 200%Z ->
  Exists rejected (split 10%N (strip (text response))) ->
  exists pre doc post e,
    split 10%N (strip (text response)) = pre ++ doc :: post
    /\ Forall json_line pre
    /\ rejected doc
    /\ json_loads doc = Raise e
    /\ fetch_result start_iso end_iso limit = Raise e.
Proof.
  intros response Hstatus Hbad. rewrite fetch_result_eq. cbv zeta.
  fold response. rewrite Hstatus. cbn [Z.eqb Pos.eqb negb].
  apply loads_lines_first, Hbad.
Qed.

(** A malformed line of the body gives a rejected line of the stripped
    body. *)
Lemma malformed_rejected_lines body :
  Exists malformed (split 10%N body) ->
  Exists rejected (split 10%N (strip body)).
Proof.
  intros H. apply malformed_strip in H.
  apply Exists_exists in H as (l & Hin & Hl).
  apply Exists_exists. exists l. split; [exact Hin |].
  apply malformed_rejected, Hl.
Qed.

(** ** The batches of an invocation *)

Lemma requests_of_app a b : requests_of (a ++ b) = requests_of a ++ requests_of b.
Proof. apply flat_map_app. Qed.

Lemma run_batches_cons w ws all_records log :
  run_batches (w :: ws) all_records log
  = match fetch_window w with
    | Ok batch_records =>
        run_batches ws (all_records ++ batch_records)
          (log ++ [Get (window_request w);
                   Print (batch_line (iso_millis (fst w)) (iso_millis (snd w))
                            (length batch_records))])
    | Raise e =>
        (inl (if is_ValueError e then Reply (args0 e) 500 else Uncaught e),
         log ++ [Get (window_request w)])
    end.
Proof.
  cbn [run_batches]. rewrite fetch_activities_log.
  unfold fetch_window, window_request.
  destruct (fetch_result _ _ _) as [batch_records | e].
  - rewrite <- app_assoc. reflexivity.
  - destruct (is_ValueError e); reflexivity.
Qed.

(** The loop stops at the first batch whose fetch raises: a [ValueError]
    becomes the 500 reply, any other exception leaves the handler; the
    batches before it were requested in order, and none after it. *)
Lemma run_batches_raise pre w post e : forall all_records log,
  Forall fetched pre ->
  fetch_window w = Raise e ->
  exists trace,
    run_batches (pre ++ w :: post) all_records log
    = (inl (if is_ValueError e then Reply (args0 e) 500 else Uncaught e),
       log ++ trace)
    /\ requests_of trace = map window_request (pre ++ [w])
    /\ existsb is_stage_call trace = false.
Proof.
  induction pre as [| x pre IH]; intros all_records log Hpre Hw.
  - cbn [app]. rewrite run_batches_cons, Hw.
    exists [Get (window_request w)]. auto.
  - inversion Hpre as [| ? ? (batch_records & Hx) Hpre']; subst.
    cbn [app]. rewrite run_batches_cons, Hx.
    destruct (IH (all_records ++ batch_records)
                (log ++ [Get (window_request x);
                         Print (batch_line (iso_millis (fst x))
                                  (iso_millis (snd x))
                                  (length batch_records))]) Hpre' Hw)
      as (trace & -> & Hreq & Hstage).
    eexists. rewrite <- app_assoc. split; [reflexivity |]. split.
    + cbn [app requests_of flat_map map]. fold (requests_of trace).
      rewrite Hreq. reflexivity.
    + cbn [app existsb is_stage_call orb]. exact Hstage.
Qed.

(** When every fetch returns, the loop requests every batch, in order. *)
Lemma run_batches_return ws : forall all_records log,
  Forall fetched ws ->
  exists records trace,
    run_batches ws all_records log = (inr records, log ++ trace)
    /\ requests_of trace = map window_request ws
    /\ existsb is_stage_call trace = false.
Proof.
  induction ws as [| w ws IH]; intros all_records log Hws.
  - exists all_records, []. rewrite app_nil_r. auto.
  - inversion Hws as [| ? ? (batch_records & Hw) Hws']; subst.
    rewrite run_batches_cons, Hw.
    destruct (IH (all_records ++ batch_records)
                (log ++ [Get (window_request w);
                         Print (batch_line (iso_millis (fst w))
                                  (iso_millis (snd w))
                                  (length batch_records))]) Hws')
      as (records & trace & -> & Hreq & Hstage).
    eexists _, _. rewrite <- app_assoc. split; [reflexivity |]. split.
    + cbn [app requests_of flat_map map]. fold (requests_of trace).
      rewrite Hreq. reflexivity.
    + cbn [app existsb is_stage_call orb]. exact Hstage.
Qed.

(** In any case the requests of the loop are those of the first batches,
    in order. *)
Lemma run_batches_prefix ws : forall all_records log,
  exists k trace,
    k <= length ws
    /\ snd (run_batches ws all_records log) = log ++ trace
    /\ requests_of trace = firstn k (map window_request ws)
    /\ existsb is_stage_call trace = false.
Proof.
  induction ws as [| w ws IH]; intros all_records log.
  - exists 0, []. rewrite app_nil_r. auto.
  - rewrite run_batches_cons.
    destruct (fetch_window w) as [batch_records | e].
    + destruct (IH (all_records ++ batch_records)
                  (log ++ [Get (window_request w);
                           Print (batch_line (iso_millis (fst w))
                                    (iso_millis (snd w))
                                    (length batch_records))]))
        as (k & trace & Hk & -> & Hreq & Hstage).
      exists (S k). eexists. rewrite <- app_assoc.
      split; [cbn [length]; lia |]. split; [reflexivity |]. split.
      * cbn [app requests_of flat_map map firstn]. fold (requests_of trace).
        rewrite Hreq. reflexivity.
      * cbn [app existsb is_stage_call orb]. exact Hstage.
    + exists 1, [Get (window_request w)]. cbn [length snd].
      split; [lia |]. auto.
Qed.

Lemma days_from_windows now :
  days_from (now - timedelta_days 90)%Z 90 = windows now.
Proof. reflexivity. Qed.

Lemma handler_loop now log :
  batch_loop now (now - timedelta_days 90)%Z [] log
  = run_batches (windows now) [] log.
Proof.
  rewrite <- days_from_windows. apply batch_loop_days.
  unfold timedelta_days. lia.
Qed.

Lemma windows_nth now k :
  k < 90 -> nth_error (windows now) k = Some (window now k).
Proof.
  intros Hk. unfold windows.
  rewrite nth_error_map, nth_error_seq.
  destruct (Nat.ltb_spec k 90); [reflexivity | lia].
Qed.

Lemma windows_firstn now k :
  k <= 90 -> firstn k (windows now) = map (window now) (seq 0 k).
Proof.
  intros Hk.
  assert (E : seq 0 90 = seq 0 k ++ seq k (90 - k)).
  { rewrite <- seq_app. f_equal. lia. }
  unfold windows. rewrite firstn_map, E. f_equal.
  rewrite firstn_app, length_seq, Nat.sub_diag, firstn_O, app_nil_r.
  apply firstn_all2. rewrite length_seq. lia.
Qed.

Lemma windows_split now k :
  k < 90 ->
  windows now
  = map (window now) (seq 0 k) ++ window now k
      :: map (window now) (seq (S k) (90 - S k)).
Proof.
  intros Hk.
  assert (E : seq 0 90 = seq 0 k ++ seq k (S (90 - S k))).
  { rewrite <- seq_app. f_equal. lia. }
  unfold windows. rewrite E, map_app. reflexivity.
Qed.

(** The handler when the fetch of batch [k] raises, the earlier ones having
    returned. *)
Lemma handler_raise now log k e :
  k < 90 ->
  (forall j, j < k -> fetched (window now j)) ->
  fetch_window (window now k) = Raise e ->
  exists trace,
    adsim_activity_etl now log
    = (if is_ValueError e then Reply (args0 e) 500 else Uncaught e,
       log ++ trace)
    /\ requests_of trace
       = map window_request (firstn (S k) (windows now))
    /\ existsb is_stage_call trace = false.
Proof.
  intros Hk Hbefore Hraise.
  destruct (run_batches_raise (map (window now) (seq 0 k)) (window now k)
              (map (window now) (seq (S k) (90 - S k))) e [] log)
    as (trace & Hrun & Hreq & Hstage).
  - apply Forall_forall. intros w Hw. apply in_map_iff in Hw as (j & <- & Hj).
    apply in_seq in Hj. apply Hbefore. lia.
  - exact Hraise.
  - rewrite <- (windows_split now k Hk) in Hrun.
    exists trace. unfold adsim_activity_etl. cbv zeta.
    rewrite handler_loop, Hrun.
    split; [destruct (is_ValueError e); reflexivity |].
    split; [| exact Hstage].
    rewrite Hreq, (windows_firstn now (S k)) by lia.
    rewrite seq_S, !map_app. reflexivity.
Qed.

(** The loop either stops at a first batch whose fetch raises, or fetches
    every batch. *)
Lemma run_batches_cases ws : forall all_records log,
  (exists pre w post e,
      ws = pre ++ w :: post /\ Forall fetched pre
      /\ fetch_window w = Raise e
      /\ fst (run_batches ws all_records log)
         = inl (if is_ValueError e then Reply (args0 e) 500 else Uncaught e))
  \/ (Forall fetched ws
      /\ exists batches,
           Forall2 (fun w b => fetch_window w = Ok b) ws batches
           /\ fst (run_batches ws all_records log)
              = inr (all_records ++ concat batches)).
Proof.
  induction ws as [| w ws IH]; intros all_records log.
  - right. split; [constructor |]. exists []. split; [constructor |].
    cbn. rewrite app_nil_r. reflexivity.
  - rewrite run_batches_cons.
    destruct (fetch_window w) as [b | e] eqn:Ew.
    + destruct (IH (all_records ++ b)
                  (log ++ [Get (window_request w);
                           Print (batch_line (iso_millis (fst w))
                                    (iso_millis (snd w)) (length b))]))
        as [(pre & x & post & e & -> & Hpre & Hx & Hrun)
           | (Hall & batches & Hb & Hrun)].
      * left. exists (w :: pre), x, post, e. split; [reflexivity |].
        split; [constructor; [exists b; exact Ew | exact Hpre] |]. auto.
      * right. split; [constructor; [exists b; exact Ew | exact Hall] |].
        exists (b :: batches). split; [constructor; assumption |].
        rewrite Hrun. cbn [concat]. rewrite app_assoc. reflexivity.
    + left. exists [], w, ws, e. split; [reflexivity |].
      split; [constructor |]. split; [exact Ew |].
      destruct (is_ValueError e); reflexivity.
Qed.

Lemma windows_prefix now pre w post :
  windows now = pre ++ w :: post ->
  length pre < 90 /\ w = window now (length pre)
  /\ forall j, j < length pre -> In (window now j) pre.
Proof.
  intros E.
  assert (Hlen : length pre < 90).
  { apply (f_equal (@length _)) in E.
    rewrite length_app in E. cbn [length] in E.
    change (length (windows now)) with 90 in E. lia. }
  split; [exact Hlen |]. split.
  - pose proof (windows_nth now (length pre) Hlen) as H.
    rewrite E, nth_error_app2, Nat.sub_diag in H by lia.
    injection H as ->. reflexivity.
  - intros j Hj. pose proof (windows_nth now j ltac:(lia)) as H.
    rewrite E, nth_error_app1 in H by exact Hj.
    apply nth_error_In in H. exact H.
Qed.

Lemma load_to_bigquery_requests df table_id log :
  requests_of (snd (load_to_bigquery df table_id log)) = requests_of log.
Proof.
  unfold load_to_bigquery. destruct (empty df); [reflexivity |].
  destruct (load_table_from_dataframe df table_id); cbn [snd];
    rewrite requests_of_app; cbn; apply app_nil_r.
Qed.

Lemma handler_log now log :
  requests_of (snd (adsim_activity_etl now log))
  = requests_of (snd (run_batches (windows now) [] log)).
Proof.
  unfold adsim_activity_etl. cbv zeta. rewrite handler_loop.
  destruct (run_batches (windows now) [] log) as [[reply | records] log'];
    [reflexivity |].
  cbn [snd]. destruct (transform records) as [df |].
  - pose proof (load_to_bigquery_requests df default_table_id
                  (log' ++ [Transform records])) as H.
    destruct (load_to_bigquery _ _ _) as [[load_result | e] log''];
      cbn [snd] in *; rewrite H, requests_of_app; cbn; apply app_nil_r.
  - cbn [snd]. rewrite requests_of_app. cbn. apply app_nil_r.
Qed.

Lemma window_bounds now k :
  fst (window now k)
  = (now - timedelta_days 90 + Z.of_nat k * microseconds_per_day)%Z
  /\ snd (window now k)
     = (now - timedelta_days 90 + (Z.of_nat k + 1) * microseconds_per_day)%Z.
Proof.
  unfold window, timedelta_days. cbn [fst snd]. split; [reflexivity |].
  f_equal. lia.
Qed.

(** C4, as the code has it.  The window of an invocation,
    [now - 90 days, now), is cut into 90 windows of one day each, every one
    starting where the one before it ends, so that they neither overlap nor
    leave a gap and every instant of the window lies in one of them.  The
    handler requests them in this order, one request per window, up to and
    including the first one whose fetch raises: when the fetch of window [k]
    is the first to raise, the requests are exactly those of the windows
    0 to [k]; when no fetch raises, all 90 are requested.  One of the two is
    the case in every invocation. *)
Theorem day_windows_fetched_in_order now log :
  length (windows now) = 90
  /\ fst (window now 0) = (now - timedelta_days 90)%Z
  /\ snd (window now 89) = now
  /\ (forall k, (snd (window now k) - fst (window now k))%Z = timedelta_days 1)
  /\ (forall k, snd (window now k) = fst (window now (S k)))
  /\ (forall j k, j < k -> (snd (window now j) <= fst (window now k))%Z)
  /\ (forall t, (now - timedelta_days 90 <= t < now)%Z ->
        exists k, k < 90
                  /\ (fst (window now k) <= t < snd (window now k))%Z)
  /\ (exists k,
        1 <= k <= 90
        /\ requests_of (snd (adsim_activity_etl now log))
           = requests_of log ++ firstn k (map window_request (windows now)))
  /\ (Forall fetched (windows now) ->
      requests_of (snd (adsim_activity_etl now log))
      = requests_of log ++ map window_request (windows now))
  /\ (forall k e,
        k < 90 ->
        (forall j, j < k -> fetched (window now j)) ->
        fetch_window (window now k) = Raise e ->
        requests_of (snd (adsim_activity_etl now log))
        = requests_of log
            ++ map window_request (firstn (S k) (windows now)))
  /\ (Forall fetched (windows now)
      \/ exists k e,
           k < 90
           /\ (forall j, j < k -> fetched (window now j))
           /\ fetch_window (window now k) = Raise e).
Proof.
  split; [reflexivity |]. split; [| split; [| split; [| split;
    [reflexivity | split; [| split; [| split; [| split; [| split]]]]]]]].
  - destruct (window_bounds now 0) as [-> _]. cbn. lia.
  - destruct (window_bounds now 89) as [_ ->].
    unfold timedelta_days, microseconds_per_day. lia.
  - intros k. destruct (window_bounds now k) as [-> ->].
    unfold timedelta_days. lia.
  - intros j k Hjk. destruct (window_bounds now j) as [_ ->].
    destruct (window_bounds now k) as [-> _].
    unfold microseconds_per_day. lia.
  - intros t Ht.
    exists (Z.to_nat ((t - (now - timedelta_days 90)) / microseconds_per_day)).
    destruct (window_bounds now (Z.to_nat ((t - (now - timedelta_days 90))
                                           / microseconds_per_day)))
      as [E1 E2].
    pose proof (Z.div_mod (t - (now - timedelta_days 90))
                  microseconds_per_day ltac:(discriminate)) as Hdiv.
    pose proof (Z.mod_pos_bound (t - (now - timedelta_days 90))
                  microseconds_per_day ltac:(reflexivity)) as Hmod.
    assert (Hq : (0 <= (t - (now - timedelta_days 90))
                        / microseconds_per_day < 90)%Z).
    { unfold timedelta_days, microseconds_per_day in *. split.
      - apply Z.div_pos; lia.
      - apply Z.div_lt_upper_bound; lia. }
    rewrite Z2Nat.id in E1, E2 by lia.
    repeat split; [lia | rewrite E1 | rewrite E2];
      unfold timedelta_days, microseconds_per_day in *; lia.
  - rewrite handler_log.
    destruct (run_batches_prefix (windows now) [] log)
      as (k & trace & Hk & Hsnd & Hreq & _).
    destruct k as [| k].
    + destruct (fetch_window (window now 0)) as [batch_records | e] eqn:E0;
        change (windows now)
          with (window now 0 :: map (window now) (seq 1 89)) in Hsnd;
        rewrite run_batches_cons, E0 in Hsnd.
      * destruct (run_batches_prefix (map (window now) (seq 1 89))
                    ([] ++ batch_records)
                    (log ++ [Get (window_request (window now 0));
                             Print (batch_line
                                      (iso_millis (fst (window now 0)))
                                      (iso_millis (snd (window now 0)))
                                      (length batch_records))]))
          as (k' & trace' & _ & Hsnd' & _).
        rewrite Hsnd', <- app_assoc in Hsnd. apply app_inv_head in Hsnd.
        subst trace. discriminate.
      * cbn [snd] in Hsnd. apply app_inv_head in Hsnd. subst trace.
        discriminate.
    + exists (S k). change (length (windows now)) with 90 in Hk.
      split; [lia |].
      rewrite Hsnd, requests_of_app, Hreq. reflexivity.
  - intros Hall. rewrite handler_log.
    destruct (run_batches_return (windows now) [] log Hall)
      as (records & trace & -> & Hreq & _).
    cbn [snd]. rewrite requests_of_app, Hreq. reflexivity.
  - intros k e Hk Hbefore Hraise.
    destruct (handler_raise now log k e Hk Hbefore Hraise)
      as (trace & -> & Hreq & _).
    cbn [snd]. rewrite requests_of_app, Hreq. reflexivity.
  - destruct (run_batches_cases (windows now) [] log)
      as [(pre & w & post & e & E & Hpre & Hw & _) | (Hall & _)];
      [right | left; exact Hall].
    destruct (windows_prefix now pre w post E) as (Hk & -> & Hin).
    exists (length pre), e. split; [exact Hk |]. split; [| exact Hw].
    intros j Hj. rewrite Forall_forall in Hpre. apply Hpre, Hin, Hj.
Qed.

(** C8.  When the fetch of a batch raises (those before it having
    returned), the handler has sent the requests of the batches up to that
    one and no other, and has called neither [transform] nor the warehouse:
    the records of the earlier batches go nowhere.  When what the fetch
    raised is a [ValueError] (the one [fetch_activities] makes on a status
    other than 200, or the decoder's), the handler replies 500 with the
    payload of the error ([e.args[0]]); the [except] clause catches nothing
    else, so any other exception leaves the handler. *)
Theorem handler_aborts_on_fetch_error now log k e :
  k < 90 ->
  (forall j, j < k -> fetched (window now j)) ->
  fetch_window (window now k) = Raise e ->
  exists trace,
    snd (adsim_activity_etl now log) = log ++ trace
    /\ requests_of trace = map window_request (firstn (S k) (windows now))
    /\ existsb is_stage_call trace = false
    /\ (is_ValueError e = true ->
        fst (adsim_activity_etl now log) = Reply (args0 e) 500)
    /\ (is_ValueError e = false ->
        fst (adsim_activity_etl now log) = Uncaught e).
Proof.
  intros Hk Hbefore Hraise.
  destruct (handler_raise now log k e Hk Hbefore Hraise)
    as (trace & -> & Hreq & Hstage).
  exists trace. cbn [fst snd].
  split; [reflexivity |]. split; [exact Hreq |]. split; [exact Hstage |].
  split; intros ->; reflexivity.
Qed.

(** C2, as the code has it.  When the response of a batch has status 200
    and its body, stripped and split into lines, has a line that is not
    empty and that [json.loads] does not accept, the fetch raises what
    [json.loads] raises on the first such line (the lines before it are
    empty or were decoded) and returns no records; the handler has sent the
    requests up to that batch and called neither [transform] nor the
    warehouse.  A [ValueError] is answered with a 500 reply whose payload is
    [args[0]] of the error, and anything else leaves the handler.  For the
    decoder's error the payload is the decoder's message, a string that
    names the place of the error in that line: it is no dict, so it has
    neither the member with the raw body nor the one with the status code
    and the URL, which only the error of a status other than 200 has. *)
Theorem handler_reports_decode_error now log k :
  let response := requests_get (window_request (window now k)) in
  k < 90 ->
  (forall j, j < k -> fetched (window now j)) ->
  status_code response = 200%Z ->
  Exists rejected (split 10%N (strip (text response))) ->
  exists pre doc post e trace,
    split 10%N (strip (text response)) = pre ++ doc :: post
    /\ Forall json_line pre
    /\ rejected doc
    /\ json_loads doc = Raise e
    /\ fetch_window (window now k) = Raise e
    /\ snd (adsim_activity_etl now log) = log ++ trace
    /\ requests_of trace = map window_request (firstn (S k) (windows now))
    /\ existsb is_stage_call trace = false
    /\ (is_ValueError e = true ->
        fst (adsim_activity_etl now log) = Reply (args0 e) 500)
    /\ (is_ValueError e = false ->
        fst (adsim_activity_etl now log) = Uncaught e)
    /\ (forall msg d pos,
          e = JSONDecodeError msg d pos ->
          d = doc
          /\ fst (adsim_activity_etl now log)
             = Reply (JStr (errmsg msg doc pos)) 500
          /\ forall status url_ body,
               ~ shows_http_error (JStr (errmsg msg doc pos))
                   status url_ body).
Proof.
  intros response Hk Hbefore Hstatus Hbad.
  destruct (fetch_rejected _ _ _ Hstatus Hbad)
    as (pre & doc & post & e & Hsplit & Hpre & Hdoc & He & Hfetch).
  destruct (handler_raise now log k e Hk Hbefore Hfetch)
    as (trace & -> & Hreq & Hstage).
  exists pre, doc, post, e, trace. cbn [fst snd].
  split; [exact Hsplit |]. split; [exact Hpre |]. split; [exact Hdoc |].
  split; [exact He |]. split; [exact Hfetch |]. split; [reflexivity |].
  split; [exact Hreq |]. split; [exact Hstage |].
  split; [intros ->; reflexivity |]. split; [intros ->; reflexivity |].
  intros msg d pos ->. destruct (json_loads_raise _ _ _ _ He) as [-> _].
  split; [reflexivity |]. split; [reflexivity |].
  intros status url_ body (message & Hm & _). discriminate.
Qed.

(** ** Loading *)

(** C9.  On an empty frame ([df.empty]) [load_to_bigquery] returns the
    no-data sentinel and does nothing to the warehouse.  On any other frame
    it runs one load job for that frame and table, and when the job reports
    its rows the summary returned has that count in it. *)
Theorem load_empty_or_once df table_id log :
  (empty df = true ->
   load_to_bigquery df table_id log = (Ok no_data, log))
  /\ (empty df = false ->
      snd (load_to_bigquery df table_id log) = log ++ [LoadJob df table_id]
      /\ forall output_rows,
           load_table_from_dataframe df table_id = Ok output_rows ->
           exists summary,
             fst (load_to_bigquery df table_id log) = Ok summary
             /\ occurs_in (of_Z output_rows) summary).
Proof.
  unfold load_to_bigquery. split; intros ->; [reflexivity |]. split.
  - destruct (load_table_from_dataframe df table_id); reflexivity.
  - intros output_rows ->. eexists. split; [reflexivity |].
    exists (lit "Carregado "), (lit " linhas na tabela " ++ table_id).
    reflexivity.
Qed.

(** ** Frames *)

Lemma existsb_eqb k l : existsb (Str.eqb k) l = true <-> In k l.
Proof.
  rewrite existsb_exists. split.
  - intros (x & Hx & E). apply eqb_eq in E. subst. exact Hx.
  - intros H. exists k. split; [exact H | apply eqb_refl].
Qed.

Lemma existsb_eqb_false k l : existsb (Str.eqb k) l = false <-> ~ In k l.
Proof.
  rewrite <- existsb_eqb. destruct (existsb _ l); split; congruence.
Qed.

Lemma eqb_sym a b : Str.eqb a b = Str.eqb b a.
Proof.
  destruct (Str.eqb a b) eqn:E.
  - apply eqb_eq in E. subst. symmetry. apply eqb_refl.
  - symmetry. apply eqb_neq. apply eqb_neq in E. congruence.
Qed.

Lemma dict_get_in {V} (d : list (str * V)) k v :
  dict_get d k = Some v -> In k (keys d).
Proof.
  induction d as [| [k' v'] d IH]; cbn [dict_get keys map In fst];
    [discriminate |].
  destruct (Str.eqb k' k) eqn:E.
  - apply eqb_eq in E. auto.
  - auto.
Qed.

Lemma dict_get_none {V} (d : list (str * V)) k :
  dict_get d k = None <-> ~ In k (keys d).
Proof.
  induction d as [| [k' v'] d IH]; cbn [dict_get keys map In fst];
    [tauto |].
  destruct (Str.eqb k' k) eqn:E.
  - apply eqb_eq in E. split; [discriminate | tauto].
  - apply eqb_neq in E. fold (keys d). tauto.
Qed.

Lemma position_seq n : forall a l,
  position l (seq a n)
  = if (a <=? l) && (l <? a + n) then Some (l - a) else None.
Proof.
  induction n as [| n IH]; intros a l; cbn [seq position].
  - destruct (a <=? l) eqn:E1; cbn [andb]; [| reflexivity].
    destruct (Nat.ltb_spec l (a + 0)); [| reflexivity].
    apply Nat.leb_le in E1. lia.
  - destruct (Nat.eqb_spec a l) as [-> | Hne].
    + rewrite Nat.leb_refl, Nat.sub_diag. cbn [andb].
      destruct (Nat.ltb_spec l (l + S n)); [reflexivity | lia].
    + rewrite IH.
      destruct (Nat.leb_spec (S a) l), (Nat.leb_spec a l),
        (Nat.ltb_spec l (S a + n)), (Nat.ltb_spec l (a + S n));
        cbn [andb option_map]; try reflexivity; try lia.
      f_equal. lia.
Qed.

Lemma at_label_range n cells :
  length cells = n ->
  map (at_label (seq 0 n) cells) (seq 0 n) = cells.
Proof.
  intros Hn. apply nth_ext with (d := NaN) (d' := NaN).
  - rewrite length_map, length_seq. congruence.
  - intros i Hi. rewrite length_map, length_seq in Hi.
    rewrite (nth_indep _ NaN (at_label (seq 0 n) cells 0))
      by (rewrite length_map, length_seq; exact Hi).
    rewrite map_nth, seq_nth by exact Hi. unfold at_label.
    rewrite position_seq. cbn [Nat.add Nat.leb andb].
    destruct (Nat.ltb_spec i n); [| lia].
    rewrite Nat.sub_0_r. reflexivity.
Qed.

Lemma reindex_range n df :
  range_frame n df -> reindex df (seq 0 n) = columns df.
Proof.
  intros [Hidx Hcols]. unfold reindex. rewrite Hidx.
  induction Hcols as [| [name cells] cols Hc _ IH]; [reflexivity |].
  cbn [map fst snd] in *. rewrite IH, (at_label_range n cells Hc).
  reflexivity.
Qed.

Lemma union_index_same idx : union_index idx idx = idx.
Proof.
  unfold union_index.
  assert (H : forall b, incl b idx ->
            filter (fun l => negb (existsb (Nat.eqb l) idx)) b = []).
  { induction b as [| x b IH]; intros Hb; [reflexivity |].
    cbn [filter].
    assert (Hx : existsb (Nat.eqb x) idx = true).
    { apply existsb_exists. exists x. split; [apply Hb; left; reflexivity |].
      apply Nat.eqb_refl. }
    rewrite Hx. cbn [negb]. apply IH. intros y Hy. apply Hb. right. exact Hy. }
  rewrite H by apply incl_refl. apply app_nil_r.
Qed.

(** [pd.concat(axis=1)] of two frames on the same [RangeIndex] puts their
    columns side by side, row for row. *)
Lemma concat_columns_range n a b :
  range_frame n a -> range_frame n b ->
  concat_columns a b = {| index := seq 0 n; columns := columns a ++ columns b |}
  /\ range_frame n (concat_columns a b).
Proof.
  intros Ha Hb.
  assert (E : concat_columns a b
              = {| index := seq 0 n; columns := columns a ++ columns b |}).
  { unfold concat_columns. cbv zeta.
    rewrite (proj1 Ha), (proj1 Hb), union_index_same.
    rewrite <- (proj1 Ha) at 1. rewrite <- (proj1 Hb) at 2.
    assert (Ea : reindex a (seq 0 n) = columns a)
      by (apply reindex_range, Ha).
    assert (Eb : reindex b (seq 0 n) = columns b)
      by (apply reindex_range, Hb).
    unfold reindex in *. rewrite (proj1 Ha) in Ea. rewrite (proj1 Hb) in Eb.
    rewrite (proj1 Ha), (proj1 Hb), Ea, Eb. reflexivity. }
  split; [exact E |]. rewrite E. split; [reflexivity |].
  cbn [columns]. apply Forall_app. split; [apply Ha | apply Hb].
Qed.

Lemma add_key_in seen k x :
  In x (add_key seen k) <-> In x seen \/ x = k.
Proof.
  unfold add_key. destruct (existsb (Str.eqb k) seen) eqn:E.
  - apply existsb_eqb in E. split; [auto |]. intros [H | ->]; assumption.
  - rewrite in_app_iff. cbn [In]. intuition congruence.
Qed.

Lemma add_key_nodup seen k : NoDup seen -> NoDup (add_key seen k).
Proof.
  intros H. unfold add_key. destruct (existsb (Str.eqb k) seen) eqn:E;
    [exact H |].
  apply existsb_eqb_false in E.
  apply NoDup_app; [exact H | repeat constructor; intros [] | ].
  intros x Hx [<- | []]. exact (E Hx).
Qed.

Lemma add_keys_in ks : forall seen x,
  In x (fold_left add_key ks seen) <-> In x seen \/ In x ks.
Proof.
  induction ks as [| k ks IH]; intros seen x; cbn [fold_left In].
  - tauto.
  - rewrite IH, add_key_in. intuition congruence.
Qed.

Lemma add_keys_nodup ks : forall seen,
  NoDup seen -> NoDup (fold_left add_key ks seen).
Proof.
  induction ks as [| k ks IH]; intros seen H; cbn [fold_left]; [exact H |].
  apply IH, add_key_nodup, H.
Qed.

Lemma union_keys_from (rows : list (list (str * json))) : forall seen x,
  In x (fold_left (fun seen row => fold_left add_key (keys row) seen)
          rows seen)
  <-> In x seen \/ exists row, In row rows /\ In x (keys row).
Proof.
  induction rows as [| row rows IH]; intros seen x; cbn [fold_left].
  - split; [auto |]. intros [H | (row & [] & _)]. exact H.
  - rewrite IH, add_keys_in. split.
    + intros [[H | H] | (r & Hr & H)]; [auto | |].
      * right. exists row. cbn [In]. auto.
      * right. exists r. cbn [In]. auto.
    + intros [H | (r & [<- | Hr] & H)]; [auto | auto |].
      right. exists r. auto.
Qed.

Lemma union_keys_in rows x :
  In x (union_keys rows) <-> exists row, In row rows /\ In x (keys row).
Proof.
  unfold union_keys. rewrite union_keys_from. cbn [In]. tauto.
Qed.

Lemma union_keys_nodup rows : NoDup (union_keys rows).
Proof.
  unfold union_keys. generalize (@nil str) (NoDup_nil str).
  induction rows as [| row rows IH]; intros seen H; cbn [fold_left];
    [exact H |].
  apply IH, add_keys_nodup, H.
Qed.

Lemma union_keys_empty rows :
  Forall (fun row => row = []) rows -> union_keys rows = [].
Proof.
  intros H. destruct (union_keys rows) as [| k ks] eqn:E; [reflexivity |].
  assert (Hk : In k (union_keys rows)) by (rewrite E; left; reflexivity).
  apply union_keys_in in Hk as (row & Hrow & Hk).
  rewrite Forall_forall in H. rewrite (H row Hrow) in Hk. destruct Hk.
Qed.

(** The columns of [DataFrame(rows)]: one per key, each with the cell of
    every row for that key. *)
Lemma dict_get_tabulate {V} (g : str -> V) ks k :
  dict_get (map (fun x => (x, g x)) ks) k
  = if existsb (Str.eqb k) ks then Some (g k) else None.
Proof.
  induction ks as [| x ks IH]; cbn [map dict_get existsb]; [reflexivity |].
  rewrite (eqb_sym k x). destruct (Str.eqb x k) eqn:E; cbn [orb].
  - apply eqb_eq in E. subst. reflexivity.
  - exact IH.
Qed.

Lemma frame_of_dicts_range rows :
  range_frame (length rows) (frame_of_dicts (seq 0 (length rows)) rows).
Proof.
  split; [reflexivity |]. cbn [columns frame_of_dicts].
  apply Forall_map, Forall_forall. intros k _. cbn [snd].
  apply length_map.
Qed.

Lemma frame_of_dicts_names idx rows :
  column_names (frame_of_dicts idx rows) = union_keys rows.
Proof.
  unfold column_names. cbn [columns frame_of_dicts].
  rewrite map_map. cbn [fst]. apply map_id.
Qed.

Lemma frame_of_dicts_get idx rows k :
  dict_get (columns (frame_of_dicts idx rows)) k
  = if existsb (Str.eqb k) (union_keys rows)
    then Some (map (fun row => cell_of row k) rows) else None.
Proof. apply (dict_get_tabulate (fun k => map (fun row => cell_of row k) rows)). Qed.

(** ** The two loops of [transform] *)

Lemma dict_get_app {V} (a b : list (str * V)) k :
  dict_get (a ++ b) k
  = match dict_get a k with
    | Some v => Some v
    | None => dict_get b k
    end.
Proof.
  induction a as [| [k' v] a IH]; cbn [app dict_get]; [reflexivity |].
  destruct (Str.eqb k' k); [reflexivity | exact IH].
Qed.

Lemma dict_get_filter {V} (q : str -> bool) (d : list (str * V)) k :
  dict_get (filter (fun c => q (fst c)) d) k
  = if q k then dict_get d k else None.
Proof.
  induction d as [| [k' v] d IH]; cbn [filter dict_get fst].
  - destruct (q k); reflexivity.
  - destruct (Str.eqb k' k) eqn:E.
    + apply eqb_eq in E. subst k'. destruct (q k); cbn [dict_get].
      * rewrite eqb_refl. reflexivity.
      * rewrite IH. reflexivity.
    + destruct (q k'); cbn [dict_get]; rewrite ?E; exact IH.
Qed.

Lemma has_column_in df col : has_column df col = true <-> In col (column_names df).
Proof. apply existsb_eqb. Qed.

Lemma column_length n df col cells :
  range_frame n df -> dict_get (columns df) col = Some cells ->
  length cells = n.
Proof.
  intros [_ H]. induction H as [| [k v] cols Hc _ IH]; cbn [dict_get];
    [discriminate |].
  destruct (Str.eqb k col); [intros [= <-]; exact Hc | exact IH].
Qed.

Lemma convert_date_names df col :
  column_names (convert_date df col) = column_names df.
Proof.
  unfold convert_date. destruct (has_column df col); [| reflexivity].
  unfold column_names, set_column. cbn [columns]. rewrite map_map.
  apply map_ext. intros [k v]. cbn [fst]. destruct (Str.eqb k col); reflexivity.
Qed.

Lemma convert_date_get df col f :
  f <> col ->
  dict_get (columns (convert_date df col)) f = dict_get (columns df) f.
Proof.
  intros Hf. unfold convert_date. destruct (has_column df col); [| reflexivity].
  unfold set_column. cbn [columns].
  induction (columns df) as [| [k v] cols IH]; [reflexivity |].
  cbn [map dict_get fst]. destruct (Str.eqb k col) eqn:E; cbn [dict_get].
  - apply eqb_eq in E. subst k.
    assert (E' : Str.eqb col f = false) by (apply eqb_neq; congruence).
    rewrite E'. exact IH.
  - destruct (Str.eqb k f); [reflexivity | exact IH].
Qed.

Lemma convert_date_range n df col :
  range_frame n df -> range_frame n (convert_date df col).
Proof.
  intros Hdf. unfold convert_date.
  destruct (has_column df col) eqn:E; [| exact Hdf].
  split; [exact (proj1 Hdf) |]. unfold set_column. cbn [columns].
  assert (Hlen : length (map (to_datetime (get_column df col))
                           (get_column df col)) = n).
  { rewrite length_map. unfold get_column.
    destruct (dict_get (columns df) col) as [cells |] eqn:Eg.
    - exact (column_length n df col cells Hdf Eg).
    - apply dict_get_none in Eg. apply has_column_in in E. contradiction. }
  destruct Hdf as [_ Hcols]. apply Forall_map.
  eapply Forall_impl; [| exact Hcols]. intros [k v] Hv. cbn [fst snd] in *.
  destruct (Str.eqb k col); cbn [snd]; assumption.
Qed.

Lemma convert_dates cols : forall n df,
  range_frame n df ->
  range_frame n (fold_left convert_date cols df)
  /\ column_names (fold_left convert_date cols df) = column_names df
  /\ forall f, ~ In f cols ->
       dict_get (columns (fold_left convert_date cols df)) f
       = dict_get (columns df) f.
Proof.
  induction cols as [| col cols IH]; intros n df Hdf; cbn [fold_left].
  - split; [exact Hdf |]. split; reflexivity.
  - destruct (IH n (convert_date df col) (convert_date_range n df col Hdf))
      as (H1 & H2 & H3).
    split; [exact H1 |]. split.
    + rewrite H2. apply convert_date_names.
    + intros f Hf. rewrite H3 by (intros H; apply Hf; right; exact H).
      apply convert_date_get. intros ->. apply Hf. left. reflexivity.
Qed.

(** Names.  No nested-object field has an underscore in its name, and
    every expanded column has one: an expansion never makes a column that
    a later round of the loop would take for a nested-object field. *)
Lemma nested_no_underscore f : In f nested_cols -> has_underscore f = false.
Proof.
  intros H. repeat (destruct H as [<- | H]; [reflexivity |]). destruct H.
Qed.

Lemma expanded_underscore f sub : has_underscore (f ++ lit "_" ++ sub) = true.
Proof.
  unfold has_underscore. rewrite !existsb_app. cbn. apply orb_true_r.
Qed.

Lemma expanded_names f rows c :
  In c (expanded_columns f rows) -> has_underscore (fst c) = true.
Proof.
  unfold expanded_columns. intros H. apply in_map_iff in H as (sub & <- & _).
  apply expanded_underscore.
Qed.

Lemma expanded_columns_absent f rows :
  (forall row, In row rows -> dict_get row f = None) ->
  expanded_columns f rows = [].
Proof.
  intros H. unfold expanded_columns. rewrite union_keys_empty; [reflexivity |].
  apply Forall_map, Forall_forall. intros row Hrow. unfold normalised.
  rewrite (H row Hrow). reflexivity.
Qed.

Lemma normalize_cells_rows f rows :
  (forall row, In row rows -> forall l, dict_get row f <> Some (JArr l)) ->
  normalize_cells (map (fun row => cell_of row f) rows)
  = Some (map (normalised f) rows).
Proof.
  induction rows as [| row rows IH]; intros H; [reflexivity |].
  cbn [map normalize_cells]. rewrite IH by (intros r Hr; apply H; right; exact Hr).
  unfold cell_of, normalised, normalize_cell.
  pose proof (H row (or_introl eq_refl)) as Hrow.
  destruct (dict_get row f) as [[] |]; try reflexivity.
  destruct (Hrow items eq_refl).
Qed.

Lemma length_as_dicts records : forall rows,
  as_dicts records = Some rows -> length rows = length records.
Proof.
  induction records as [| r records IH]; intros rows; cbn [as_dicts].
  - intros [= <-]. reflexivity.
  - destruct r; try discriminate.
    destruct (as_dicts records) as [ds |]; [| discriminate].
    intros [= <-]. cbn [length]. f_equal. apply IH. reflexivity.
Qed.

Lemma nth_as_dicts records : forall rows i row,
  as_dicts records = Some rows ->
  nth_error records i = Some (JObj row) -> nth_error rows i = Some row.
Proof.
  induction records as [| r records IH]; intros rows i row; cbn [as_dicts].
  - destruct i; discriminate.
  - destruct r; try discriminate.
    destruct (as_dicts records) as [ds |]; [| discriminate].
    intros [= <-]. destruct i as [| i]; cbn [nth_error].
    + intros [= ->]. reflexivity.
    + apply IH. reflexivity.
Qed.

Lemma filter_one_more (cols : list (str * list cell)) done f :
  filter (fun c : str * list cell => negb (Str.eqb (fst c) f))
    (filter (fun c => negb (existsb (Str.eqb (fst c)) done)) cols)
  = filter (fun c => negb (existsb (Str.eqb (fst c)) (done ++ [f]))) cols.
Proof.
  induction cols as [| c cols IH]; [reflexivity |]. cbn [filter].
  rewrite existsb_app. cbn [existsb]. rewrite orb_false_r.
  destruct (existsb (Str.eqb (fst c)) done); cbn [negb orb filter].
  - exact IH.
  - destruct (Str.eqb (fst c) f); cbn [negb]; rewrite IH; reflexivity.
Qed.

Section Expansion.

Variable rows : list (list (str * json)).
Variable base : list (str * list cell).

Hypothesis base_names : map fst base = union_keys rows.
Hypothesis base_nested : forall f, In f nested_cols ->
  dict_get base f
  = if existsb (Str.eqb f) (union_keys rows)
    then Some (map (fun row => cell_of row f) rows) else None.
Hypothesis rows_flat : flat_rows rows.

Lemma filter_expanded done f :
  In f nested_cols ->
  filter (fun c : str * list cell => negb (Str.eqb (fst c) f))
    (flat_map (fun g => expanded_columns g rows) done)
  = flat_map (fun g => expanded_columns g rows) done.
Proof.
  intros Hf. apply forallb_filter_id. apply forallb_forall. intros c Hc.
  apply in_flat_map in Hc as (g & _ & Hc). apply expanded_names in Hc.
  apply negb_true_iff, eqb_neq. intros E. rewrite E in Hc.
  rewrite (nested_no_underscore f Hf) in Hc. discriminate.
Qed.

Lemma expand_round done df f :
  expanded_so_far rows base done df -> In f nested_cols -> ~ In f done ->
  exists df',
    expand df f = Some df' /\ expanded_so_far rows base (done ++ [f]) df'.
Proof.
  intros [Hrange Hcols] Hf Hnew.
  assert (Hget : dict_get (columns df) f = dict_get base f).
  { rewrite Hcols, dict_get_app.
    rewrite (dict_get_filter (fun k => negb (existsb (Str.eqb k) done))).
    assert (E : existsb (Str.eqb f) done = false)
      by (apply existsb_eqb_false; exact Hnew).
    rewrite E. cbn [negb].
    destruct (dict_get base f) as [cells |] eqn:Eb; [reflexivity |].
    apply dict_get_none. intros Hin.
    unfold keys in Hin. apply in_map_iff in Hin as (c & Ec & Hc).
    apply in_flat_map in Hc as (g & _ & Hc). apply expanded_names in Hc.
    rewrite Ec, (nested_no_underscore f Hf) in Hc. discriminate. }
  assert (Hhas : has_column df f = existsb (Str.eqb f) (union_keys rows)).
  { rewrite (base_nested f Hf) in Hget.
    destruct (existsb (Str.eqb f) (union_keys rows)) eqn:E.
    - apply has_column_in. apply (dict_get_in (columns df) f _ Hget).
    - destruct (has_column df f) eqn:E'; [| reflexivity].
      apply has_column_in in E'. apply dict_get_none in Hget.
      contradiction. }
  unfold expand. rewrite Hhas.
  destruct (existsb (Str.eqb f) (union_keys rows)) eqn:E.
  - unfold get_column, json_normalize. rewrite Hget, (base_nested f Hf), E.
    rewrite normalize_cells_rows.
    2:{ intros row Hrow l. unfold flat_rows in rows_flat.
        rewrite Forall_forall in rows_flat. apply rows_flat; assumption. }
    eexists. split; [reflexivity |].
    assert (Hdrop : range_frame (length rows) (drop df f)).
    { split; [exact (proj1 Hrange) |]. cbn [columns drop].
      apply Forall_forall. intros c Hc. apply filter_In in Hc as [Hc _].
      destruct Hrange as [_ Hr]. rewrite Forall_forall in Hr. auto. }
    assert (Hnew_frame :
              range_frame (length rows)
                (prefix_columns f
                   (frame_of_dicts (index df) (map (normalised f) rows)))).
    { split; [exact (proj1 Hrange) |]. cbn [columns prefix_columns frame_of_dicts].
      apply Forall_map, Forall_map, Forall_forall. intros k _. cbn [snd].
      rewrite !length_map. reflexivity. }
    destruct (concat_columns_range _ _ _ Hdrop Hnew_frame) as [Econcat Hr].
    split; [exact Hr |]. rewrite Econcat. cbn [columns drop].
    rewrite Hcols, filter_app, filter_one_more, (filter_expanded done f Hf).
    rewrite flat_map_app, <- app_assoc. cbn [flat_map]. rewrite app_nil_r.
    f_equal. f_equal. unfold expanded_columns, prefix_columns, frame_of_dicts.
    cbn [columns]. rewrite map_map. apply map_ext. intros sub. cbn [fst snd].
    rewrite map_map. reflexivity.
  - exists df. split; [reflexivity |]. split; [exact Hrange |].
    rewrite Hcols, flat_map_app. cbn [flat_map].
    apply existsb_eqb_false in E.
    rewrite expanded_columns_absent, !app_nil_r.
    2:{ intros row Hrow. apply dict_get_none. intros Hk. apply E.
        apply union_keys_in. eauto. }
    f_equal. apply filter_ext_in. intros c Hc.
    rewrite existsb_app. cbn [existsb]. rewrite orb_false_r.
    assert (Ec : Str.eqb (fst c) f = false).
    { apply eqb_neq. intros <-. apply E. rewrite <- base_names.
      apply in_map, Hc. }
    rewrite Ec, orb_false_r. reflexivity.
Qed.

Lemma expand_rounds todo : forall done df,
  expanded_so_far rows base done df -> incl todo nested_cols ->
  NoDup (done ++ todo) ->
  exists df',
    expand_all todo df = Some df'
    /\ expanded_so_far rows base (done ++ todo) df'.
Proof.
  induction todo as [| f todo IH]; intros done df Hdf Hincl Hnodup.
  - exists df. rewrite app_nil_r. auto.
  - destruct (expand_round done df f Hdf) as (df1 & E1 & Hdf1).
    + apply Hincl. left. reflexivity.
    + apply NoDup_remove_2 in Hnodup. intros H. apply Hnodup.
      apply in_or_app. auto.
    + destruct (IH (done ++ [f]) df1 Hdf1) as (df' & E' & Hdf').
      * intros x Hx. apply Hincl. right. exact Hx.
      * rewrite <- app_assoc. exact Hnodup.
      * exists df'. rewrite <- app_assoc in Hdf'. split; [| exact Hdf'].
        unfold expand_all in *. cbn [fold_left]. rewrite E1. exact E'.
Qed.

End Expansion.

Lemma nested_not_date f : In f nested_cols -> ~ In f date_cols.
Proof.
  intros H. repeat (destruct H as [<- | H];
                    [cbn; intuition discriminate |]).
  destruct H.
Qed.

Lemma nested_cols_nodup : NoDup nested_cols.
Proof.
  unfold nested_cols. repeat constructor; cbn; intuition discriminate.
Qed.

(** [transform] on the records this model covers: the frame has one row
    per record, on [RangeIndex]; its columns are those of the first frame
    ([base], dates converted) but the nested-object fields, followed by the
    expanded columns of each nested-object field. *)
Lemma transform_frame records rows :
  tabular records rows ->
  exists df base,
    transform records = Some df
    /\ range_frame (length records) df
    /\ columns df
       = filter (fun c => negb (existsb (Str.eqb (fst c)) nested_cols)) base
           ++ flat_map (fun f => expanded_columns f rows) nested_cols.
Proof.
  intros [Hrows Hflat]. pose proof (length_as_dicts records rows Hrows) as Hlen.
  destruct records as [| r records].
  - injection Hrows as <-. exists empty_frame, [].
    split; [reflexivity |]. split; [split; [reflexivity | constructor] |].
    reflexivity.
  - unfold transform, DataFrame_of_records. rewrite Hrows.
    set (df0 := frame_of_dicts (seq 0 (length rows)) rows).
    destruct (convert_dates date_cols (length rows) df0
                (frame_of_dicts_range rows)) as (Hrange & Hnames & Hget).
    set (df1 := fold_left convert_date date_cols df0) in *.
    destruct (expand_rounds rows (columns df1)) with
      (todo := nested_cols) (done := @nil str) (df := df1)
      as (df & Hexp & Hdf' & Hcols).
    + fold (column_names df1). rewrite Hnames. apply frame_of_dicts_names.
    + intros f Hf. rewrite (Hget f (nested_not_date f Hf)).
      apply frame_of_dicts_get.
    + exact Hflat.
    + split; [exact Hrange |]. cbn [flat_map]. rewrite app_nil_r.
      symmetry. apply forallb_filter_id. apply forallb_forall.
      intros c _. reflexivity.
    + apply incl_refl.
    + exact nested_cols_nodup.
    + exists df, (columns df1). rewrite <- Hlen.
      split; [exact Hexp |]. split; [exact Hdf' | exact Hcols].
Qed.

(** C3.  For any sequence of records (of those this model of pandas
    covers), [transform] returns a frame with exactly as many rows as there
    are records, every column having a cell for each of them, whichever
    date columns were converted and nested columns expanded. *)
Theorem transform_row_count records rows :
  tabular records rows ->
  exists df,
    transform records = Some df
    /\ len df = length records
    /\ Forall (fun c => length (snd c) = length records) (columns df).
Proof.
  intros H. destruct (transform_frame records rows H)
    as (df & base & Hdf & [Hidx Hcols] & _).
  exists df. split; [exact Hdf |]. split; [| exact Hcols].
  unfold len. rewrite Hidx. apply length_seq.
Qed.

Lemma expanded_column_in f rows sub :
  In sub (union_keys (map (normalised f) rows)) ->
  In (f ++ lit "_" ++ sub, map (expanded_cell f sub) rows)
     (expanded_columns f rows).
Proof.
  intros H. unfold expanded_columns.
  apply (in_map (fun sub => (f ++ lit "_" ++ sub,
                             map (expanded_cell f sub) rows))), H.
Qed.

Lemma transform_expanded_column records rows df f sub :
  tabular records rows -> transform records = Some df ->
  In f nested_cols ->
  In sub (union_keys (map (normalised f) rows)) ->
  In (f ++ lit "_" ++ sub, map (expanded_cell f sub) rows) (columns df).
Proof.
  intros Htab Hdf Hf Hsub.
  destruct (transform_frame records rows Htab)
    as (df' & base & Hdf' & _ & Hcols).
  rewrite Hdf in Hdf'. injection Hdf' as <-.
  rewrite Hcols. apply in_or_app. right. apply in_flat_map.
  exists f. split; [exact Hf | apply expanded_column_in, Hsub].
Qed.

Lemma expanded_cell_nth rows f sub i row :
  nth_error rows i = Some row ->
  nth_error (map (expanded_cell f sub) rows) i
  = Some (expanded_cell f sub row).
Proof. intros H. rewrite nth_error_map, H. reflexivity. Qed.

(** C1.  For a nested-object field [f] and each sub-field [sub] seen
    under it in some record, the frame [transform] returns has the column
    [f_sub] whose cell in row [i] is the cell that record [i] alone accounts
    for ([expanded_cell]): the value of the record's own [f.sub] when it has
    one, and the missing value ([NaN]) when the record has no field [f].
    The cells of a row are thus never those of another row. *)
Theorem transform_expands_by_row records rows f :
  tabular records rows ->
  In f nested_cols ->
  exists df,
    transform records = Some df
    /\ (forall sub,
          In sub (union_keys (map (normalised f) rows)) ->
          exists cells,
            In (f ++ lit "_" ++ sub, cells) (columns df)
            /\ length cells = length records
            /\ forall i row,
                 nth_error records i = Some (JObj row) ->
                 nth_error cells i = Some (expanded_cell f sub row)
                 /\ (dict_get row f = None -> nth_error cells i = Some NaN)
                 /\ (forall d v,
                       dict_get row f = Some (JObj d) ->
                       dict_get (normalise_json_ordered d) sub = Some v ->
                       nth_error cells i = Some (Obj v))).
Proof.
  intros Htab Hf.
  destruct (transform_frame records rows Htab) as (df & base & Hdf & _).
  exists df. split; [exact Hdf |]. intros sub Hsub.
  exists (map (expanded_cell f sub) rows). split; [| split].
  - apply (transform_expanded_column records rows df f sub); assumption.
  - rewrite length_map. apply length_as_dicts, Htab.
  - intros i row Hi.
    apply (nth_as_dicts records rows i row (proj1 Htab)) in Hi.
    rewrite (expanded_cell_nth rows f sub i row Hi).
    split; [reflexivity |]. split.
    + intros Hnone. unfold expanded_cell, normalised.
      rewrite Hnone. reflexivity.
    + intros d v Hd Hv. unfold expanded_cell, normalised, cell_of.
      rewrite Hd, Hv. reflexivity.
Qed.

Lemma no_nested_column records rows df f :
  tabular records rows -> transform records = Some df ->
  In f nested_cols -> ~ In f (column_names df).
Proof.
  intros Htab Hdf Hf.
  destruct (transform_frame records rows Htab)
    as (df' & base & Hdf' & _ & Hcols).
  rewrite Hdf in Hdf'. injection Hdf' as <-.
  unfold column_names. rewrite Hcols, map_app, in_app_iff.
  intros [H | H]; apply in_map_iff in H as (c & Ec & Hc).
  - apply filter_In in Hc as [_ Hc]. apply negb_true_iff in Hc.
    apply existsb_eqb_false in Hc. rewrite Ec in Hc. contradiction.
  - apply in_flat_map in Hc as (g & _ & Hc). apply expanded_names in Hc.
    rewrite Ec, (nested_no_underscore f Hf) in Hc. discriminate.
Qed.

(** C7.  When a record has [organization: {"id": 7, "name": "Acme"}], the
    frame [transform] returns has a column [organization_id] with 7 and a
    column [organization_name] with "Acme" in the row of that record, and
    no column [organization]. *)
Theorem transform_organization records rows i row :
  tabular records rows ->
  nth_error records i = Some (JObj row) ->
  dict_get row (lit "organization")
  = Some (JObj [(lit "id", JInt 7); (lit "name", JStr (lit "Acme"))]) ->
  exists df ids names,
    transform records = Some df
    /\ In (lit "organization_id", ids) (columns df)
    /\ nth_error ids i = Some (Obj (JInt 7))
    /\ In (lit "organization_name", names) (columns df)
    /\ nth_error names i = Some (Obj (JStr (lit "Acme")))
    /\ ~ In (lit "organization") (column_names df).
Proof.
  intros Htab Hi Horg.
  assert (Hf : In (lit "organization") nested_cols)
    by (right; left; reflexivity).
  destruct (transform_frame records rows Htab) as (df & base & Hdf & _).
  pose proof (nth_as_dicts records rows i row (proj1 Htab) Hi) as Hrow.
  assert (Hnorm : normalised (lit "organization") row
                  = [(lit "id", JInt 7); (lit "name", JStr (lit "Acme"))]).
  { unfold normalised. rewrite Horg. reflexivity. }
  assert (Hkeys : forall sub,
             In sub [lit "id"; lit "name"] ->
             In sub (union_keys (map (normalised (lit "organization")) rows))).
  { intros sub Hsub. apply union_keys_in.
    exists (normalised (lit "organization") row). split.
    - apply in_map. eapply nth_error_In. exact Hrow.
    - rewrite Hnorm. exact Hsub. }
  exists df, (map (expanded_cell (lit "organization") (lit "id")) rows),
    (map (expanded_cell (lit "organization") (lit "name")) rows).
  split; [exact Hdf |]. split.
  { apply (transform_expanded_column records rows df
             (lit "organization") (lit "id") Htab Hdf Hf).
    apply Hkeys. left. reflexivity. }
  split.
  { rewrite (expanded_cell_nth rows _ _ i row Hrow).
    unfold expanded_cell. rewrite Hnorm. reflexivity. }
  split.
  { apply (transform_expanded_column records rows df
             (lit "organization") (lit "name") Htab Hdf Hf).
    apply Hkeys. right. left. reflexivity. }
  split.
  { rewrite (expanded_cell_nth rows _ _ i row Hrow).
    unfold expanded_cell. rewrite Hnorm. reflexivity. }
  apply (no_nested_column records rows df _ Htab Hdf Hf).
Qed.

(** * Further properties *)

(** ** Lines of a body *)

Lemma split_app sep a : forall b,
  split sep (a ++ sep :: b) = split sep a ++ split sep b.
Proof.
  induction a as [| c a IH]; intros b.
  - cbn [app split]. rewrite N.eqb_refl. reflexivity.
  - cbn [app]. rewrite !(split_cons sep c), IH.
    destruct (c =? sep)%N; [reflexivity |].
    pose proof (split_not_nil sep a) as Hn.
    destruct (split sep a) as [| h r]; [contradiction | reflexivity].
Qed.

Lemma split_one sep a : ~ In sep a -> split sep a = [a].
Proof.
  induction a as [| c a IH]; intros H; [reflexivity |].
  rewrite split_cons, IH by (intros Hin; apply H; right; exact Hin).
  assert (E : (c =? sep)%N = false).
  { apply N.eqb_neq. intros ->. apply H. left. reflexivity. }
  rewrite E. reflexivity.
Qed.

Lemma split_lines_no_sep sep s : forall l,
  In l (split sep s) -> ~ In sep l.
Proof.
  induction s as [| c s IH]; intros l.
  - cbn. intros [<- | []] [].
  - rewrite split_cons. pose proof (split_not_nil sep s) as Hn.
    destruct (c =? sep)%N eqn:Ec.
    + intros [<- | H]; [intros [] | apply IH, H].
    + destruct (split sep s) as [| h r]; [contradiction |].
      cbn [hd tl]. intros [<- | H].
      * intros [-> | Hin]; [rewrite N.eqb_refl in Ec; discriminate |].
        revert Hin. apply IH. left. reflexivity.
      * apply IH. right. exact H.
Qed.

Lemma rstrip_lines_app xs ys :
  forallb blank ys = false -> rstrip_lines (xs ++ ys) = xs ++ rstrip_lines ys.
Proof.
  intros Hy. induction xs as [| x xs IH]; [reflexivity |].
  cbn [app rstrip_lines]. rewrite forallb_app, Hy, andb_false_r, IH.
  reflexivity.
Qed.

Lemma lstrip_lines_app xs ys :
  forallb blank xs = false ->
  lstrip_lines (xs ++ ys) = lstrip_lines xs ++ ys.
Proof.
  induction xs as [| x xs IH]; [discriminate |].
  cbn [app lstrip_lines forallb]. destruct (blank x); cbn [andb].
  - exact IH.
  - reflexivity.
Qed.

(** A line that stands between two parts of the body that are not blank
    is a line of the stripped body, as it is. *)
Lemma inner_line_kept a line b :
  blank a = false -> blank b = false -> ~ In 10%N line ->
  In line (split 10%N (strip (a ++ [10%N] ++ line ++ [10%N] ++ b))).
Proof.
  intros Ha Hb Hline. unfold strip. rewrite split_lstrip, split_rstrip.
  cbn [app]. rewrite split_app, split_app, (split_one 10%N line Hline).
  rewrite <- blank_lines in Ha, Hb.
  rewrite rstrip_lines_app.
  2:{ cbn [app forallb]. rewrite Hb, andb_false_r. reflexivity. }
  rewrite (lstrip_lines_app _ _ Ha). apply in_or_app. right.
  cbn [app rstrip_lines]. rewrite Hb. left. reflexivity.
Qed.

(** ** What the decoder reports *)

(** An error of the list comprehension is the error of [json.loads] on one
    of the lines. *)
Lemma loads_lines_raise lines e :
  loads_lines lines = Raise e ->
  exists doc, In doc lines /\ truthy doc = true /\ json_loads doc = Raise e.
Proof.
  induction lines as [| l ls IH]; cbn [loads_lines]; [discriminate |].
  destruct (truthy l) eqn:Et.
  - destruct (json_loads l) as [v | e'] eqn:El.
    + destruct (loads_lines ls) as [vs | e'']; [discriminate |].
      intros [= <-]. destruct (IH eq_refl) as (doc & Hin & Hd).
      exists doc. cbn [In]. auto.
    + intros [= <-]. exists l. cbn [In]. auto.
  - intros H. destruct (IH H) as (doc & Hin & Hd). exists doc. cbn [In]. auto.
Qed.

Lemma count_nl_none s : ~ In 10%N s -> count_nl s = 0.
Proof.
  unfold count_nl. induction s as [| c s IH]; intros H; [reflexivity |].
  cbn [filter]. destruct (c =? 10)%N eqn:Ec.
  - apply N.eqb_eq in Ec. subst c. destruct H. left. reflexivity.
  - apply IH. intros Hin. apply H. right. exact Hin.
Qed.

Lemma after_last_nl_none s : ~ In 10%N s -> after_last_nl s = s.
Proof.
  intros H. destruct s as [| c s]; [reflexivity |]. cbn [after_last_nl].
  assert (E : existsb (fun c => (c =? 10)%N) (c :: s) = false).
  { destruct (existsb _ (c :: s)) eqn:E; [| reflexivity].
    apply existsb_exists in E as (x & Hx & Ex). apply N.eqb_eq in Ex.
    subst x. contradiction. }
  rewrite E. reflexivity.
Qed.

(** The message of a [JSONDecodeError] about a text of one line. *)
Lemma errmsg_one_line msg doc pos :
  ~ In 10%N doc -> pos <= length doc ->
  errmsg msg doc pos
  = msg ++ lit ": line 1 column " ++ of_N (N.of_nat (S pos))
      ++ lit " (char " ++ of_N (N.of_nat pos) ++ lit ")".
Proof.
  intros Hdoc Hpos. unfold errmsg. cbv zeta.
  assert (Hbefore : ~ In 10%N (firstn pos doc)).
  { intros H. apply Hdoc. rewrite <- (firstn_skipn pos doc).
    apply in_or_app. left. exact H. }
  rewrite count_nl_none, after_last_nl_none by exact Hbefore.
  rewrite length_firstn, Nat.min_l by exact Hpos. reflexivity.
Qed.

(** ** Bodies [fetch_activities] rejects *)

Lemma fetch_lines start_iso end_iso limit log :
  let response := requests_get (activity_request start_iso end_iso limit) in
  status_code response = 200%Z ->
  fst (fetch_activities start_iso end_iso limit log)
  = loads_lines (split 10%N (strip (text response))).
Proof.
  intros response Hstatus. rewrite fetch_activities_log, fetch_result_eq.
  cbn [fst]. cbv zeta. fold response. rewrite Hstatus. reflexivity.
Qed.

(** X1.  A 200 response whose body starts with a byte order mark (U+FEFF,
    which [strip] leaves in place) makes [fetch_activities] raise the
    decoder's error about the mark, whatever follows it; the message the
    handler would reply with is the fixed text about the mark. *)
Theorem fetch_bom_body start_iso end_iso limit log :
  let response := requests_get (activity_request start_iso end_iso limit) in
  status_code response = 200%Z ->
  starts_with [65279%N] (text response) = true ->
  exists doc,
    fst (fetch_activities start_iso end_iso limit log)
    = Raise (JSONDecodeError unexpected_bom doc 0)
    /\ args0 (JSONDecodeError unexpected_bom doc 0)
       = JStr (lit "Unexpected UTF-8 BOM (decode using utf-8-sig): line 1 column 1 (char 0)").
Proof.
  intros response Hstatus Hbom.
  rewrite (fetch_lines _ _ _ _ Hstatus). fold response.
  apply starts_with_spec in Hbom as (t & Ht). cbn [app] in Ht.
  assert (Hstrip : exists r, strip (text response) = 65279%N :: r).
  { rewrite Ht. unfold strip. rewrite rstrip_cons.
    change (blank (65279%N :: t)) with false.
    destruct (blank t); eexists; reflexivity. }
  destruct Hstrip as (r & ->). rewrite split_cons.
  change (65279 =? 10)%N with false. cbn [loads_lines truthy].
  eexists. split; reflexivity.
Qed.

(** X2.  A whitespace-only line inside the body is not skipped the way an
    empty one is: when a 200 body has, between two parts that are not
    blank, a line that is not empty and holds whitespace only (a lone
    carriage return, say), [fetch_activities] raises the decoder's error and
    returns no records. *)
Theorem fetch_whitespace_line start_iso end_iso limit log a line b :
  let response := requests_get (activity_request start_iso end_iso limit) in
  status_code response = 200%Z ->
  text response = a ++ [10%N] ++ line ++ [10%N] ++ b ->
  blank a = false -> blank b = false ->
  line <> [] -> blank line = true -> ~ In 10%N line ->
  exists msg doc pos,
    fst (fetch_activities start_iso end_iso limit log)
    = Raise (JSONDecodeError msg doc pos).
Proof.
  intros response Hstatus Htext Ha Hb Hne Hblank Hline.
  rewrite (fetch_lines _ _ _ _ Hstatus). fold response. rewrite Htext.
  destruct (loads_lines_raises
              (split 10%N (strip (a ++ [10%N] ++ line ++ [10%N] ++ b))))
    as (msg & doc & pos & H & _).
  - apply Exists_exists. exists line.
    split; [apply inner_line_kept; assumption |]. split.
    + destruct line; [contradiction | reflexivity].
    + intros v. apply json_loads_blank, Hblank.
  - eauto.
Qed.

(** X3.  Each line is decoded on its own, so a decoder's error raised by
    [fetch_activities] is about one line of the stripped body and its
    message ([args[0]], which the handler replies with) always reads
    line 1, the column being the position in that line plus one: the
    message tells neither which line of the body nor which batch failed. *)
Theorem decode_error_names_line_one start_iso end_iso limit log msg doc pos :
  let response := requests_get (activity_request start_iso end_iso limit) in
  fst (fetch_activities start_iso end_iso limit log)
  = Raise (JSONDecodeError msg doc pos) ->
  In doc (split 10%N (strip (text response)))
  /\ args0 (JSONDecodeError msg doc pos)
     = JStr (msg ++ lit ": line 1 column " ++ of_N (N.of_nat (S pos))
               ++ lit " (char " ++ of_N (N.of_nat pos) ++ lit ")").
Proof.
  intros response. rewrite fetch_activities_log, fetch_result_eq.
  cbn [fst]. cbv zeta. fold response.
  destruct (negb _); [discriminate |]. intros H.
  apply loads_lines_raise in H as (l & Hin & _ & Hl).
  destruct (json_loads_raise l msg doc pos Hl) as [-> Hpos].
  split; [exact Hin |]. cbn [args0]. f_equal.
  apply errmsg_one_line; [| exact Hpos].
  exact (split_lines_no_sep 10%N _ l Hin).
Qed.

(** ** Carriage returns at the end of the lines *)

(** A round of [scanstring] that appends a character, in a string that is
    closed later on, is the same round whatever follows the text. *)
Lemma string_step_after w s c rest begin x r :
  string_step s = Appended c rest ->
  scanstring begin rest = Scanned x r ->
  string_step (s ++ w) = Appended c (rest ++ w).
Proof.
  unfold string_step. intros Hstep Hscan.
  destruct s as [| c0 t]; [discriminate |]. cbn [app].
  destruct (c0 =? 34)%N; [discriminate |].
  destruct (c0 =? 92)%N.
  2:{ destruct (c0 <=? 31)%N; [discriminate |].
      injection Hstep as <- <-. reflexivity. }
  destruct t as [| e t1]; [discriminate |]. cbn [app].
  destruct (e =? 117)%N.
  2:{ destruct (backslash e); [| discriminate].
      injection Hstep as <- <-. reflexivity. }
  destruct t1 as [| a [| b [| c1 [| d [| b2 t2]]]]]; try discriminate.
  cbn [app]. destruct (hex4 a b c1 d) as [u |]; [| discriminate].
  destruct t2 as [| u2 [| a2 [| b3 [| c2 [| d2 [| e3 t3]]]]]];
    cbn [app].
  7:{ destruct (is_high_surrogate u && (b2 =? 92) && (u2 =? 117))%N.
      - destruct (hex4 a2 b3 c2 d2) as [v |]; [| discriminate].
        destruct (is_low_surrogate v); injection Hstep as <- <-; reflexivity.
      - injection Hstep as <- <-. reflexivity. }
  all: injection Hstep as <- <-.
  all: repeat (cbn [app];
               match goal with
               | |- context [match ?v with _ => _ end] => is_var v; destruct v
               end); try reflexivity.
  all: match goal with
       | |- context [(is_high_surrogate ?h && (?z =? 92) && (?y =? 117))%N] =>
           destruct (is_high_surrogate h && (z =? 92) && (y =? 117))%N eqn:E;
           [| reflexivity]
       end.
  all: exfalso; apply andb_true_iff in E as [E E2];
    apply andb_true_iff in E as [_ E1];
    apply N.eqb_eq in E1; subst b2; cbn [scanstring] in Hscan;
    change (92 =? 34)%N with false in Hscan;
    change (92 =? 92)%N with true in Hscan; cbv iota in Hscan;
    try rewrite E2 in Hscan; try discriminate.
Qed.

Lemma scanstring_after_le w : forall n s, length s <= n ->
  forall begin begin' x r,
    scanstring begin s = Scanned x r ->
    scanstring begin' (s ++ w) = Scanned x (r ++ w).
Proof.
  induction n as [| n IH]; intros s Hn begin begin' x r H.
  - destruct s; [discriminate | cbn in Hn; lia].
  - rewrite scanstring_step in H |- *.
    destruct (string_step s) as [rest | c rest | |] eqn:Hs; try discriminate.
    + injection H as <- <-.
      assert (E : string_step (s ++ w) = Closed (rest ++ w)).
      { unfold string_step in Hs |- *. destruct s as [| c t]; [discriminate |].
        cbn [app]. destruct (c =? 34)%N; [congruence |].
        repeat (first [discriminate | break_match Hs]). }
      rewrite E. reflexivity.
    + apply cons_char_scanned in H as (x' & -> & H).
      rewrite (string_step_after w s c rest begin x' r Hs H).
      rewrite (IH rest) with (begin := begin) (x := x') (r := r).
      * reflexivity.
      * apply string_step_length in Hs. lia.
      * exact H.
Qed.

Lemma scanstring_after w begin begin' s x r :
  scanstring begin s = Scanned x r ->
  scanstring begin' (s ++ w) = Scanned x (r ++ w).
Proof. apply (scanstring_after_le w (length s)). lia. Qed.

Lemma skip_ws_after t w c r :
  skip_ws t = c :: r -> skip_ws (t ++ w) = (c :: r) ++ w.
Proof. intros H. rewrite skip_ws_app, H. reflexivity. Qed.

Lemma scan_once_nil fuel v r : scan_once fuel [] = Scanned v r -> False.
Proof. destruct fuel; [| rewrite scan_once_S]; discriminate. Qed.

Lemma array_items_nil fuel l r : array_items fuel [] = Scanned l r -> False.
Proof.
  destruct fuel; [discriminate |]. rewrite array_items_S.
  destruct (scan_once fuel []) as [v r0 | |] eqn:E; try discriminate.
  destruct (scan_once_nil _ _ _ E).
Qed.

(** A value the scanner reads in a text is read as well, with the same
    result, when whitespace follows the text. *)
Lemma scan_after w : blank w = true -> forall fuel,
  (forall s v r,
      scan_once fuel s = Scanned v r ->
      scan_once fuel (s ++ w) = Scanned v (r ++ w))
  /\ (forall s l r,
         array_items fuel s = Scanned l r ->
         array_items fuel (s ++ w) = Scanned l (r ++ w))
  /\ (forall begin begin' s l r,
         object_items fuel begin s = Scanned l r ->
         object_items fuel begin' (s ++ w) = Scanned l (r ++ w)).
Proof.
  intros Hw. induction fuel as [| fuel (IHonce & IHarr & IHobj)].
  - repeat split; intros; discriminate.
  - repeat split.
    + intros s v r H. destruct s as [| c t]; [discriminate |].
      cbn [app]. rewrite scan_once_S in H |- *.
      destruct (c =? 34)%N.
      { apply scan_map_scanned in H as (x & -> & H).
        rewrite (scanstring_after w _ (c :: t ++ w) _ _ _ H). reflexivity. }
      destruct (c =? 123)%N.
      { destruct (skip_ws t) as [| c1 t1] eqn:Et; [discriminate |].
        rewrite (skip_ws_after t w c1 t1 Et). cbn [app]. cbv zeta in H |- *.
        destruct (c1 =? 125)%N; [injection H as <- <-; reflexivity |].
        destruct (c1 =? 34)%N; [| discriminate].
        apply scan_map_scanned in H as (pairs & -> & H).
        rewrite (IHobj _ (c1 :: t1 ++ w) _ _ _ H). reflexivity. }
      destruct (c =? 91)%N.
      { destruct (skip_ws t) as [| c1 t1] eqn:Et; [discriminate |].
        rewrite (skip_ws_after t w c1 t1 Et). cbn [app]. cbv zeta in H |- *.
        destruct (c1 =? 93)%N; [injection H as <- <-; reflexivity |].
        apply scan_map_scanned in H as (items & -> & H).
        change (c1 :: t1 ++ w) with ((c1 :: t1) ++ w).
        rewrite (IHarr _ _ _ H). reflexivity. }
      change (c :: t ++ w) with ((c :: t) ++ w).
      rewrite (scan_atom_app w Hw), H. reflexivity.
    + intros s l r H. rewrite array_items_S in H |- *.
      destruct (scan_once fuel s) as [v r0 | |] eqn:E; try discriminate.
      rewrite (IHonce _ _ _ E).
      destruct (skip_ws r0) as [| c t] eqn:Er; [discriminate |].
      rewrite (skip_ws_after r0 w c t Er). cbn [app]. cbv zeta in H |- *.
      destruct (c =? 93)%N; [injection H as <- <-; reflexivity |].
      destruct (c =? 44)%N; [| discriminate].
      apply cons_item_scanned in H as (l' & -> & H).
      destruct (skip_ws t) as [| c' t'] eqn:Et.
      { destruct (array_items_nil _ _ _ H). }
      rewrite (skip_ws_after t w c' t' Et), (IHarr _ _ _ H). reflexivity.
    + intros begin begin' s l r H. rewrite object_items_S in H |- *.
      destruct (scanstring begin s) as [key r0 | |] eqn:E; try discriminate.
      rewrite (scanstring_after w begin begin' s key r0 E).
      destruct (skip_ws r0) as [| c t] eqn:Er; [discriminate |].
      rewrite (skip_ws_after r0 w c t Er). cbn [app]. cbv zeta in H |- *.
      destruct (c =? 58)%N; [| discriminate].
      destruct (skip_ws t) as [| c' t'] eqn:Et.
      { destruct (scan_once fuel []) as [v r2 | |] eqn:E2; try discriminate.
        destruct (scan_once_nil _ _ _ E2). }
      rewrite (skip_ws_after t w c' t' Et).
      destruct (scan_once fuel (c' :: t')) as [v r2 | |] eqn:E1;
        try discriminate.
      rewrite (IHonce _ _ _ E1).
      destruct (skip_ws r2) as [| c2 t2] eqn:Er2; [discriminate |].
      rewrite (skip_ws_after r2 w c2 t2 Er2). cbn [app]. cbv zeta in H |- *.
      destruct (c2 =? 125)%N; [injection H as <- <-; reflexivity |].
      destruct (c2 =? 44)%N; [| discriminate].
      destruct (skip_ws t2) as [| c3 t3] eqn:Et2; [discriminate |].
      rewrite (skip_ws_after t2 w c3 t3 Et2). cbn [app]. cbv zeta in H |- *.
      destruct (c3 =? 34)%N; [| discriminate].
      apply cons_item_scanned in H as (l' & -> & H).
      rewrite (IHobj _ (c3 :: t3 ++ w) _ _ _ H). reflexivity.
Qed.

Lemma skip_ws_all w : forallb is_ws w = true -> skip_ws w = [].
Proof.
  induction w as [| c w IH]; [reflexivity |]. cbn [forallb skip_ws].
  intros H. apply andb_true_iff in H as [-> H]. auto.
Qed.

Lemma ws_blank w : forallb is_ws w = true -> blank w = true.
Proof.
  induction w as [| c w IH]; [reflexivity |]. cbn [forallb].
  intros H. apply andb_true_iff in H as [Hc H].
  apply blank_cons_intro; [apply is_ws_space, Hc | auto].
Qed.

(** [json.loads] accepts a document followed by JSON whitespace (spaces,
    tabs, carriage returns, newlines) when it accepts the document, with the
    same value. *)
Lemma json_loads_padded w s v :
  forallb is_ws w = true -> json_loads s = Ok v -> json_loads (s ++ w) = Ok v.
Proof.
  intros Hw H. pose proof (ws_blank w Hw) as Hb.
  apply json_loads_ok in H as [Hbom H].
  apply decode_ok in H as (r & H & Hr).
  destruct (skip_ws s) as [| c t] eqn:Es.
  { destruct (scan_once_nil _ _ _ H). }
  apply json_loads_ok. split.
  - destruct s as [| c0 s0]; [discriminate |]. exact Hbom.
  - apply decode_ok. exists (r ++ w). split.
    + rewrite (skip_ws_after s w c t Es).
      apply (proj1 (scan_after w Hb _)).
      rewrite <- Es.
      rewrite (scan_once_any_fuel (2 * length (s ++ w) + 2) s)
        by (rewrite length_app; lia).
      rewrite Es. exact H.
    + rewrite skip_ws_app, Hr. apply skip_ws_all, Hw.
Qed.

Lemma split_crlf docs :
  Forall (fun d => ~ In 10%N d) docs ->
  split 10%N (crlf_body docs) = map (fun d => d ++ [13%N]) docs ++ [[]].
Proof.
  unfold crlf_body. induction 1 as [| d ds Hd _ IH]; [reflexivity |].
  cbn [map concat app].
  replace ((d ++ [13; 10]%N) ++ concat (map (fun d => d ++ [13; 10]%N) ds))
    with ((d ++ [13%N]) ++ 10%N :: concat (map (fun d => d ++ [13; 10]%N) ds))
    by (rewrite <- !app_assoc; reflexivity).
  rewrite split_app, IH, split_one; [reflexivity |].
  intros Hin. apply in_app_iff in Hin as [Hin | [Hin | []]];
    [contradiction | discriminate].
Qed.

(** X4.  Line ends of the form CR LF do no harm: on a 200 response whose
    body is a sequence of JSON documents, each on a line of its own that
    ends with a carriage return and a newline, [fetch_activities] returns
    the value of each document, in order (the carriage return left at the
    end of a line by the split on newlines is whitespace for the
    decoder). *)
Theorem fetch_crlf_body start_iso end_iso limit log docs :
  let response := requests_get (activity_request start_iso end_iso limit) in
  status_code response = 200%Z ->
  text response = crlf_body docs ->
  Forall (fun d => ~ In 10%N d /\ exists v, json_loads d = Ok v) docs ->
  exists records,
    fst (fetch_activities start_iso end_iso limit log) = Ok records
    /\ Forall2 (fun d record => json_loads d = Ok record) docs records.
Proof.
  intros response Hstatus Htext Hdocs.
  rewrite (fetch_lines _ _ _ _ Hstatus). fold response. rewrite Htext.
  assert (Hlines : split 10%N (crlf_body docs)
                   = map (fun d => d ++ [13%N]) docs ++ [[]]).
  { apply split_crlf. eapply Forall_impl; [| exact Hdocs].
    intros d [H _]. exact H. }
  assert (Hjson : Forall json_line (split 10%N (crlf_body docs))).
  { rewrite Hlines. apply Forall_app.
    split; [| repeat constructor; left; reflexivity].
    apply Forall_map. eapply Forall_impl; [| exact Hdocs].
    intros d [_ (v & Hv)]. right. exists v.
    apply json_loads_padded; [reflexivity | exact Hv]. }
  assert (Hrecords : exists records,
             Forall2 (fun d record => json_loads d = Ok record) docs records
             /\ map json_loads (filter truthy (split 10%N (crlf_body docs)))
                = map Ok records).
  { rewrite Hlines. clear Hlines Hjson Htext.
    induction Hdocs as [| d ds [_ (v & Hv)] _ (records & IH1 & IH2)].
    - exists []. split; [constructor | reflexivity].
    - exists (v :: records). split; [constructor; assumption |].
      cbn [map app filter].
      assert (Et : truthy (d ++ [13%N]) = true) by (destruct d; reflexivity).
      rewrite Et. cbn [map]. rewrite IH2. f_equal.
      apply json_loads_padded; [reflexivity | exact Hv]. }
  destruct Hrecords as (records & Hall & Hmap).
  exists records. split; [| exact Hall].
  apply loads_lines_ok. rewrite (json_lines_strip _ Hjson). exact Hmap.
Qed.

(** ** Whitespace around the body *)

Lemma lstrip_app_blank w s : blank w = true -> lstrip (w ++ s) = lstrip s.
Proof.
  induction w as [| c w IH]; intros Hw; [reflexivity |].
  apply blank_cons in Hw as [Hc Hw]. cbn [app lstrip]. rewrite Hc. auto.
Qed.

Lemma rstrip_app_blank s w : blank w = true -> rstrip (s ++ w) = rstrip s.
Proof.
  intros Hw. induction s as [| c s IH].
  - cbn [app]. apply rstrip_nil, Hw.
  - cbn [app]. rewrite !rstrip_cons, IH.
    cbn [blank forallb]. fold (blank (s ++ w)) (blank s).
    rewrite blank_app, Hw, andb_true_r. reflexivity.
Qed.

Lemma strip_padded before s after :
  blank before = true -> blank after = true ->
  strip (before ++ s ++ after) = strip s.
Proof.
  intros Hb Ha. unfold strip.
  rewrite app_assoc, (rstrip_app_blank _ _ Ha), !strip_comm.
  rewrite (lstrip_app_blank _ _ Hb). reflexivity.
Qed.

(** X5.  Whitespace before and after the body does not count: on a 200
    response whose text is a body between two runs of whitespace (blank
    lines, spaces, also the Unicode spaces that are no whitespace for the
    JSON decoder), [fetch_activities] returns, or raises, what the lines of
    the stripped body alone give. *)
Theorem fetch_ignores_outer_whitespace start_iso end_iso limit log
  before body after :
  let response := requests_get (activity_request start_iso end_iso limit) in
  status_code response = 200%Z ->
  text response = before ++ body ++ after ->
  blank before = true -> blank after = true ->
  fst (fetch_activities start_iso end_iso limit log)
  = loads_lines (split 10%N (strip body)).
Proof.
  intros response Hstatus Htext Hb Ha.
  rewrite (fetch_lines _ _ _ _ Hstatus). fold response.
  rewrite Htext, (strip_padded _ _ _ Hb Ha). reflexivity.
Qed.

(** ** What a fetch that returns has read *)

Lemma filter_blank_lines ls :
  forallb blank ls = true -> filter (fun l => negb (blank l)) ls = [].
Proof.
  induction ls as [| l ls IH]; [reflexivity |]. cbn [forallb filter].
  intros H. apply andb_true_iff in H as [-> H]. cbn [negb]. auto.
Qed.

(** The stripped lines that are not blank are the same before and after
    the body is stripped. *)
Lemma stripped_rstrip_lines ls :
  map strip (filter (fun l => negb (blank l)) (rstrip_lines ls))
  = map strip (filter (fun l => negb (blank l)) ls).
Proof.
  induction ls as [| l ls IH]; [reflexivity |].
  cbn [rstrip_lines]. destruct (forallb blank ls) eqn:Eb.
  - cbn [filter]. rewrite (filter_blank_lines ls Eb), blank_rstrip.
    destruct (blank l); cbn [negb map]; [reflexivity |].
    rewrite strip_rstrip. reflexivity.
  - cbn [filter]. destruct (blank l); cbn [negb map]; rewrite IH; reflexivity.
Qed.

Lemma stripped_lstrip_lines ls :
  map strip (filter (fun l => negb (blank l)) (lstrip_lines ls))
  = map strip (filter (fun l => negb (blank l)) ls).
Proof.
  induction ls as [| l ls IH]; [reflexivity |].
  cbn [lstrip_lines filter]. destruct (blank l) eqn:Eb; cbn [negb].
  - exact IH.
  - cbn [filter]. rewrite blank_lstrip, Eb. cbn [negb map].
    rewrite strip_lstrip. reflexivity.
Qed.

Lemma Forall2_map_left {A B C} (f : A -> B) (R : B -> C -> Prop) l rs :
  Forall2 R (map f l) rs <-> Forall2 (fun x r => R (f x) r) l rs.
Proof.
  revert rs. induction l as [| x l IH]; intros rs; cbn [map]; split;
    intros H; inversion H; subst; constructor; try apply IH; assumption.
Qed.

Lemma Forall2_left_in {A B} (R : A -> B -> Prop) l rs x :
  Forall2 R l rs -> In x l -> exists r, R x r.
Proof.
  induction 1 as [| y r l rs Hy _ IH]; intros Hin; [destruct Hin |].
  destruct Hin as [<- | Hin]; [eauto | auto].
Qed.

(** X6.  Whenever [fetch_activities] returns, the response had status 200
    and the records are, in order, the values of the lines of the body that
    are not blank, each decoded without the whitespace around it: there are
    exactly as many records as the body has non-blank lines. *)
Theorem fetch_returns_line_values start_iso end_iso limit log records :
  let response := requests_get (activity_request start_iso end_iso limit) in
  fst (fetch_activities start_iso end_iso limit log) = Ok records ->
  status_code response = 200%Z
  /\ Forall2 (fun line record => json_loads (strip line) = Ok record)
       (filter (fun l => negb (blank l)) (split 10%N (text response)))
       records
  /\ length records
     = length (filter (fun l => negb (blank l))
                 (split 10%N (text response))).
Proof.
  intros response. rewrite fetch_activities_log, fetch_result_eq.
  cbn [fst]. cbv zeta. fold response.
  destruct (status_code response =? 200)%Z eqn:Es; [| discriminate].
  cbn [negb]. intros H. apply Z.eqb_eq in Es. split; [exact Es |].
  apply loads_lines_ok, map_Ok_Forall2 in H.
  assert (Hall : Forall2
                   (fun line record => json_loads (strip line) = Ok record)
                   (filter (fun l => negb (blank l))
                      (split 10%N (text response))) records).
  { apply (Forall2_map_left strip (fun s r => json_loads s = Ok r)).
    rewrite <- stripped_rstrip_lines, <- stripped_lstrip_lines.
    rewrite <- split_rstrip, <- split_lstrip. fold (strip (text response)).
    apply (Forall2_map_left strip (fun s r => json_loads s = Ok r)).
    assert (E : filter (fun l => negb (blank l))
                  (split 10%N (strip (text response)))
                = filter truthy (split 10%N (strip (text response)))).
    { apply filter_ext_in. intros l Hl. destruct l as [| c l]; [reflexivity |].
      cbn [truthy]. apply negb_true_iff.
      destruct (blank (c :: l)) eqn:Eb; [| reflexivity].
      assert (Hin : In (c :: l)
                      (filter truthy (split 10%N (strip (text response)))))
        by (apply filter_In; auto).
      destruct (Forall2_left_in _ _ _ _ H Hin) as (r & Hr).
      destruct (json_loads_blank _ r Eb Hr). }
    rewrite E. revert H. apply Forall2_impl.
    intros l r Hl. apply json_loads_strip, Hl. }
  split; [exact Hall |].
  symmetry. exact (Forall2_length Hall).
Qed.

(** ** The frame [transform] builds *)

Lemma convert_date_tabulate idx ks (g : str -> list cell) col :
  convert_date {| index := idx; columns := map (fun k => (k, g k)) ks |} col
  = {| index := idx;
       columns :=
         map (fun k => (k, if Str.eqb k col
                           then map (to_datetime (g col)) (g col)
                           else g k)) ks |}.
Proof.
  unfold convert_date, has_column, column_names, get_column, set_column.
  cbn [columns index]. rewrite map_map. cbn [fst]. rewrite map_id.
  rewrite (dict_get_tabulate g ks col).
  destruct (existsb (Str.eqb col) ks) eqn:E.
  - f_equal. rewrite map_map. apply map_ext. intros k. cbn [fst].
    destruct (Str.eqb k col); reflexivity.
  - f_equal. apply map_ext_in. intros k Hk.
    assert (Ek : Str.eqb k col = false).
    { apply eqb_neq. intros ->. apply existsb_eqb_false in E. contradiction. }
    rewrite Ek. reflexivity.
Qed.

(** The frame after the first loop: every column as the records have it,
    the date columns converted. *)
Lemma dated_frame rows :
  fold_left convert_date date_cols (frame_of_dicts (seq 0 (length rows)) rows)
  = {| index := seq 0 (length rows);
       columns := map (fun k => (k, dated_column rows k)) (union_keys rows) |}.
Proof.
  unfold frame_of_dicts, date_cols. fold (raw_column rows).
  change (map (fun k => (k, map (fun row => cell_of row k) rows)))
    with (map (fun k => (k, raw_column rows k))).
  cbn [fold_left]. rewrite !convert_date_tabulate. f_equal.
  apply map_ext. intros k. f_equal. unfold dated_column, date_cols.
  cbn [existsb]. rewrite orb_false_r.
  destruct (Str.eqb k (lit "startDate")) eqn:E1.
  { apply eqb_eq in E1. subst k. reflexivity. }
  destruct (Str.eqb k (lit "endDate")) eqn:E2.
  { apply eqb_eq in E2. subst k. reflexivity. }
  destruct (Str.eqb k (lit "doneDate")) eqn:E3.
  { apply eqb_eq in E3. subst k. reflexivity. }
  reflexivity.
Qed.

Lemma filter_tabulate {V} (q : str -> bool) (g : str -> V) ks :
  filter (fun c => q (fst c)) (map (fun k => (k, g k)) ks)
  = map (fun k => (k, g k)) (filter q ks).
Proof.
  induction ks as [| k ks IH]; [reflexivity |].
  cbn [map filter fst]. destruct (q k); cbn [map]; rewrite IH; reflexivity.
Qed.

(** [transform] in closed form, on the records this model covers: the
    kept columns in the order of the keys, dates converted, then the
    expanded columns of each nested-object field. *)
Lemma transform_columns records rows :
  tabular records rows ->
  exists df,
    transform records = Some df
    /\ range_frame (length records) df
    /\ columns df
       = map (fun k => (k, dated_column rows k)) (kept_keys rows)
           ++ flat_map (fun f => expanded_columns f rows) nested_cols.
Proof.
  intros [Hrows Hflat]. pose proof (length_as_dicts records rows Hrows) as Hlen.
  destruct records as [| r records].
  - injection Hrows as <-. exists empty_frame.
    split; [reflexivity |]. split; [split; [reflexivity | constructor] |].
    reflexivity.
  - unfold transform, DataFrame_of_records. rewrite Hrows, dated_frame.
    set (df1 := {| index := seq 0 (length rows);
                   columns := map (fun k => (k, dated_column rows k))
                                  (union_keys rows) |}).
    assert (Hrange : range_frame (length rows) df1).
    { split; [reflexivity |]. cbn [columns df1].
      apply Forall_map, Forall_forall. intros k _. cbn [snd].
      unfold dated_column, raw_column.
      destruct (existsb _ date_cols); rewrite ?length_map; reflexivity. }
    destruct (expand_rounds rows (columns df1)) with
      (todo := nested_cols) (done := @nil str) (df := df1)
      as (df & Hexp & Hdf' & Hcols).
    + cbn [columns df1]. rewrite map_map. cbn [fst]. apply map_id.
    + intros f Hf. cbn [columns df1].
      rewrite (dict_get_tabulate (dated_column rows)).
      unfold dated_column.
      assert (E : existsb (Str.eqb f) date_cols = false).
      { apply existsb_eqb_false, nested_not_date, Hf. }
      rewrite E. reflexivity.
    + exact Hflat.
    + split; [exact Hrange |]. cbn [flat_map]. rewrite app_nil_r.
      symmetry. apply forallb_filter_id. apply forallb_forall.
      intros c _. reflexivity.
    + apply incl_refl.
    + exact nested_cols_nodup.
    + exists df. rewrite <- Hlen.
      split; [exact Hexp |]. split; [exact Hdf' |].
      cbn [app] in Hcols. rewrite Hcols. f_equal. cbn [columns df1].
      apply (filter_tabulate
               (fun k => negb (existsb (Str.eqb k) nested_cols))).
Qed.

Lemma names_tabulate {V} (g : str -> V) ks :
  map fst (map (fun k => (k, g k)) ks) = ks.
Proof. rewrite map_map. cbn [fst]. apply map_id. Qed.

Lemma expanded_column_names f rows :
  map fst (expanded_columns f rows) = expanded_labels f rows.
Proof.
  unfold expanded_columns, expanded_labels. rewrite map_map. reflexivity.
Qed.

Lemma names_flat_map {A} (g : A -> list (str * list cell)) l :
  map fst (flat_map g l) = flat_map (fun x => map fst (g x)) l.
Proof.
  induction l as [| x l IH]; [reflexivity |].
  cbn [flat_map]. rewrite map_app, IH. reflexivity.
Qed.

Lemma kept_keys_in rows k :
  In k (kept_keys rows) <-> In k (union_keys rows) /\ ~ In k nested_cols.
Proof.
  unfold kept_keys. rewrite filter_In, negb_true_iff, existsb_eqb_false.
  reflexivity.
Qed.

Lemma expanded_label_underscore f rows name :
  In name (expanded_labels f rows) -> has_underscore name = true.
Proof.
  unfold expanded_labels. intros H. apply in_map_iff in H as (sub & <- & _).
  apply expanded_underscore.
Qed.

Lemma date_no_underscore k : In k date_cols -> has_underscore k = false.
Proof.
  intros H. repeat (destruct H as [<- | H]; [reflexivity |]). destruct H.
Qed.

(** X7.  The columns of the frame [transform] returns, in order: the keys
    of the records that are not nested-object fields, in the order in which
    the records first show them (date columns stay where they are), then,
    for type, organization, person, user and company in this order, the
    labels [field_sub] of what the field expands to. *)
Theorem transform_column_order records rows :
  tabular records rows ->
  exists df,
    transform records = Some df
    /\ column_names df
       = kept_keys rows
           ++ flat_map (fun f => expanded_labels f rows) nested_cols.
Proof.
  intros Htab.
  destruct (transform_columns records rows Htab) as (df & Hdf & _ & Hcols).
  exists df. split; [exact Hdf |].
  unfold column_names. rewrite Hcols, map_app, names_tabulate, names_flat_map.
  f_equal. apply flat_map_ext. intros f. apply expanded_column_names.
Qed.

(** X8.  A key of the records that is neither a date column nor a
    nested-object field goes through the two loops of [transform]
    untouched: the frame returned has the column of that key, with the
    cells [pd.DataFrame(records)] gave it, one for each record.  (Whatever
    the constructor of the frame makes of the values, the loops add nothing
    to it for such a column.) *)
Theorem transform_keeps_other_columns records rows k :
  tabular records rows ->
  In k (union_keys rows) -> ~ In k nested_cols -> ~ In k date_cols ->
  exists df0 df cells,
    DataFrame_of_records records = Some df0
    /\ transform records = Some df
    /\ dict_get (columns df0) k = Some cells
    /\ dict_get (columns df) k = Some cells
    /\ In (k, cells) (columns df)
    /\ length cells = length records.
Proof.
  intros Htab Hk Hnested Hdate.
  destruct (transform_columns records rows Htab) as (df & Hdf & _ & Hcols).
  assert (Hkept : In k (kept_keys rows)) by (apply kept_keys_in; auto).
  assert (E : dated_column rows k = raw_column rows k).
  { unfold dated_column.
    apply existsb_eqb_false in Hdate. rewrite Hdate. reflexivity. }
  exists (frame_of_dicts (seq 0 (length rows)) rows), df, (raw_column rows k).
  split; [unfold DataFrame_of_records; rewrite (proj1 Htab); reflexivity |].
  split; [exact Hdf |]. split; [| split; [| split]].
  - unfold frame_of_dicts. cbn [columns]. fold (raw_column rows).
    change (map (fun k0 => (k0, map (fun row => cell_of row k0) rows)))
      with (map (fun k0 => (k0, raw_column rows k0))).
    rewrite (dict_get_tabulate (raw_column rows)).
    apply existsb_eqb in Hk. rewrite Hk. reflexivity.
  - rewrite Hcols, dict_get_app, (dict_get_tabulate (dated_column rows)).
    apply existsb_eqb in Hkept. rewrite Hkept, E. reflexivity.
  - rewrite Hcols. apply in_or_app. left. rewrite <- E.
    apply (in_map (fun k => (k, dated_column rows k))), Hkept.
  - unfold raw_column. rewrite length_map. apply length_as_dicts, Htab.
Qed.

(** X9.  A date column (startDate, endDate, doneDate) that some record
    has is replaced, at its place, by what [to_datetime] makes of the whole
    column as the records have it (missing where a record lacks the key);
    a date column no record has is not created. *)
Theorem transform_converts_dates records rows k :
  tabular records rows -> In k date_cols ->
  exists df,
    transform records = Some df
    /\ (In k (union_keys rows) ->
        dict_get (columns df) k
        = Some (map (to_datetime (raw_column rows k)) (raw_column rows k)))
    /\ (~ In k (union_keys rows) -> ~ In k (column_names df)).
Proof.
  intros Htab Hk.
  destruct (transform_columns records rows Htab) as (df & Hdf & _ & Hcols).
  assert (Hnested : ~ In k nested_cols).
  { intros H. exact (nested_not_date k H Hk). }
  exists df. split; [exact Hdf |]. split.
  - intros Hin.
    assert (Hkept : In k (kept_keys rows)) by (apply kept_keys_in; auto).
    rewrite Hcols, dict_get_app, (dict_get_tabulate (dated_column rows)).
    apply existsb_eqb in Hkept. rewrite Hkept. unfold dated_column.
    apply existsb_eqb in Hk. rewrite Hk. reflexivity.
  - intros Hout. unfold column_names.
    rewrite Hcols, map_app, names_tabulate, names_flat_map, in_app_iff.
    intros [H | H].
    + apply kept_keys_in in H as [H _]. exact (Hout H).
    + apply in_flat_map in H as (f & _ & H).
      rewrite expanded_column_names in H.
      apply expanded_label_underscore in H.
      rewrite (date_no_underscore k Hk) in H. discriminate.
Qed.

Lemma remove_field f fs :
  NoDup fs ->
  forall (g : str -> list str), g f = [] ->
  flat_map g fs = flat_map g (filter (fun x => negb (Str.eqb x f)) fs).
Proof.
  intros _ g Hg. induction fs as [| x fs IH]; [reflexivity |].
  cbn [flat_map filter]. destruct (Str.eqb x f) eqn:E; cbn [negb flat_map].
  - apply eqb_eq in E. subst x. rewrite Hg. exact IH.
  - rewrite IH. reflexivity.
Qed.

(** X10.  A nested-object field that holds a mapping in no record (it holds
    strings, numbers or null, or empty mappings, wherever it is present) is
    dropped and nothing takes its place: the frame has no column of that
    name and no column expanded from it, so what the records had under the
    field is lost. *)
Theorem transform_drops_scalar_nested records rows f :
  tabular records rows -> In f nested_cols ->
  (forall row d, In row rows -> dict_get row f = Some (JObj d) -> d = []) ->
  exists df,
    transform records = Some df
    /\ ~ In f (column_names df)
    /\ column_names df
       = kept_keys rows
           ++ flat_map (fun g => expanded_labels g rows)
                (filter (fun g => negb (Str.eqb g f)) nested_cols).
Proof.
  intros Htab Hf Hscalar.
  destruct (transform_columns records rows Htab) as (df & Hdf & _ & Hcols).
  assert (Hnames : column_names df
                   = kept_keys rows
                       ++ flat_map (fun g => expanded_labels g rows)
                            nested_cols).
  { unfold column_names.
    rewrite Hcols, map_app, names_tabulate, names_flat_map.
    f_equal. apply flat_map_ext. intros g. apply expanded_column_names. }
  exists df. split; [exact Hdf |]. split.
  - rewrite Hnames, in_app_iff. intros [H | H].
    + apply kept_keys_in in H as [_ H]. exact (H Hf).
    + apply in_flat_map in H as (g & _ & H).
      apply expanded_label_underscore in H.
      rewrite (nested_no_underscore f Hf) in H. discriminate.
  - rewrite Hnames. f_equal.
    apply (remove_field f nested_cols nested_cols_nodup
             (fun g => expanded_labels g rows)).
    unfold expanded_labels. rewrite union_keys_empty; [reflexivity |].
    apply Forall_map, Forall_forall. intros row Hrow. unfold normalised.
    destruct (dict_get row f) as [[] |] eqn:E; try reflexivity.
    rewrite (Hscalar row members Hrow E). reflexivity.
Qed.

(** The values [json_normalize] leaves in a flattened record are never
    mappings. *)
Lemma dict_set_values {V} (P : V -> Prop) (d : list (str * V)) k v :
  Forall (fun kv => P (snd kv)) d -> P v ->
  Forall (fun kv => P (snd kv)) (dict_set d k v).
Proof.
  intros Hd Hv. induction Hd as [| [k' v'] d Hk' Hd IH]; cbn [dict_set].
  - repeat constructor. exact Hv.
  - destruct (Str.eqb k' k); constructor; auto.
Qed.

Lemma dict_sets_values {V} (P : V -> Prop) (pairs : list (str * V)) :
  forall d,
  Forall (fun kv => P (snd kv)) d -> Forall (fun kv => P (snd kv)) pairs ->
  Forall (fun kv => P (snd kv))
    (fold_left (fun d kv => dict_set d (fst kv) (snd kv)) pairs d).
Proof.
  induction pairs as [| [k v] pairs IH]; intros d Hd Hp; [exact Hd |].
  cbn [fold_left fst snd]. inversion Hp; subst.
  apply IH; [apply dict_set_values |]; assumption.
Qed.

Lemma assignments_flat : forall data key_string,
  Forall (fun kv => is_dict (snd kv) = false) (assignments key_string data).
Proof.
  fix IH 1. intros [| b | z | t | s | items | members] key_string;
    try (repeat constructor; fail).
  cbn [assignments].
  induction members as [| [k v] members IHm]; [constructor |].
  apply Forall_app. split; [apply IH | exact IHm].
Qed.

Lemma normalise_flat d :
  Forall (fun kv => is_dict (snd kv) = false) (normalise_json_ordered d).
Proof.
  unfold normalise_json_ordered, dict_of_pairs.
  apply (dict_sets_values (fun v => is_dict v = false)).
  - apply Forall_forall. intros kv Hkv. apply filter_In in Hkv as [_ H].
    apply negb_true_iff, H.
  - apply (dict_sets_values (fun v => is_dict v = false));
      [constructor | apply assignments_flat].
Qed.

Lemma dict_get_member {V} (d : list (str * V)) k v :
  dict_get d k = Some v -> exists k', In (k', v) d.
Proof.
  induction d as [| [k' v'] d IH]; cbn [dict_get]; [discriminate |].
  destruct (Str.eqb k' k).
  - intros [= ->]. exists k'. left. reflexivity.
  - intros H. destruct (IH H) as (k'' & Hin). exists k''. right. exact Hin.
Qed.

Lemma expanded_cell_flat f sub row :
  holds_dict (expanded_cell f sub row) = false.
Proof.
  unfold expanded_cell, cell_of, normalised.
  destruct (dict_get row f) as [[| | | | | | d] |]; try reflexivity.
  destruct (dict_get (normalise_json_ordered d) sub) as [v |] eqn:E;
    [| reflexivity].
  apply dict_get_member in E as (k' & Hin).
  pose proof (normalise_flat d) as H. rewrite Forall_forall in H.
  exact (H (k', v) Hin).
Qed.

(** X11.  The columns the expansion creates are flat: in a column of the
    result whose label is not a key of the records, no cell holds a
    mapping (mappings inside a nested-object field are flattened all the
    way down by [json_normalize]). *)
Theorem transform_cells_flat records rows :
  tabular records rows ->
  exists df,
    transform records = Some df
    /\ forall label cells,
         In (label, cells) (columns df) -> ~ In label (union_keys rows) ->
         forall c, In c cells -> holds_dict c = false.
Proof.
  intros Htab.
  destruct (transform_columns records rows Htab) as (df & Hdf & _ & Hcols).
  exists df. split; [exact Hdf |]. intros label cells Hin Hnew c Hc.
  rewrite Hcols in Hin. apply in_app_iff in Hin as [Hin | Hin].
  - apply in_map_iff in Hin as (k & [= <- <-] & Hk).
    apply kept_keys_in in Hk as [Hk _]. destruct (Hnew Hk).
  - apply in_flat_map in Hin as (f & _ & Hin). unfold expanded_columns in Hin.
    apply in_map_iff in Hin as (sub & [= <- <-] & _).
    apply in_map_iff in Hc as (row & <- & _). apply expanded_cell_flat.
Qed.

(** ** A run in which every batch is fetched *)

Lemma run_batches_all ws : forall batches all_records log,
  Forall2 (fun w b => fetch_window w = Ok b) ws batches ->
  run_batches ws all_records log
  = (inr (all_records ++ concat batches), log ++ loop_events ws batches).
Proof.
  induction ws as [| w ws IH]; intros batches all_records log H;
    inversion H as [| ? b ? bs Hw Hws]; subst.
  - cbn [run_batches concat]. unfold loop_events. cbn [combine flat_map].
    rewrite !app_nil_r. reflexivity.
  - rewrite run_batches_cons, Hw, (IH bs _ _ Hws).
    unfold loop_events. cbn [combine flat_map concat fst snd].
    unfold batch_events at 2. rewrite <- !app_assoc. reflexivity.
Qed.

(** The handler after the loop, when every batch was fetched. *)
Lemma handler_fetched now log batches :
  Forall2 (fun w b => fetch_window w = Ok b) (windows now) batches ->
  adsim_activity_etl now log
  = let log1 :=
      log ++ loop_events (windows now) batches
          ++ [Transform (concat batches)] in
    match transform (concat batches) with
    | None => (Unmodelled, log1)
    | Some df =>
        match load_to_bigquery df default_table_id log1 with
        | (Ok load_result, log2) =>
            (Reply (success_payload (len df) load_result) 200, log2)
        | (Raise e, log2) => (Uncaught e, log2)
        end
    end.
Proof.
  intros H. unfold adsim_activity_etl. cbv zeta.
  rewrite handler_loop, (run_batches_all _ _ _ _ H). cbn [app].
  rewrite <- app_assoc. reflexivity.
Qed.

(** X12.  When every batch is fetched, the events of an invocation are, in
    this order: for each of the 90 windows its request and then the line
    printed with the number of records of that batch; one call of
    [transform], on the records of all the batches in the order of the
    windows (none dropped, none merged); and then one load job for the
    frame and the default table, unless the frame is empty. *)
Theorem handler_success_trace now log batches df :
  Forall2 (fun w b => fetch_window w = Ok b) (windows now) batches ->
  transform (concat batches) = Some df ->
  snd (adsim_activity_etl now log)
  = log ++ loop_events (windows now) batches
        ++ [Transform (concat batches)]
        ++ (if empty df then [] else [LoadJob df default_table_id]).
Proof.
  intros H Hdf. rewrite (handler_fetched now log batches H). cbv zeta.
  rewrite Hdf. unfold load_to_bigquery.
  destruct (empty df).
  - cbn [snd]. rewrite app_nil_r. reflexivity.
  - destruct (load_table_from_dataframe df default_table_id); cbn [snd];
      rewrite <- !app_assoc; reflexivity.
Qed.

(** X13.  When every batch is fetched and the load job of the frame
    reports [output_rows] rows, the handler replies 200 with status
    success; [records_loaded] is the number of records fetched over all the
    batches (the length of the frame), whatever count the job reports, and
    the message is the summary with the job's count and the default
    table. *)
Theorem handler_success_reply now log batches rows df output_rows :
  Forall2 (fun w b => fetch_window w = Ok b) (windows now) batches ->
  tabular (concat batches) rows ->
  transform (concat batches) = Some df ->
  empty df = false ->
  load_table_from_dataframe df default_table_id = Ok output_rows ->
  fst (adsim_activity_etl now log)
  = Reply (success_payload (length (concat batches))
             (lit "Carregado " ++ of_Z output_rows
                ++ lit " linhas na tabela databaseparanaiba.adsim_dataset.activity"))
      200.
Proof.
  intros H Htab Hdf Hempty Hload.
  rewrite (handler_fetched now log batches H). cbv zeta.
  rewrite Hdf. unfold load_to_bigquery. rewrite Hempty, Hload. cbn [fst].
  destruct (transform_frame _ _ Htab) as (df' & base & Hdf' & [Hidx _] & _).
  rewrite Hdf in Hdf'. injection Hdf' as <-.
  unfold len. rewrite Hidx, length_seq. reflexivity.
Qed.

(** X14.  An error of the load job is not caught: when every batch is
    fetched and the job raises, the exception leaves the handler (no JSON
    reply is made, also when the exception is a [ValueError]), after all the
    requests, the call of [transform] and the one load job. *)
Theorem handler_load_error_uncaught now log batches df e :
  Forall2 (fun w b => fetch_window w = Ok b) (windows now) batches ->
  transform (concat batches) = Some df ->
  empty df = false ->
  load_table_from_dataframe df default_table_id = Raise e ->
  adsim_activity_etl now log
  = (Uncaught e,
     log ++ loop_events (windows now) batches
         ++ [Transform (concat batches); LoadJob df default_table_id]).
Proof.
  intros H Hdf Hempty Hload.
  rewrite (handler_fetched now log batches H). cbv zeta.
  rewrite Hdf. unfold load_to_bigquery. rewrite Hempty, Hload.
  rewrite <- !app_assoc. reflexivity.
Qed.

Lemma blank_window_fetch w :
  status_code (requests_get (window_request w)) = 200%Z ->
  blank (text (requests_get (window_request w))) = true ->
  fetch_window w = Ok [].
Proof.
  intros Hstatus Hblank. unfold fetch_window. rewrite fetch_result_eq.
  cbv zeta. fold (window_request w).
  rewrite Hstatus, (strip_blank _ Hblank). reflexivity.
Qed.

Lemma concat_nils {A} n : concat (repeat (@nil A) n) = [].
Proof. induction n as [| n IH]; [reflexivity | exact IH]. Qed.

(** X15.  When the API answers every window with status 200 and a body
    that is empty or blank, the handler sends the 90 requests, calls
    [transform] on no records, runs no load job, and replies 200 with
    status success, [records_loaded] 0 and the no-data message. *)
Theorem handler_nothing_fetched now log :
  (forall w, In w (windows now) ->
     status_code (requests_get (window_request w)) = 200%Z
     /\ blank (text (requests_get (window_request w))) = true) ->
  adsim_activity_etl now log
  = (Reply (success_payload 0 no_data) 200,
     log ++ loop_events (windows now) (repeat [] 90) ++ [Transform []]).
Proof.
  intros Hall.
  assert (H : Forall2 (fun w b => fetch_window w = Ok b) (windows now)
                (repeat [] 90)).
  { change 90 with (length (windows now)).
    induction (windows now) as [| w ws IH]; [constructor |].
    cbn [length repeat]. constructor.
    - destruct (Hall w (or_introl eq_refl)).
      apply blank_window_fetch; assumption.
    - apply IH. intros w' Hw'. apply Hall. right. exact Hw'. }
  rewrite (handler_fetched now log _ H). cbv zeta.
  rewrite concat_nils. reflexivity.
Qed.

Lemma key_has_value {V} (d : list (str * V)) k :
  In k (keys d) -> exists v, dict_get d k = Some v.
Proof.
  intros H. destruct (dict_get d k) as [v |] eqn:E; [eauto |].
  apply dict_get_none in E. contradiction.
Qed.

(** X16.  [records_loaded] counts the rows of the frame, not what was
    loaded: when every record fetched has only nested-object fields that
    hold scalars (or no field at all), the frame keeps its rows but has no
    column left, so it is empty for [load_to_bigquery]; the handler runs no
    load job and still replies success with [records_loaded] equal to the
    number of records fetched, beside the no-data message. *)
Theorem handler_rows_without_columns now log batches rows :
  Forall2 (fun w b => fetch_window w = Ok b) (windows now) batches ->
  as_dicts (concat batches) = Some rows ->
  (forall row k v,
     In row rows -> dict_get row k = Some v ->
     In k nested_cols /\ is_scalar v = true) ->
  adsim_activity_etl now log
  = (Reply (success_payload (length (concat batches)) no_data) 200,
     log ++ loop_events (windows now) batches
         ++ [Transform (concat batches)]).
Proof.
  intros H Hrows Hscalar.
  assert (Htab : tabular (concat batches) rows).
  { split; [exact Hrows |]. apply Forall_forall. intros row Hrow f l _ E.
    destruct (Hscalar row f _ Hrow E) as [_ Hs]. discriminate. }
  destruct (transform_columns _ _ Htab) as (df & Hdf & [Hidx _] & Hcols).
  assert (Hkept : kept_keys rows = []).
  { destruct (kept_keys rows) as [| k ks] eqn:E; [reflexivity |].
    assert (Hk : In k (kept_keys rows)) by (rewrite E; left; reflexivity).
    apply kept_keys_in in Hk as [Hk Hn].
    apply union_keys_in in Hk as (row & Hrow & Hk).
    apply key_has_value in Hk as (v & Hv).
    destruct (Hscalar row k v Hrow Hv) as [Hin _]. contradiction. }
  assert (Hexp : forall f, expanded_columns f rows = []).
  { intros f. unfold expanded_columns.
    rewrite union_keys_empty; [reflexivity |].
    apply Forall_map, Forall_forall. intros row Hrow. unfold normalised.
    destruct (dict_get row f) as [[] |] eqn:E; try reflexivity.
    destruct (Hscalar row f _ Hrow E) as [_ Hs]. discriminate. }
  assert (Hnone : columns df = []).
  { rewrite Hcols, Hkept. cbn [map app]. clear - Hexp.
    generalize nested_cols. intros fs.
    induction fs as [| f fs IH]; [reflexivity |].
    cbn [flat_map]. rewrite Hexp. exact IH. }
  assert (Hempty : empty df = true).
  { unfold empty. rewrite Hnone. destruct (index df); reflexivity. }
  rewrite (handler_fetched now log batches H). cbv zeta.
  rewrite Hdf. unfold load_to_bigquery. rewrite Hempty.
  unfold len. rewrite Hidx, length_seq. reflexivity.
Qed.

(** ** The requests of an invocation *)

Lemma handler_trace now log :
  exists k trace,
    k <= 90
    /\ snd (adsim_activity_etl now log) = log ++ trace
    /\ requests_of trace = firstn k (map window_request (windows now)).
Proof.
  unfold adsim_activity_etl. cbv zeta. rewrite handler_loop.
  destruct (run_batches_prefix (windows now) [] log)
    as (k & trace & Hk & Hsnd & Hreq & _).
  change (length (windows now)) with 90 in Hk.
  destruct (run_batches (windows now) [] log) as [[reply | records] log'];
    cbn [snd] in *; subst log'.
  - exists k, trace. auto.
  - destruct (transform records) as [df |].
    + unfold load_to_bigquery. destruct (empty df).
      * exists k, (trace ++ [Transform records]). split; [exact Hk |].
        cbn [snd]. rewrite <- app_assoc. split; [reflexivity |].
        rewrite requests_of_app, Hreq. cbn. apply app_nil_r.
      * exists k, (trace ++ [Transform records; LoadJob df default_table_id]).
        split; [exact Hk |].
        destruct (load_table_from_dataframe df default_table_id);
          cbn [snd]; rewrite <- !app_assoc; (split; [reflexivity |]);
          rewrite requests_of_app, Hreq; cbn; apply app_nil_r.
    + exists k, (trace ++ [Transform records]). split; [exact Hk |].
      cbn [snd]. rewrite <- app_assoc. split; [reflexivity |].
      rewrite requests_of_app, Hreq. cbn. apply app_nil_r.
Qed.

(** X17.  The module loads only when the environment has a non-empty
    [ADSIM_BEARER], and the token is that value as it is.  Every request of
    an invocation then goes to the activity endpoint of the API, asks for
    NDJSON, carries [Bearer] and the token as its authorization, and has
    [ignoreDeleted] true and [limit] 100 among its parameters. *)
Theorem requests_carry_token environ now log :
  import_module environ = Ok ADSIM_BEARER ->
  dict_get environ (lit "ADSIM_BEARER") = Some ADSIM_BEARER
  /\ ADSIM_BEARER <> []
  /\ exists trace,
       snd (adsim_activity_etl now log) = log ++ trace
       /\ Forall
            (fun r =>
               req_url r = lit "https://api.adsim.co/crm-r/api/v2/activity"
               /\ dict_get (req_headers r) (lit "accept")
                  = Some (lit "application/x-ndjson")
               /\ dict_get (req_headers r) (lit "Authorization")
                  = Some (lit "Bearer " ++ ADSIM_BEARER)
               /\ dict_get (req_params r) (lit "ignoreDeleted")
                  = Some (JStr (lit "true"))
               /\ dict_get (req_params r) (lit "limit") = Some (JInt 100))
            (requests_of trace).
Proof.
  unfold import_module. intros Himport.
  destruct (dict_get environ (lit "ADSIM_BEARER")) as [token |];
    [| discriminate].
  destruct (truthy token) eqn:Et; [| discriminate].
  injection Himport as Heq. rewrite Heq in Et |- *.
  split; [reflexivity |].
  split; [intros E; rewrite E in Et; discriminate |].
  destruct (handler_trace now log) as (k & trace & _ & Hsnd & Hreq).
  exists trace. split; [exact Hsnd |]. rewrite Hreq.
  apply Forall_forall. intros r Hr.
  assert (Hin : In r (map window_request (windows now))).
  { rewrite <- (firstn_skipn k (map window_request (windows now))).
    apply in_or_app. left. exact Hr. }
  apply in_map_iff in Hin as (w & <- & _).
  repeat split; reflexivity.
Qed.

(** ** A run that stops at a batch *)

Lemma run_batches_stop pre w post e : forall batches all_records log,
  Forall2 (fun w b => fetch_window w = Ok b) pre batches ->
  fetch_window w = Raise e ->
  run_batches (pre ++ w :: post) all_records log
  = (inl (if is_ValueError e then Reply (args0 e) 500 else Uncaught e),
     log ++ loop_events pre batches ++ [Get (window_request w)]).
Proof.
  induction pre as [| x pre IH]; intros batches all_records log Hpre Hw;
    inversion Hpre as [| ? b ? bs Hx Hpre']; subst.
  - cbn [app]. rewrite run_batches_cons, Hw. reflexivity.
  - cbn [app]. rewrite run_batches_cons, Hx, (IH bs _ _ Hpre' Hw).
    unfold loop_events. cbn [combine flat_map fst snd].
    unfold batch_events at 2. rewrite <- !app_assoc. reflexivity.
Qed.

(** X18.  When the fetch of batch [k] raises, the batches before it having
    been fetched, the events of the invocation are exactly the request and
    the printed line of each earlier batch, in order, and then the request
    of batch [k]: nothing is printed for the failing batch.  The reply is
    500 with the payload of the error when the error is a [ValueError];
    any other exception leaves the handler, which then makes no reply. *)
Theorem handler_failure_trace now log k batches e :
  k < 90 ->
  Forall2 (fun w b => fetch_window w = Ok b) (firstn k (windows now)) batches ->
  fetch_window (window now k) = Raise e ->
  adsim_activity_etl now log
  = (if is_ValueError e then Reply (args0 e) 500 else Uncaught e,
     log ++ loop_events (firstn k (windows now)) batches
         ++ [Get (window_request (window now k))]).
Proof.
  intros Hk Hbefore Hraise. unfold adsim_activity_etl. cbv zeta.
  rewrite handler_loop.
  rewrite (windows_firstn now k) in Hbefore |- * by lia.
  rewrite (windows_split now k Hk).
  rewrite (run_batches_stop _ _ _ e batches [] log Hbefore Hraise).
  destruct (is_ValueError e); reflexivity.
Qed.

(** ** The ways an invocation ends *)

(** X19.  An invocation ends in one of these ways and no other.  Either
    some batch [k] is the first whose fetch raises: when it raises a
    [ValueError] the reply is 500 with the payload of that error, and when
    it raises anything else the exception leaves the handler.  Or all the
    90 batches are fetched, and then the handler replies 200 with status
    success, [records_loaded] the length of the frame and the message of
    [load_to_bigquery], or the error of the load job leaves the handler (or
    the frame is outside the fragment of pandas covered here).  So a 500
    reply always comes from a fetch that raised a [ValueError], and success
    is never reported unless every batch was fetched. *)
Theorem handler_outcomes now log :
  (exists k e,
      k < 90
      /\ (forall j, j < k -> fetched (window now j))
      /\ fetch_window (window now k) = Raise e
      /\ is_ValueError e = true
      /\ fst (adsim_activity_etl now log) = Reply (args0 e) 500)
  \/ (exists k e,
        k < 90
        /\ (forall j, j < k -> fetched (window now j))
        /\ fetch_window (window now k) = Raise e
        /\ is_ValueError e = false
        /\ fst (adsim_activity_etl now log) = Uncaught e)
  \/ (Forall fetched (windows now)
      /\ exists batches,
           Forall2 (fun w b => fetch_window w = Ok b) (windows now) batches
           /\ ((transform (concat batches) = None
                /\ fst (adsim_activity_etl now log) = Unmodelled)
               \/ (exists df load_result,
                     transform (concat batches) = Some df
                     /\ fst (adsim_activity_etl now log)
                        = Reply (success_payload (len df) load_result) 200)
               \/ (exists df e,
                     transform (concat batches) = Some df
                     /\ empty df = false
                     /\ load_table_from_dataframe df default_table_id
                        = Raise e
                     /\ fst (adsim_activity_etl now log) = Uncaught e))).
Proof.
  destruct (run_batches_cases (windows now) [] log)
    as [(pre & w & post & e & E & Hpre & Hw & Hrun)
       | (Hall & batches & Hb & Hrun)].
  - destruct (windows_prefix now pre w post E) as (Hk & -> & Hin).
    assert (Hbefore : forall j, j < length pre -> fetched (window now j)).
    { intros j Hj. rewrite Forall_forall in Hpre. apply Hpre, Hin, Hj. }
    assert (Hfst : fst (adsim_activity_etl now log)
                   = if is_ValueError e then Reply (args0 e) 500
                     else Uncaught e).
    { unfold adsim_activity_etl. cbv zeta. rewrite handler_loop.
      destruct (run_batches (windows now) [] log) as [r log'].
      cbn [fst] in Hrun. subst r. reflexivity. }
    destruct (is_ValueError e) eqn:Ee; [left | right; left];
      exists (length pre), e; auto.
  - right. right. split; [exact Hall |]. exists batches. split; [exact Hb |].
    rewrite (handler_fetched now log batches Hb). cbv zeta.
    destruct (transform (concat batches)) as [df |]; [| left; auto].
    right. unfold load_to_bigquery. destruct (empty df) eqn:Ee.
    + left. exists df, no_data. auto.
    + destruct (load_table_from_dataframe df default_table_id) as [n | e]
        eqn:El.
      * left. eexists df, _. split; reflexivity.
      * right. exists df, e. auto.
Qed.

(** ** The timestamps of the requests *)

Lemma digits_revapp x : forall y,
  digits (Decimal.revapp x y) = rev (digits x) ++ digits y.
Proof.
  induction x; intros y; cbn [Decimal.revapp digits rev];
    [reflexivity | ..]; rewrite IHx; cbn [digits]; rewrite <- app_assoc;
    reflexivity.
Qed.

Lemma to_uint_little n :
  N.to_uint n = Decimal.rev (DecimalPos.Unsigned.to_lu n).
Proof. destruct n; reflexivity. Qed.

(** The decimal digits of [10 n + d]: those of [n], then the digit [d]. *)
Lemma of_N_snoc n d :
  (0 < n)%N -> (d < 10)%N -> of_N (10 * n + d) = of_N n ++ [(48 + d)%N].
Proof.
  intros Hn Hd. destruct n as [| p]; [lia |].
  assert (Hlu : DecimalPos.Unsigned.to_lu (10 * N.pos p + d)
                = match d with
                  | 0 => Decimal.D0 | 1 => Decimal.D1 | 2 => Decimal.D2
                  | 3 => Decimal.D3 | 4 => Decimal.D4 | 5 => Decimal.D5
                  | 6 => Decimal.D6 | 7 => Decimal.D7 | 8 => Decimal.D8
                  | _ => Decimal.D9
                  end%N (DecimalPos.Unsigned.to_lu (N.pos p))).
  { assert (Hcases : In d [0; 1; 2; 3; 4; 5; 6; 7; 8; 9]%N).
    { cbn [In]. lia. }
    pose proof (DecimalPos.Unsigned.to_ldec_tenfold p) as H10.
    cbn [In] in Hcases.
    repeat (destruct Hcases as [<- | Hcases];
            [ match goal with
              | |- context [(10 * N.pos p + ?k)%N] =>
                  replace (10 * N.pos p + k)%N
                    with (Nat.iter (N.to_nat k) N.succ (10 * N.pos p)%N)
                    by (cbv [N.to_nat Pos.to_nat Pos.iter_op Nat.add Nat.iter
                               nat_rect];
                        lia)
              end;
              cbv [N.to_nat Pos.to_nat Pos.iter_op Nat.add Nat.iter nat_rect];
              rewrite ?DecimalPos.Unsigned.to_lu_succ, H10; reflexivity |]).
    destruct Hcases. }
  unfold of_N. rewrite !to_uint_little, Hlu. unfold Decimal.rev.
  assert (Hd' : In d [0; 1; 2; 3; 4; 5; 6; 7; 8; 9]%N) by (cbn [In]; lia).
  cbn [In] in Hd'.
  repeat (destruct Hd' as [<- | Hd'];
          [cbn [Decimal.revapp]; rewrite !digits_revapp; cbn [digits];
           rewrite app_nil_r; reflexivity |]).
  destruct Hd'.
Qed.

Lemma pad_three b : (b < 1000)%N -> pad 3 (of_N b) = three_digits b.
Proof.
  intros Hb.
  assert (Hall : forallb (fun b => Str.eqb (pad 3 (of_N b)) (three_digits b))
                   (map N.of_nat (seq 0 1000)) = true)
    by (vm_compute; reflexivity).
  rewrite forallb_forall in Hall. apply eqb_eq, Hall.
  apply in_map_iff. exists (N.to_nat b). split; [apply N2Nat.id |].
  apply in_seq. lia.
Qed.

Lemma of_N_three a d2 d1 d0 :
  (0 < a)%N -> (d2 < 10)%N -> (d1 < 10)%N -> (d0 < 10)%N ->
  of_N (10 * (10 * (10 * a + d2) + d1) + d0)
  = of_N a ++ [48 + d2; 48 + d1; 48 + d0]%N.
Proof.
  intros Ha H2 H1 H0. rewrite !of_N_snoc by lia.
  rewrite <- !app_assoc. reflexivity.
Qed.

Lemma of_N_thousands a b :
  (0 < a)%N -> (b < 1000)%N ->
  of_N (1000 * a + b) = of_N a ++ three_digits b.
Proof.
  intros Ha Hb. unfold three_digits.
  assert (H2 : (b / 100 < 10)%N) by (apply N.Div0.div_lt_upper_bound; lia).
  assert (H1 : ((b / 10) mod 10 < 10)%N) by (apply N.mod_lt; discriminate).
  assert (H0 : (b mod 10 < 10)%N) by (apply N.mod_lt; discriminate).
  rewrite <- (of_N_three a _ _ _ Ha H2 H1 H0). f_equal.
  pose proof (N.div_mod b 10 ltac:(discriminate)) as E0.
  pose proof (N.div_mod (b / 10) 10 ltac:(discriminate)) as E1.
  rewrite N.Div0.div_div in E1. change (10 * 10)%N with 100%N in E1.
  revert E0 E1.
  generalize (b / 100)%N ((b / 10) mod 10)%N (b mod 10)%N (b / 10)%N.
  intros q2 r1 r0 q1 E0 E1. lia.
Qed.

Lemma length_of_N_small a : (a < 1000)%N -> length (of_N a) <= 3.
Proof.
  intros Ha. pose proof (f_equal (@length N) (pad_three a Ha)) as H.
  unfold pad in H. rewrite length_app, repeat_length in H.
  cbn [three_digits length] in H. unfold char in *. lia.
Qed.

(** The six digits of the microseconds: the three of the milliseconds, then
    the three of what is left. *)
Lemma pad_six x :
  (x < 1000000)%N ->
  pad 6 (of_N x) = three_digits (x / 1000) ++ three_digits (x mod 1000).
Proof.
  intros Hx.
  assert (Ha : (x / 1000 < 1000)%N) by (apply N.Div0.div_lt_upper_bound; lia).
  assert (Hb : (x mod 1000 < 1000)%N) by (apply N.mod_lt; discriminate).
  pose proof (N.div_mod x 1000 ltac:(discriminate)) as E.
  destruct (N.eq_dec (x / 1000) 0) as [E0 | Hpos].
  - rewrite E0 in *. rewrite N.mul_0_r, N.add_0_l in E. rewrite <- E.
    rewrite <- (pad_three x) by lia. unfold pad.
    pose proof (length_of_N_small x ltac:(lia)) as L.
    replace (6 - length (of_N x)) with (3 + (3 - length (of_N x))) by lia.
    rewrite repeat_app, <- app_assoc. reflexivity.
  - rewrite E at 1. rewrite of_N_thousands by lia.
    rewrite <- (pad_three (x / 1000)) by lia. unfold pad.
    pose proof (length_of_N_small (x / 1000) ltac:(lia)) as L.
    rewrite length_app. cbn [three_digits length].
    replace (6 - (length (of_N (x / 1000)) + 3))
      with (3 - length (of_N (x / 1000))) by lia.
    rewrite <- app_assoc. reflexivity.
Qed.

Lemma field_six v :
  (0 <= v < 1000000)%Z ->
  Clock.field 6 v
  = three_digits (Z.to_N (v / 1000)) ++ three_digits (Z.to_N v mod 1000).
Proof.
  intros Hv. unfold Clock.field.
  assert (E : of_Z v = of_N (Z.to_N v)) by (destruct v; [| | lia]; reflexivity).
  rewrite E, pad_six by lia. rewrite Z2N.inj_div by lia. reflexivity.
Qed.

Lemma drop_last3_app (p r : str) : length r = 3 -> drop_last3 (p ++ r) = p.
Proof.
  intros Hr. unfold drop_last3. rewrite length_app, Hr.
  replace (length p + 3 - 3) with (length p + 0) by lia.
  rewrite firstn_app_2, firstn_O. apply app_nil_r.
Qed.

Lemma truncated_parts t :
  ((1000 * (t / 1000)) / 86400000000 = t / 86400000000
   /\ ((1000 * (t / 1000)) mod 86400000000) / 1000000
      = (t mod 86400000000) / 1000000
   /\ (((1000 * (t / 1000)) mod 86400000000) mod 1000000) / 1000
      = ((t mod 86400000000) mod 1000000) / 1000)%Z.
Proof.
  clear ADSIM_BEARER requests_get to_datetime load_table_from_dataframe.
  repeat split; Z.div_mod_to_equations; lia.
Qed.

Lemma micros_of_second t :
  ((t mod 86400000000) mod 1000000 = t mod 1000000)%Z.
Proof.
  clear ADSIM_BEARER requests_get to_datetime load_table_from_dataframe.
  Z.div_mod_to_equations; lia.
Qed.

(** X20.  The timestamps sent to the API have millisecond precision, the
    microseconds of the clock being cut, not rounded: [iso_millis] gives the
    same text for an instant and for the start of its millisecond, and the
    text ends with the three digits of the whole milliseconds of the second
    and a Z. *)
Theorem iso_millis_truncates t :
  iso_millis t = iso_millis (1000 * (t / 1000))%Z
  /\ exists seconds,
       iso_millis t
       = seconds ++ three_digits (Z.to_N ((t mod 1000000) / 1000)) ++ lit "Z".
Proof.
  unfold iso_millis, strftime, microseconds_per_day.
  destruct (truncated_parts t) as (E1 & E2 & E3). rewrite E1, E2.
  destruct (ord2ymd (t / 86400000000 + 1)) as [[year month] dom].
  rewrite !field_six by (apply Z.mod_pos_bound; reflexivity).
  rewrite E3, !app_assoc.
  rewrite !drop_last3_app by reflexivity.
  split; [reflexivity |]. rewrite micros_of_second.
  eexists. rewrite <- app_assoc. reflexivity.
Qed.

End Program.

(** * The module at work: sample runs *)

(** [exists v, f x = Ok v], by running [f]. *)
Ltac run_ok :=
  match goal with
  | |- exists v, ?t = Ok v =>
      let r := eval vm_compute in t in
      match r with
      | Ok ?v => exists v; vm_compute; reflexivity
      end
  end.

Ltac json_lines :=
  repeat (constructor; [first [left; reflexivity | right; run_ok] |]);
  constructor.

Ltac flat_sample :=
  repeat (constructor;
          [intros f l Hf;
           repeat (destruct Hf as [<- | Hf];
                   [intros H; vm_compute in H; discriminate |]);
           destruct Hf |]);
  constructor.

Ltac not_mentioned :=
  intros (t & Ht & Hocc); cbn [strings_of In] in Ht;
  destruct Ht as [<- | []]; apply contains_spec in Hocc;
  vm_compute in Hocc; discriminate.

Example sample_now_iso :
  iso_millis sample_now = lit "2024-01-01T00:00:00.000Z"
  /\ fst (window sample_now 2) = (sample_now - timedelta_days 88)%Z
  /\ iso_millis (fst (window sample_now 2)) = lit "2023-10-05T00:00:00.000Z".
Proof. repeat split; vm_compute; reflexivity. Qed.

Example sample_body_lines :
  split 10%N sample_body
  = [quoted "{'id': 1, 'organization': {'id': 7, 'name': 'Acme'}}";
     [];
     quoted " {'id': 2, 'type': null} ";
     []].
Proof. vm_compute. reflexivity. Qed.

(** A full run against an API that answers every batch with the sample
    body: 90 batches of two records, one load of 180 rows. *)
Example sample_run_succeeds :
  fst (adsim_activity_etl sample_token api_ok sample_to_datetime
         sample_warehouse sample_now [])
  = Reply (JObj [(lit "status", JStr (lit "success"));
                 (lit "records_loaded", JInt 180);
                 (lit "message",
                   JStr (lit "Carregado 180 linhas na tabela databaseparanaiba.adsim_dataset.activity"))])
      200
  /\ length (requests_of
               (snd (adsim_activity_etl sample_token api_ok
                       sample_to_datetime sample_warehouse sample_now [])))
     = 90.
Proof. split; vm_compute; reflexivity. Qed.

Example sample_transform :
  transform sample_to_datetime sample_records
  = Some {| index := [0; 1; 2];
            columns :=
              [(lit "id", [Obj (JInt 1); Obj (JInt 2); Obj (JInt 3)]);
               (lit "subject", [NaN; Obj (JStr (lit "call")); NaN]);
               (lit "startDate", [NaT; NaT; NaT]);
               (lit "organization_id", [Obj (JInt 7); NaN; Obj (JInt 9)]);
               (lit "organization_name",
                 [Obj (JStr (lit "Acme")); NaN; NaN])] |}.
Proof. vm_compute. reflexivity. Qed.

(** ** The properties on the sample runs *)

Lemma transform_expands_by_row_witness :
  tabular sample_records sample_rows
  /\ In (lit "organization") nested_cols
  /\ exists df,
       transform sample_to_datetime sample_records = Some df
       /\ (forall sub,
             In sub (union_keys
                       (map (normalised (lit "organization")) sample_rows)) ->
             exists cells,
               In (lit "organization" ++ lit "_" ++ sub, cells) (columns df)
               /\ length cells = length sample_records
               /\ forall i row,
                    nth_error sample_records i = Some (JObj row) ->
                    nth_error cells i
                    = Some (expanded_cell (lit "organization") sub row)
                    /\ (dict_get row (lit "organization") = None ->
                        nth_error cells i = Some NaN)
                    /\ (forall d v,
                          dict_get row (lit "organization") = Some (JObj d) ->
                          dict_get (normalise_json_ordered d) sub = Some v ->
                          nth_error cells i = Some (Obj v))).
Proof.
  assert (Htab : tabular sample_records sample_rows)
    by (split; [reflexivity | flat_sample]).
  assert (Hf : In (lit "organization") nested_cols)
    by (right; left; reflexivity).
  split; [exact Htab |]. split; [exact Hf |].
  exact (transform_expands_by_row sample_to_datetime sample_records
           sample_rows (lit "organization") Htab Hf).
Defined.

Lemma transform_row_count_witness :
  tabular sample_records sample_rows
  /\ exists df,
       transform sample_to_datetime sample_records = Some df
       /\ len df = length sample_records
       /\ Forall (fun c => length (snd c) = length sample_records)
            (columns df).
Proof.
  assert (Htab : tabular sample_records sample_rows)
    by (split; [reflexivity | flat_sample]).
  split; [exact Htab |].
  exact (transform_row_count sample_to_datetime sample_records sample_rows
           Htab).
Defined.

Lemma transform_organization_witness :
  tabular sample_records sample_rows
  /\ nth_error sample_records 0
     = Some (JObj [(lit "id", JInt 1); (lit "organization", acme)])
  /\ dict_get [(lit "id", JInt 1); (lit "organization", acme)]
       (lit "organization")
     = Some (JObj [(lit "id", JInt 7); (lit "name", JStr (lit "Acme"))])
  /\ exists df ids names,
       transform sample_to_datetime sample_records = Some df
       /\ In (lit "organization_id", ids) (columns df)
       /\ nth_error ids 0 = Some (Obj (JInt 7))
       /\ In (lit "organization_name", names) (columns df)
       /\ nth_error names 0 = Some (Obj (JStr (lit "Acme")))
       /\ ~ In (lit "organization") (column_names df).
Proof.
  assert (Htab : tabular sample_records sample_rows)
    by (split; [reflexivity | flat_sample]).
  split; [exact Htab |]. split; [reflexivity |]. split; [reflexivity |].
  exact (transform_organization sample_to_datetime sample_records sample_rows
           0 [(lit "id", JInt 1); (lit "organization", acme)]
           Htab eq_refl eq_refl).
Defined.

Lemma fetch_ndjson_records_witness :
  status_code (api_ok (activity_request sample_token
                         (lit "2023-10-03T00:00:00.000Z")
                         (lit "2023-10-04T00:00:00.000Z") 100)) = 200%Z
  /\ Forall json_line (split 10%N sample_body)
  /\ exists records,
       fst (fetch_activities sample_token api_ok
              (lit "2023-10-03T00:00:00.000Z")
              (lit "2023-10-04T00:00:00.000Z") 100 [])
       = Ok records
       /\ Forall2 (fun line record => json_loads line = Ok record)
            (filter truthy (split 10%N sample_body)) records.
Proof.
  assert (Hbody : Forall json_line (split 10%N sample_body))
    by (rewrite sample_body_lines; json_lines).
  split; [reflexivity |]. split; [exact Hbody |].
  exact (fetch_ndjson_records sample_token api_ok
           (lit "2023-10-03T00:00:00.000Z") (lit "2023-10-04T00:00:00.000Z")
           100 [] eq_refl Hbody).
Defined.

Lemma fetch_blank_body_witness :
  status_code (api_blank (activity_request sample_token
                            (lit "2023-10-03T00:00:00.000Z")
                            (lit "2023-10-04T00:00:00.000Z") 100)) = 200%Z
  /\ blank [10; 32; 9; 10]%N = true
  /\ fst (fetch_activities sample_token api_blank
            (lit "2023-10-03T00:00:00.000Z")
            (lit "2023-10-04T00:00:00.000Z") 100 [])
     = Ok [].
Proof.
  split; [reflexivity |]. split; [reflexivity |].
  exact (fetch_blank_body sample_token api_blank
           (lit "2023-10-03T00:00:00.000Z") (lit "2023-10-04T00:00:00.000Z")
           100 [] eq_refl eq_refl).
Defined.

Lemma sample_first_batches api_bad j :
  j < 2 ->
  fetched sample_token (api_third api_bad) (window sample_now j).
Proof.
  intros Hj. destruct j as [| [| j]]; [| | lia]; unfold fetched; run_ok.
Qed.

Lemma handler_aborts_on_fetch_error_witness :
  2 < 90
  /\ (forall j, j < 2 ->
        fetched sample_token (api_third api_forbidden) (window sample_now j))
  /\ fetch_window sample_token (api_third api_forbidden) (window sample_now 2)
     = Raise (ValueError
                (error_payload
                   (api_forbidden
                      (window_request sample_token (window sample_now 2)))))
  /\ exists trace,
       snd (adsim_activity_etl sample_token (api_third api_forbidden)
              sample_to_datetime sample_warehouse sample_now [])
       = [] ++ trace
       /\ requests_of trace
          = map (window_request sample_token)
              (firstn 3 (windows sample_now))
       /\ existsb is_stage_call trace = false
       /\ fst (adsim_activity_etl sample_token (api_third api_forbidden)
                 sample_to_datetime sample_warehouse sample_now [])
          = Reply (error_payload
                     (api_forbidden
                        (window_request sample_token (window sample_now 2))))
              500.
Proof.
  assert (Hfetch :
            fetch_window sample_token (api_third api_forbidden)
              (window sample_now 2)
            = Raise (ValueError
                       (error_payload
                          (api_forbidden
                             (window_request sample_token
                                (window sample_now 2))))))
    by (vm_compute; reflexivity).
  split; [lia |]. split; [exact (sample_first_batches api_forbidden) |].
  split; [exact Hfetch |].
  destruct (handler_aborts_on_fetch_error sample_token
              (api_third api_forbidden) sample_to_datetime sample_warehouse
              sample_now [] 2 _
              ltac:(lia) (sample_first_batches api_forbidden) Hfetch)
    as (trace & Hlog & Hreq & Hstage & Hreply & _).
  exists trace. split; [exact Hlog |]. split; [exact Hreq |].
  split; [exact Hstage |]. exact (Hreply eq_refl).
Defined.

Lemma sample_garbled_line : Exists malformed (split 10%N (lit "@")).
Proof.
  left. split; [reflexivity |].
  intros v H. vm_compute in H. discriminate.
Qed.

Lemma sample_separator_line :
  Exists rejected (split 10%N (strip separator_body)).
Proof.
  assert (E : split 10%N (strip separator_body)
              = [quoted "{'id': 1}"; 28%N :: quoted "{'id': 2}";
                 quoted "{'id': 3}"])
    by (vm_compute; reflexivity).
  rewrite E. right. left. split; [reflexivity |].
  intros v H. vm_compute in H. discriminate.
Qed.

Lemma handler_reports_decode_error_witness :
  2 < 90
  /\ (forall j, j < 2 ->
        fetched sample_token (api_third api_separator) (window sample_now j))
  /\ status_code (api_third api_separator
                    (window_request sample_token (window sample_now 2)))
     = 200%Z
  /\ Exists rejected (split 10%N (strip separator_body))
  /\ exists pre doc post e trace,
       split 10%N (strip separator_body) = pre ++ doc :: post
       /\ Forall json_line pre
       /\ rejected doc
       /\ json_loads doc = Raise e
       /\ fetch_window sample_token (api_third api_separator)
            (window sample_now 2)
          = Raise e
       /\ snd (adsim_activity_etl sample_token (api_third api_separator)
                 sample_to_datetime sample_warehouse sample_now [])
          = [] ++ trace
       /\ requests_of trace
          = map (window_request sample_token)
              (firstn 3 (windows sample_now))
       /\ existsb is_stage_call trace = false
       /\ (is_ValueError e = true ->
           fst (adsim_activity_etl sample_token (api_third api_separator)
                  sample_to_datetime sample_warehouse sample_now [])
           = Reply (args0 e) 500)
       /\ (is_ValueError e = false ->
           fst (adsim_activity_etl sample_token (api_third api_separator)
                  sample_to_datetime sample_warehouse sample_now [])
           = Uncaught e)
       /\ (forall msg d pos,
             e = JSONDecodeError msg d pos ->
             d = doc
             /\ fst (adsim_activity_etl sample_token
                       (api_third api_separator) sample_to_datetime
                       sample_warehouse sample_now [])
                = Reply (JStr (errmsg msg doc pos)) 500
             /\ forall status url_ body,
                  ~ shows_http_error (JStr (errmsg msg doc pos))
                      status url_ body).
Proof.
  assert (Hstatus :
            status_code (api_third api_separator
                           (window_request sample_token
                              (window sample_now 2))) = 200%Z)
    by (vm_compute; reflexivity).
  assert (Htext :
            text (api_third api_separator
                    (window_request sample_token (window sample_now 2)))
            = separator_body)
    by (vm_compute; reflexivity).
  split; [lia |]. split; [exact (sample_first_batches api_separator) |].
  split; [exact Hstatus |]. split; [exact sample_separator_line |].
  rewrite <- Htext.
  apply (handler_reports_decode_error sample_token (api_third api_separator)
           sample_to_datetime sample_warehouse sample_now [] 2
           ltac:(lia) (sample_first_batches api_separator) Hstatus).
  rewrite Htext. exact sample_separator_line.
Defined.

(** What the handler replies on that body: the decoder's message about the
    second line, which it calls line 1. *)
Example separator_reply :
  fst (adsim_activity_etl sample_token (api_third api_separator)
         sample_to_datetime sample_warehouse sample_now [])
  = Reply (JStr (lit "Expecting value: line 1 column 1 (char 0)")) 500.
Proof. vm_compute. reflexivity. Qed.

(** ** The further properties on the sample runs *)

Lemma Forall2_results {A B} (f : A -> result B) l rs :
  map f l = map Ok rs -> Forall2 (fun x r => f x = Ok r) l rs.
Proof.
  revert rs. induction l as [| x l IH]; intros [| r rs]; cbn [map];
    try discriminate; [constructor |].
  intros [= H1 H2]. constructor; [exact H1 | apply IH, H2].
Qed.

Lemma third_only_fetched answer batch :
  fetch_window sample_token (api_third_only answer) (window sample_now 2)
  = Ok batch ->
  Forall2
    (fun w b => fetch_window sample_token (api_third_only answer) w = Ok b)
    (windows sample_now) (third_only batch).
Proof.
  intros H. apply Forall2_results.
  change (windows sample_now)
    with (map (window sample_now) [0; 1] ++ window sample_now 2
            :: map (window sample_now) (seq 3 87)).
  change (third_only batch)
    with (map (fun _ => @nil json) [0; 1] ++ batch
            :: map (fun _ => @nil json) (seq 3 87)).
  rewrite !map_app. cbn [map]. rewrite H.
  apply f_equal2; [vm_compute; reflexivity |].
  apply f_equal. vm_compute. reflexivity.
Qed.

Lemma fetch_bom_body_witness :
  status_code (api_bom (activity_request sample_token
                          (lit "2023-10-03T00:00:00.000Z")
                          (lit "2023-10-04T00:00:00.000Z") 100)) = 200%Z
  /\ starts_with [65279%N]
       (text (api_bom (activity_request sample_token
                         (lit "2023-10-03T00:00:00.000Z")
                         (lit "2023-10-04T00:00:00.000Z") 100))) = true
  /\ exists doc,
       fst (fetch_activities sample_token api_bom
              (lit "2023-10-03T00:00:00.000Z")
              (lit "2023-10-04T00:00:00.000Z") 100 [])
       = Raise (JSONDecodeError unexpected_bom doc 0)
       /\ args0 (JSONDecodeError unexpected_bom doc 0)
          = JStr (lit "Unexpected UTF-8 BOM (decode using utf-8-sig): line 1 column 1 (char 0)").
Proof.
  split; [reflexivity |]. split; [reflexivity |].
  exact (fetch_bom_body sample_token api_bom
           (lit "2023-10-03T00:00:00.000Z") (lit "2023-10-04T00:00:00.000Z")
           100 [] eq_refl eq_refl).
Defined.

Lemma fetch_whitespace_line_witness :
  status_code (api_gap (activity_request sample_token
                          (lit "2023-10-03T00:00:00.000Z")
                          (lit "2023-10-04T00:00:00.000Z") 100)) = 200%Z
  /\ text (api_gap (activity_request sample_token
                      (lit "2023-10-03T00:00:00.000Z")
                      (lit "2023-10-04T00:00:00.000Z") 100))
     = (quoted "{'id': 1}" ++ [13%N]) ++ [10%N] ++ [13%N] ++ [10%N]
         ++ (quoted "{'id': 2}" ++ [13; 10]%N)
  /\ blank (quoted "{'id': 1}" ++ [13%N]) = false
  /\ blank (quoted "{'id': 2}" ++ [13; 10]%N) = false
  /\ [13%N] <> []
  /\ blank [13%N] = true
  /\ ~ In 10%N [13%N]
  /\ exists msg doc pos,
       fst (fetch_activities sample_token api_gap
              (lit "2023-10-03T00:00:00.000Z")
              (lit "2023-10-04T00:00:00.000Z") 100 [])
       = Raise (JSONDecodeError msg doc pos).
Proof.
  assert (Hline : ~ In 10%N [13%N]) by (intros [H | []]; discriminate).
  split; [reflexivity |]. split; [reflexivity |]. split; [reflexivity |].
  split; [reflexivity |]. split; [discriminate |]. split; [reflexivity |].
  split; [exact Hline |].
  exact (fetch_whitespace_line sample_token api_gap
           (lit "2023-10-03T00:00:00.000Z") (lit "2023-10-04T00:00:00.000Z")
           100 [] (quoted "{'id': 1}" ++ [13%N]) [13%N]
           (quoted "{'id': 2}" ++ [13; 10]%N)
           eq_refl eq_refl eq_refl eq_refl ltac:(discriminate) eq_refl Hline).
Defined.

Lemma decode_error_names_line_one_witness :
  fst (fetch_activities sample_token api_garbled
         (lit "2023-10-03T00:00:00.000Z")
         (lit "2023-10-04T00:00:00.000Z") 100 [])
  = Raise (JSONDecodeError expecting_value (lit "@") 0)
  /\ In (lit "@") (split 10%N (strip (lit "@")))
  /\ args0 (JSONDecodeError expecting_value (lit "@") 0)
     = JStr (expecting_value ++ lit ": line 1 column " ++ of_N (N.of_nat 1)
               ++ lit " (char " ++ of_N (N.of_nat 0) ++ lit ")").
Proof.
  assert (H : fst (fetch_activities sample_token api_garbled
                     (lit "2023-10-03T00:00:00.000Z")
                     (lit "2023-10-04T00:00:00.000Z") 100 [])
              = Raise (JSONDecodeError expecting_value (lit "@") 0))
    by (vm_compute; reflexivity).
  split; [exact H |].
  exact (decode_error_names_line_one sample_token api_garbled
           (lit "2023-10-03T00:00:00.000Z") (lit "2023-10-04T00:00:00.000Z")
           100 [] expecting_value (lit "@") 0 H).
Defined.

Lemma sample_docs_decode :
  Forall (fun d => ~ In 10%N d /\ exists v, json_loads d = Ok v) sample_docs.
Proof.
  repeat (constructor;
          [split; [intros H; vm_compute in H; intuition discriminate
                  | run_ok] |]).
  constructor.
Qed.

Lemma fetch_crlf_body_witness :
  status_code (api_crlf (activity_request sample_token
                           (lit "2023-10-03T00:00:00.000Z")
                           (lit "2023-10-04T00:00:00.000Z") 100)) = 200%Z
  /\ text (api_crlf (activity_request sample_token
                       (lit "2023-10-03T00:00:00.000Z")
                       (lit "2023-10-04T00:00:00.000Z") 100))
     = crlf_body sample_docs
  /\ Forall (fun d => ~ In 10%N d /\ exists v, json_loads d = Ok v)
       sample_docs
  /\ exists records,
       fst (fetch_activities sample_token api_crlf
              (lit "2023-10-03T00:00:00.000Z")
              (lit "2023-10-04T00:00:00.000Z") 100 [])
       = Ok records
       /\ Forall2 (fun d record => json_loads d = Ok record)
            sample_docs records.
Proof.
  split; [reflexivity |]. split; [reflexivity |].
  split; [exact sample_docs_decode |].
  exact (fetch_crlf_body sample_token api_crlf
           (lit "2023-10-03T00:00:00.000Z") (lit "2023-10-04T00:00:00.000Z")
           100 [] sample_docs eq_refl eq_refl sample_docs_decode).
Defined.

Lemma fetch_ignores_outer_whitespace_witness :
  status_code (api_ok (activity_request sample_token
                         (lit "2023-10-03T00:00:00.000Z")
                         (lit "2023-10-04T00:00:00.000Z") 100)) = 200%Z
  /\ text (api_ok (activity_request sample_token
                     (lit "2023-10-03T00:00:00.000Z")
                     (lit "2023-10-04T00:00:00.000Z") 100))
     = [] ++ (quoted "{'id': 1, 'organization': {'id': 7, 'name': 'Acme'}}"
                ++ [10; 10]%N ++ quoted " {'id': 2, 'type': null}")
          ++ [32; 10]%N
  /\ blank [] = true
  /\ blank [32; 10]%N = true
  /\ fst (fetch_activities sample_token api_ok
            (lit "2023-10-03T00:00:00.000Z")
            (lit "2023-10-04T00:00:00.000Z") 100 [])
     = loads_lines
         (split 10%N
            (strip (quoted "{'id': 1, 'organization': {'id': 7, 'name': 'Acme'}}"
                      ++ [10; 10]%N ++ quoted " {'id': 2, 'type': null}"))).
Proof.
  split; [reflexivity |]. split; [reflexivity |]. split; [reflexivity |].
  split; [reflexivity |].
  exact (fetch_ignores_outer_whitespace sample_token api_ok
           (lit "2023-10-03T00:00:00.000Z") (lit "2023-10-04T00:00:00.000Z")
           100 [] []
           (quoted "{'id': 1, 'organization': {'id': 7, 'name': 'Acme'}}"
              ++ [10; 10]%N ++ quoted " {'id': 2, 'type': null}")
           [32; 10]%N eq_refl eq_refl eq_refl eq_refl).
Defined.

Lemma fetch_returns_line_values_witness :
  fst (fetch_activities sample_token api_ok
         (lit "2023-10-03T00:00:00.000Z")
         (lit "2023-10-04T00:00:00.000Z") 100 [])
  = Ok sample_batch
  /\ status_code (api_ok (activity_request sample_token
                            (lit "2023-10-03T00:00:00.000Z")
                            (lit "2023-10-04T00:00:00.000Z") 100)) = 200%Z
  /\ Forall2 (fun line record => json_loads (strip line) = Ok record)
       (filter (fun l => negb (blank l)) (split 10%N sample_body))
       sample_batch
  /\ length sample_batch
     = length (filter (fun l => negb (blank l)) (split 10%N sample_body)).
Proof.
  assert (H : fst (fetch_activities sample_token api_ok
                     (lit "2023-10-03T00:00:00.000Z")
                     (lit "2023-10-04T00:00:00.000Z") 100 [])
              = Ok sample_batch)
    by (vm_compute; reflexivity).
  split; [exact H |].
  exact (fetch_returns_line_values sample_token api_ok
           (lit "2023-10-03T00:00:00.000Z") (lit "2023-10-04T00:00:00.000Z")
           100 [] sample_batch H).
Defined.

Lemma sample_tabular : tabular sample_records sample_rows.
Proof. split; [reflexivity | flat_sample]. Qed.

Lemma transform_column_order_witness :
  tabular sample_records sample_rows
  /\ exists df,
       transform sample_to_datetime sample_records = Some df
       /\ column_names df
          = kept_keys sample_rows
              ++ flat_map (fun f => expanded_labels f sample_rows) nested_cols.
Proof.
  split; [exact sample_tabular |].
  exact (transform_column_order sample_to_datetime sample_records sample_rows
           sample_tabular).
Defined.

Ltac not_listed :=
  intros H; cbn [In] in H;
  repeat (destruct H as [H | H]; [discriminate |]); destruct H.

Lemma transform_keeps_other_columns_witness :
  tabular sample_records sample_rows
  /\ In (lit "subject") (union_keys sample_rows)
  /\ ~ In (lit "subject") nested_cols
  /\ ~ In (lit "subject") date_cols
  /\ exists df0 df cells,
       DataFrame_of_records sample_records = Some df0
       /\ transform sample_to_datetime sample_records = Some df
       /\ dict_get (columns df0) (lit "subject") = Some cells
       /\ dict_get (columns df) (lit "subject") = Some cells
       /\ In (lit "subject", cells) (columns df)
       /\ length cells = length sample_records.
Proof.
  assert (Hk : In (lit "subject") (union_keys sample_rows))
    by (vm_compute; auto).
  assert (Hn : ~ In (lit "subject") nested_cols) by not_listed.
  assert (Hd : ~ In (lit "subject") date_cols) by not_listed.
  split; [exact sample_tabular |]. split; [exact Hk |].
  split; [exact Hn |]. split; [exact Hd |].
  exact (transform_keeps_other_columns sample_to_datetime sample_records
           sample_rows (lit "subject") sample_tabular Hk Hn Hd).
Defined.

Lemma transform_converts_dates_witness :
  tabular sample_records sample_rows
  /\ In (lit "startDate") date_cols
  /\ exists df,
       transform sample_to_datetime sample_records = Some df
       /\ (In (lit "startDate") (union_keys sample_rows) ->
           dict_get (columns df) (lit "startDate")
           = Some (map (sample_to_datetime
                          (raw_column sample_rows (lit "startDate")))
                     (raw_column sample_rows (lit "startDate"))))
       /\ (~ In (lit "startDate") (union_keys sample_rows) ->
           ~ In (lit "startDate") (column_names df)).
Proof.
  assert (Hk : In (lit "startDate") date_cols) by (left; reflexivity).
  split; [exact sample_tabular |]. split; [exact Hk |].
  exact (transform_converts_dates sample_to_datetime sample_records
           sample_rows (lit "startDate") sample_tabular Hk).
Defined.

Lemma typed_tabular : tabular typed_records typed_rows.
Proof. split; [reflexivity | flat_sample]. Qed.

Lemma typed_rows_scalar row d :
  In row typed_rows -> dict_get row (lit "type") = Some (JObj d) -> d = [].
Proof.
  intros [<- | [<- | []]] H; vm_compute in H; discriminate.
Qed.

Lemma transform_drops_scalar_nested_witness :
  tabular typed_records typed_rows
  /\ In (lit "type") nested_cols
  /\ (forall row d,
        In row typed_rows -> dict_get row (lit "type") = Some (JObj d) ->
        d = [])
  /\ exists df,
       transform sample_to_datetime typed_records = Some df
       /\ ~ In (lit "type") (column_names df)
       /\ column_names df
          = kept_keys typed_rows
              ++ flat_map (fun g => expanded_labels g typed_rows)
                   (filter (fun g => negb (Str.eqb g (lit "type")))
                      nested_cols).
Proof.
  assert (Hf : In (lit "type") nested_cols) by (left; reflexivity).
  split; [exact typed_tabular |]. split; [exact Hf |].
  split; [exact typed_rows_scalar |].
  exact (transform_drops_scalar_nested sample_to_datetime typed_records
           typed_rows (lit "type") typed_tabular Hf typed_rows_scalar).
Defined.

Lemma transform_cells_flat_witness :
  tabular sample_records sample_rows
  /\ exists df,
       transform sample_to_datetime sample_records = Some df
       /\ forall label cells,
            In (label, cells) (columns df) ->
            ~ In label (union_keys sample_rows) ->
            forall c, In c cells -> holds_dict c = false.
Proof.
  split; [exact sample_tabular |].
  exact (transform_cells_flat sample_to_datetime sample_records sample_rows
           sample_tabular).
Defined.

(** What the frames of these samples are. *)
Example typed_transform :
  transform sample_to_datetime typed_records
  = Some {| index := [0; 1];
            columns :=
              [(lit "id", [Obj (JInt 1); Obj (JInt 2)]);
               (lit "organization_id", [NaN; Obj (JInt 7)]);
               (lit "organization_name",
                 [NaN; Obj (JStr (lit "Acme"))])] |}.
Proof. vm_compute. reflexivity. Qed.

Lemma sample_batches_fetched :
  Forall2
    (fun w b => fetch_window sample_token (api_third_only api_ok) w = Ok b)
    (windows sample_now) (third_only sample_batch).
Proof. apply third_only_fetched. vm_compute. reflexivity. Qed.

Lemma sample_batches_frame :
  transform sample_to_datetime (concat (third_only sample_batch))
  = Some sample_frame.
Proof. vm_compute. reflexivity. Qed.

Lemma handler_success_trace_witness :
  Forall2
    (fun w b => fetch_window sample_token (api_third_only api_ok) w = Ok b)
    (windows sample_now) (third_only sample_batch)
  /\ transform sample_to_datetime (concat (third_only sample_batch))
     = Some sample_frame
  /\ snd (adsim_activity_etl sample_token (api_third_only api_ok)
            sample_to_datetime sample_warehouse sample_now [])
     = [] ++ loop_events sample_token (windows sample_now)
               (third_only sample_batch)
          ++ [Transform (concat (third_only sample_batch))]
          ++ (if empty sample_frame then []
              else [LoadJob sample_frame default_table_id]).
Proof.
  split; [exact sample_batches_fetched |].
  split; [exact sample_batches_frame |].
  exact (handler_success_trace sample_token (api_third_only api_ok)
           sample_to_datetime sample_warehouse sample_now []
           (third_only sample_batch) sample_frame
           sample_batches_fetched sample_batches_frame).
Defined.

Lemma sample_batches_tabular :
  tabular (concat (third_only sample_batch)) sample_batch_rows.
Proof. split; [vm_compute; reflexivity | flat_sample]. Qed.

Lemma handler_success_reply_witness :
  Forall2
    (fun w b => fetch_window sample_token (api_third_only api_ok) w = Ok b)
    (windows sample_now) (third_only sample_batch)
  /\ tabular (concat (third_only sample_batch)) sample_batch_rows
  /\ transform sample_to_datetime (concat (third_only sample_batch))
     = Some sample_frame
  /\ empty sample_frame = false
  /\ sample_warehouse sample_frame default_table_id = Ok 2%Z
  /\ fst (adsim_activity_etl sample_token (api_third_only api_ok)
            sample_to_datetime sample_warehouse sample_now [])
     = Reply (success_payload (length (concat (third_only sample_batch)))
                (lit "Carregado " ++ of_Z 2
                   ++ lit " linhas na tabela databaseparanaiba.adsim_dataset.activity"))
         200.
Proof.
  split; [exact sample_batches_fetched |].
  split; [exact sample_batches_tabular |].
  split; [exact sample_batches_frame |].
  split; [reflexivity |]. split; [reflexivity |].
  exact (handler_success_reply sample_token (api_third_only api_ok)
           sample_to_datetime sample_warehouse sample_now []
           (third_only sample_batch) sample_batch_rows sample_frame 2%Z
           sample_batches_fetched sample_batches_tabular sample_batches_frame
           eq_refl eq_refl).
Defined.

Lemma handler_load_error_uncaught_witness :
  Forall2
    (fun w b => fetch_window sample_token (api_third_only api_ok) w = Ok b)
    (windows sample_now) (third_only sample_batch)
  /\ transform sample_to_datetime (concat (third_only sample_batch))
     = Some sample_frame
  /\ empty sample_frame = false
  /\ warehouse_down sample_frame default_table_id
     = Raise (ValueError (JStr (lit "schema mismatch")))
  /\ adsim_activity_etl sample_token (api_third_only api_ok)
       sample_to_datetime warehouse_down sample_now []
     = (Uncaught (ValueError (JStr (lit "schema mismatch"))),
        [] ++ loop_events sample_token (windows sample_now)
                (third_only sample_batch)
           ++ [Transform (concat (third_only sample_batch));
               LoadJob sample_frame default_table_id]).
Proof.
  split; [exact sample_batches_fetched |].
  split; [exact sample_batches_frame |].
  split; [reflexivity |]. split; [reflexivity |].
  exact (handler_load_error_uncaught sample_token (api_third_only api_ok)
           sample_to_datetime warehouse_down sample_now []
           (third_only sample_batch) sample_frame
           (ValueError (JStr (lit "schema mismatch")))
           sample_batches_fetched sample_batches_frame eq_refl eq_refl).
Defined.

Lemma blank_api_everywhere w :
  In w (windows sample_now) ->
  status_code (api_blank (window_request sample_token w)) = 200%Z
  /\ blank (text (api_blank (window_request sample_token w))) = true.
Proof. intros _. split; reflexivity. Qed.

Lemma handler_nothing_fetched_witness :
  (forall w, In w (windows sample_now) ->
     status_code (api_blank (window_request sample_token w)) = 200%Z
     /\ blank (text (api_blank (window_request sample_token w))) = true)
  /\ adsim_activity_etl sample_token api_blank sample_to_datetime
       sample_warehouse sample_now []
     = (Reply (success_payload 0 no_data) 200,
        [] ++ loop_events sample_token (windows sample_now) (repeat [] 90)
           ++ [Transform []]).
Proof.
  split; [exact blank_api_everywhere |].
  exact (handler_nothing_fetched sample_token api_blank sample_to_datetime
           sample_warehouse sample_now [] blank_api_everywhere).
Defined.

Lemma call_batches_fetched :
  Forall2
    (fun w b => fetch_window sample_token (api_third_only api_calls) w = Ok b)
    (windows sample_now) (third_only call_batch).
Proof. apply third_only_fetched. vm_compute. reflexivity. Qed.

Lemma call_rows_scalar row k v :
  In row call_rows -> dict_get row k = Some v ->
  In k nested_cols /\ is_scalar v = true.
Proof.
  intros [<- | [<- | []]] H; cbn [dict_get] in H;
    repeat match type of H with
      | (if Str.eqb ?x k then _ else _) = _ =>
          destruct (Str.eqb x k) eqn:E;
          [apply eqb_eq in E; subst k; injection H as <-;
           split; [cbn; auto 10 | reflexivity] | clear E]
      end; discriminate.
Qed.

Lemma handler_rows_without_columns_witness :
  Forall2
    (fun w b => fetch_window sample_token (api_third_only api_calls) w = Ok b)
    (windows sample_now) (third_only call_batch)
  /\ as_dicts (concat (third_only call_batch)) = Some call_rows
  /\ (forall row k v,
        In row call_rows -> dict_get row k = Some v ->
        In k nested_cols /\ is_scalar v = true)
  /\ adsim_activity_etl sample_token (api_third_only api_calls)
       sample_to_datetime sample_warehouse sample_now []
     = (Reply (success_payload (length (concat (third_only call_batch)))
                 no_data) 200,
        [] ++ loop_events sample_token (windows sample_now)
                (third_only call_batch)
           ++ [Transform (concat (third_only call_batch))]).
Proof.
  assert (Hrows : as_dicts (concat (third_only call_batch)) = Some call_rows)
    by (vm_compute; reflexivity).
  split; [exact call_batches_fetched |]. split; [exact Hrows |].
  split; [exact call_rows_scalar |].
  exact (handler_rows_without_columns sample_token (api_third_only api_calls)
           sample_to_datetime sample_warehouse sample_now []
           (third_only call_batch) call_rows
           call_batches_fetched Hrows call_rows_scalar).
Defined.

Example call_batch_reply :
  fst (adsim_activity_etl sample_token (api_third_only api_calls)
         sample_to_datetime sample_warehouse sample_now [])
  = Reply (JObj [(lit "status", JStr (lit "success"));
                 (lit "records_loaded", JInt 2);
                 (lit "message", JStr (lit "Sem dados para carregar"))])
      200.
Proof. vm_compute. reflexivity. Qed.

Lemma requests_carry_token_witness :
  import_module sample_environ = Ok sample_token
  /\ dict_get sample_environ (lit "ADSIM_BEARER") = Some sample_token
  /\ sample_token <> []
  /\ exists trace,
       snd (adsim_activity_etl sample_token api_ok sample_to_datetime
              sample_warehouse sample_now [])
       = [] ++ trace
       /\ Forall
            (fun r =>
               req_url r = lit "https://api.adsim.co/crm-r/api/v2/activity"
               /\ dict_get (req_headers r) (lit "accept")
                  = Some (lit "application/x-ndjson")
               /\ dict_get (req_headers r) (lit "Authorization")
                  = Some (lit "Bearer " ++ sample_token)
               /\ dict_get (req_params r) (lit "ignoreDeleted")
                  = Some (JStr (lit "true"))
               /\ dict_get (req_params r) (lit "limit") = Some (JInt 100))
            (requests_of trace).
Proof.
  split; [reflexivity |].
  exact (requests_carry_token sample_token api_ok sample_to_datetime
           sample_warehouse sample_environ sample_now [] eq_refl).
Defined.

Lemma forbidden_third_batches :
  Forall2
    (fun w b => fetch_window sample_token (api_third api_forbidden) w = Ok b)
    (firstn 2 (windows sample_now))
    [sample_batch; sample_batch].
Proof. apply Forall2_results. vm_compute. reflexivity. Qed.

Lemma handler_failure_trace_witness :
  2 < 90
  /\ Forall2
       (fun w b =>
          fetch_window sample_token (api_third api_forbidden) w = Ok b)
       (firstn 2 (windows sample_now))
       [sample_batch; sample_batch]
  /\ fetch_window sample_token (api_third api_forbidden) (window sample_now 2)
     = Raise (ValueError
                (error_payload
                   (api_forbidden
                      (window_request sample_token (window sample_now 2)))))
  /\ adsim_activity_etl sample_token (api_third api_forbidden)
       sample_to_datetime sample_warehouse sample_now []
     = (Reply (args0 (ValueError
                        (error_payload
                           (api_forbidden
                              (window_request sample_token
                                 (window sample_now 2))))))
          500,
        [] ++ loop_events sample_token (firstn 2 (windows sample_now))
                [sample_batch; sample_batch]
           ++ [Get (window_request sample_token (window sample_now 2))]).
Proof.
  assert (Hfetch :
            fetch_window sample_token (api_third api_forbidden)
              (window sample_now 2)
            = Raise (ValueError
                       (error_payload
                          (api_forbidden
                             (window_request sample_token
                                (window sample_now 2))))))
    by (vm_compute; reflexivity).
  split; [lia |]. split; [exact forbidden_third_batches |].
  split; [exact Hfetch |].
  exact (handler_failure_trace sample_token (api_third api_forbidden)
           sample_to_datetime sample_warehouse sample_now [] 2
           [sample_batch; sample_batch] _
           ltac:(lia) forbidden_third_batches Hfetch).
Defined.

(** ** Where the specification says otherwise *)

(** C2, as stated, fails: a 200 response whose body is the malformed line
    [@] makes the handler reply 500 with the decoder's message; the status
    code, the URL and the raw body occur nowhere in that payload. *)
Lemma decode_error_payload_counterexample :
  status_code (api_garbled
                 (window_request sample_token (window sample_now 0))) = 200%Z
  /\ Exists malformed
       (split 10%N
          (text (api_garbled
                   (window_request sample_token (window sample_now 0)))))
  /\ fst (adsim_activity_etl sample_token api_garbled sample_to_datetime
            sample_warehouse sample_now [])
     = Reply (JStr (lit "Expecting value: line 1 column 1 (char 0)")) 500
  /\ ~ mentions (JStr (lit "Expecting value: line 1 column 1 (char 0)"))
         (of_Z 200)
  /\ ~ mentions (JStr (lit "Expecting value: line 1 column 1 (char 0)"))
         (url (api_garbled
                 (window_request sample_token (window sample_now 0))))
  /\ ~ mentions (JStr (lit "Expecting value: line 1 column 1 (char 0)"))
         (text (api_garbled
                  (window_request sample_token (window sample_now 0))))
  /\ ~ shows_http_error
         (JStr (lit "Expecting value: line 1 column 1 (char 0)")) 200
         (url (api_garbled
                 (window_request sample_token (window sample_now 0))))
         (text (api_garbled
                  (window_request sample_token (window sample_now 0)))).
Proof.
  split; [reflexivity |]. split; [exact sample_garbled_line |].
  split; [vm_compute; reflexivity |].
  split; [not_mentioned |]. split; [not_mentioned |].
  split; [not_mentioned |].
  intros (message & Hm & _). discriminate.
Qed.

(** C4, as stated, fails: when the API answers 403, the handler sends the
    request of the first window only, not one for each of the 90. *)
Lemma fetch_calls_counterexample :
  requests_of
    (snd (adsim_activity_etl sample_token api_forbidden sample_to_datetime
            sample_warehouse sample_now []))
  = [window_request sample_token (window sample_now 0)]
  /\ length (windows sample_now) = 90
  /\ requests_of
       (snd (adsim_activity_etl sample_token api_forbidden sample_to_datetime
               sample_warehouse sample_now []))
     <> map (window_request sample_token) (windows sample_now).
Proof.
  split; [vm_compute; reflexivity |]. split; [reflexivity |].
  intros H. apply (f_equal (@length Request)) in H.
  vm_compute in H. discriminate.
Qed.
